(** * The Gang: browser client of the heist card game

    A shallow embedding of the client script.  The script receives state
    snapshots from the server over a socket, renders them into the page, and
    sends the user's intents back.

    The repository holds three versions of the script.  The latest one
    (second half of static/script.js) is embedded in full.  The one before it
    (first half of static/script.js) is the same text without the tomato
    menu, the tomato effect and the action toast.  The oldest one has no
    identity, observers or chat; the one place where it decides differently,
    the header of its [renderGame], is in [Module Legacy].

    Conventions of the embedding:
    - JS numbers that count things (chip values, vaults, alarms) are [Z];
      numbers that are times in seconds are rationals [Q]; [Date.now()] is a
      [Z] of milliseconds, read once per handler and passed as [now].
      Floating-point rounding, NaN and the infinities are outside the model.
    - JS strings are byte [string]s; [null]/[undefined] is [None]; the fields
      of a snapshot have the types the script uses them at.
    - [localStorage] is a [gmap] from keys to strings.
    - Template literals that build HTML are kept as records of their holes,
      and [classList]s as lists of class names.
    - The page is assumed to carry the elements the script looks up by id;
      the lookups the script itself guards ([#player-area],
      [#game-container], [#chat-messages]) are optional in the model too.
    - [setTimeout] puts a callback with its due time into a queue; the
      browser is the caller of [fire].  Elements created by the script get
      fresh identities, so that a closure holding on to a replaced element
      does not reach the new one. *)

From Stdlib Require Import ZArith QArith Qround Qminmax String Ascii List Bool Lia.
From Stdlib Require Import DecimalString.
From stdpp Require Import base option gmap strings.
Import ListNotations.

Open Scope string_scope.
Open Scope Z_scope.

(** ** Numbers and strings *)

(** [`${n}`] for an integral JS number. *)
Definition show (n : Z) : string := NilZero.string_of_int (Z.to_int n).

(** Greater-than on rationals, as a boolean. *)
Definition Qgtb (a b : Q) : bool := negb (Qle_bool a b).

(** The white space [String.prototype.trim] strips, on byte strings: TAB, LF,
    VT, FF, CR and SPACE. *)
Definition isWhiteSpace (c : ascii) : bool :=
  let n := nat_of_ascii c in
  ((9 <=? n)%nat && (n <=? 13)%nat) || (n =? 32)%nat.

Fixpoint trimStart (s : string) : string :=
  match s with
  | String c r => if isWhiteSpace c then trimStart r else s
  | EmptyString => EmptyString
  end.

Fixpoint trimEnd (s : string) : string :=
  match s with
  | String c r =>
      match trimEnd r with
      | EmptyString => if isWhiteSpace c then EmptyString else String c EmptyString
      | r' => String c r'
      end
  | EmptyString => EmptyString
  end.

Definition trim (s : string) : string := trimEnd (trimStart s).

(** ** formatDuration *)

Definition formatDuration (totalSeconds : Q) : string :=
  let totalSeconds := Z.max 0 (Qfloor totalSeconds) in
  let h := totalSeconds / 3600 in
  let m := (totalSeconds mod 3600) / 60 in
  let s := totalSeconds mod 60 in
  if 0 <? h then show h +:+ "h " +:+ show m +:+ "m"
  else if 0 <? m then show m +:+ "m " +:+ show s +:+ "s"
  else show s +:+ "s".

(** The same function, read off the prose: clamp first, then floor, and pick
    the format by comparing the clamped seconds with 3600 and 60. *)
Definition formatDuration_spec (totalSeconds : Q) : string :=
  let t := Qfloor (Qmax 0 totalSeconds) in
  let h := t / 3600 in
  let m := (t mod 3600) / 60 in
  let s := t mod 60 in
  if 3600 <=? t then show h +:+ "h " +:+ show m +:+ "m"
  else if 60 <=? t then show m +:+ "m " +:+ show s +:+ "s"
  else show s +:+ "s".

(** [String.prototype.includes]. *)
Fixpoint includes (needle s : string) : bool :=
  String.prefix needle s ||
  match s with
  | String _ r => includes needle r
  | EmptyString => false
  end.

(** Truthiness of a string that may be missing, and of a number that may be
    missing. *)
Definition truthy (s : option string) : bool :=
  match s with
  | Some s => negb (String.eqb s "")
  | None => false
  end.

Definition truthyZ (n : option Z) : bool :=
  match n with
  | Some n => negb (n =? 0)
  | None => false
  end.

(** [a === b] where [a] is a string and [b] may be missing. *)
Definition same_id (a : string) (b : option string) : bool :=
  match b with
  | Some b => String.eqb a b
  | None => false
  end.

(** ** The state snapshot sent by the server *)

Module Card.
Record t := mk { str : string; suit : string }.
End Card.

Module Chip.
Record t := mk { color : string; value : Z }.
End Chip.

Module Player.
Record t := mk {
  player_id : string;
  name : string;
  is_observer : bool;
  is_connected : option bool;
  is_settled : bool;
  chip : option Z;
  chip_history : option (list Chip.t);
  hand : option (list Card.t);
  disconnected_at : option Q;
  queued_to_join : bool }.
End Player.

Module Row.
Record t := mk {
  name : string;
  guess_rank : Z;
  true_rank : Z;
  hand_class : string;
  is_correct : bool }.
End Row.

Module ChatMsg.
Record t := mk { name : string; text : string; is_observer : bool }.
End ChatMsg.

Module Tomato.
Record t := mk {
  id : option string;
  at_ : option Q;          (* [None]: [typeof event.at !== "number"] *)
  to_id : option string;
  from_id : option string;
  from_name : string;
  to_name : string }.
End Tomato.

Module State.
Record t := mk {
  me : option Player.t;
  viewer_role : string;
  phase : string;
  chip_color : string;
  community_cards : list Card.t;
  chips_available : list Z;
  players : list Player.t;
  result_message : option string;
  result_details : option (gmap string (list Row.t));
  vaults : Z;
  alarms : Z;
  chat_messages : option (list ChatMsg.t);
  tomato_event : option Tomato.t }.
End State.

(** ** What the client sends: [socket.emit(name, payload)] *)

Inductive Emit :=
| start_game
| restart_game
| change_name (newName : string)
| join_game (player_id name : string) (is_observer : bool)
| remove_player (target_player_id : string)
| take_chip (chip_value : Z) (source : string)
| return_chip
| toggle_settle
| throw_tomato (target_player_id : string)
| chat_message (text : string).

Definition event_name (e : Emit) : string :=
  match e with
  | start_game => "start_game"
  | restart_game => "restart_game"
  | change_name _ => "change_name"
  | join_game _ _ _ => "join_game"
  | remove_player _ => "remove_player"
  | take_chip _ _ => "take_chip"
  | return_chip => "return_chip"
  | toggle_settle => "toggle_settle"
  | throw_tomato _ => "throw_tomato"
  | chat_message _ => "chat_message"
  end.

(** ** The page *)

(** [el.classList] *)
Definition classList := list string.

Definition has_class (cl : string) (l : classList) : bool :=
  existsb (String.eqb cl) l.

Definition classList_add (cl : string) (l : classList) : classList :=
  if has_class cl l then l else (l ++ [cl])%list.

Definition classList_remove (cl : string) (l : classList) : classList :=
  List.filter (fun x => negb (String.eqb cl x)) l.

Definition classList_toggle (cl : string) (force : bool) (l : classList) : classList :=
  if force then classList_add cl l else classList_remove cl l.

(** What a click on an element runs. *)
Inductive Handler :=
| OnStartGame
| OnRestartGame
| OnToggleResultDetails
| OnTakeChip (value : Z) (source : string)
| OnRemovePlayer (targetPlayerId : string)
| OnToggleTomatoMenu (targetPlayerId targetName : string) (anchorEl : nat).

Record CardDiv := { cd_classes : classList; cd_innerText : string }.

Record Button := {
  btn_className : classList;
  btn_innerText : string;
  btn_onclick : Handler }.

Record MiniChip := { mc_className : classList; mc_innerText : string }.

(** One phase block of the detailed rankings. *)
Record ResultRowHtml := {
  rr_name : string;
  rr_guess : string;
  rr_true : string;
  rr_hand : string;
  rr_statusClass : string;
  rr_statusLabel : string }.

Record ResultPhaseHtml := {
  rp_title : string;
  rp_rows : list ResultRowHtml }.   (* [[]]: "No rankings available." *)

(** The HTML of the detailed rankings; [None] is the empty string. *)
Definition DetailsHtml := option (list ResultPhaseHtml).

(** [#phase-display]: plain text, or the RESULT template with its holes. *)
Inductive PhaseDisplay :=
| PhaseText (innerText : string)
| PhaseResult (successColor msg : string)
    (buttons : list Button) (detailsHtml : DetailsHtml).

Inductive StatusLabel :=
| Disconnected (at_ : Q) (disc_time : string)
| Settled
| Thinking.

(** An opponent's [.player-card]; [pc_elem] is the identity of the element. *)
Record PlayerCard := {
  pc_elem : nat;
  pc_classes : classList;
  pc_data_player_id : string;
  pc_name_btn : Button;
  pc_status : StatusLabel;
  pc_kick : option Button;
  pc_hand : option (list CardDiv);     (* [None]: two face-down cards *)
  pc_chip : option Button;             (* [None]: "No Chip" *)
  pc_history : option (list MiniChip) }.

Inductive ObserverList :=
| NoObservers
| Pills (pills : list (classList * string)).

Record ChatLine := { cl_name : string; cl_text : string }.

Inductive ChipSlot :=
| SlotChip (cls : classList) (text : string)
| SlotPlaceholder (text : string).

Record SettleBtn := {
  sb_disabled : bool;
  sb_innerText : string;
  sb_classes : classList }.

(** [#player-area] *)
Record PlayerArea := {
  pa_classes : classList;
  pa_data_player_id : option string;
  pa_splat : bool }.

(** An element a closure holds on to. *)
Inductive ElemRef :=
| RefCard (elem : nat)
| RefPlayerArea.

(** A [.tomato-flight] element and the target its listeners captured. *)
Record Flight := { fl_elem : nat; fl_target : ElemRef }.

Record Toast := { toast_show : bool; toast_text : string }.

(** [#game-container] *)
Record GameContainer := {
  gc_flights : list Flight;
  gc_tomato_toast : option Toast;
  gc_action_toast : option Toast }.

(** The open [.tomato-menu]: its identity, the card whose name button it hangs
    from and the player its button targets. *)
Record TomatoMenu := { tm_elem : nat; tm_anchor : nat; tm_target : string }.
(** The elements the script reads and writes, by the names the script gives
    them. *)
Record Dom := {
  bodyClasses : classList;   (* [document.body.classList] *)
  phaseEl : PhaseDisplay;
  vaultEl : string;
  alarmEl : string;
  myNameEl : string;
  commCardsEl : list CardDiv;
  chipBankEl : list Button;
  chipBankClasses : classList;   (* [chipBankEl.classList] *)
  opponentsEl : list PlayerCard;
  tomatoMenu : option TomatoMenu;   (* the [.tomato-menu] inside the opponents row *)
  observerListEl : ObserverList;
  observerStatusEl : string;
  observerBtn : string;
  chatMessagesEl : option (list ChatLine);   (* [None]: no [#chat-messages] *)
  chatInput : string;   (* [chatInput.value] *)
  nameInput : string;   (* [nameInput.value] *)
  myCardsEl : list CardDiv;
  myHistoryEl : list MiniChip;
  myChipSlot : ChipSlot;
  settleBtn : SettleBtn;
  returnBtn : bool;   (* [returnBtn.disabled] *)
  playerAreaEl : option PlayerArea;   (* [None]: no [#player-area] *)
  gameContainer : option GameContainer }.   (* [None]: no [#game-container] *)

(** ** Timers *)

(** The function handed to [setTimeout], with what it closed over. *)
Inductive Callback :=
| ImpactCb (targetId : string) (me : option Player.t)
| FlightCb (tomato : nat) (targetEl : ElemRef)
| ClearCb
| ToastCb.

Record Timer := { timer_id : nat; due : Z; callback : Callback }.

(** ** The client: browser state and the script's variables *)

Record Client := {
  localStorage : gmap string string;
  emitted : list Emit;   (* what [socket.emit] sent, oldest first *)
  timers : list Timer;   (* pending [setTimeout] callbacks *)
  nextTimer : nat;   (* the id the next [setTimeout] returns *)
  nextElem : nat;   (* the identity of the next created element *)
  dom : Dom;
  playerId : string;
  myName : string;
  isObserver : bool;
  showResultDetails : bool;
  lastState : option State.t;
  tomatoClearTimeout : option nat;
  lastTomatoEventId : option string;
  pendingTomatoEvent : option Tomato.t;
  activeTomatoTargetId : option string;
  activeTomatoExpiresAt : Q;
  activeTomatoShowAt : Z;
  tomatoImpactTimeout : option nat;
  openTomatoMenu : option nat;
  gameActionToastTimeout : option nat }.

(** Field updates.  [playerId] has none: the script assigns it at start-up
    only. *)

Definition set_opponentsEl (v : list PlayerCard) (d : Dom) : Dom :=
  Build_Dom (bodyClasses d) (phaseEl d) (vaultEl d) (alarmEl d) (myNameEl d)
    (commCardsEl d) (chipBankEl d) (chipBankClasses d) v (tomatoMenu d)
    (observerListEl d) (observerStatusEl d) (observerBtn d) (chatMessagesEl d)
    (chatInput d) (nameInput d) (myCardsEl d) (myHistoryEl d) (myChipSlot d)
    (settleBtn d) (returnBtn d) (playerAreaEl d) (gameContainer d).

Definition set_tomatoMenu (v : option TomatoMenu) (d : Dom) : Dom :=
  Build_Dom (bodyClasses d) (phaseEl d) (vaultEl d) (alarmEl d) (myNameEl d)
    (commCardsEl d) (chipBankEl d) (chipBankClasses d) (opponentsEl d) v
    (observerListEl d) (observerStatusEl d) (observerBtn d) (chatMessagesEl d)
    (chatInput d) (nameInput d) (myCardsEl d) (myHistoryEl d) (myChipSlot d)
    (settleBtn d) (returnBtn d) (playerAreaEl d) (gameContainer d).

Definition set_chatInput (v : string) (d : Dom) : Dom :=
  Build_Dom (bodyClasses d) (phaseEl d) (vaultEl d) (alarmEl d) (myNameEl d)
    (commCardsEl d) (chipBankEl d) (chipBankClasses d) (opponentsEl d)
    (tomatoMenu d) (observerListEl d) (observerStatusEl d) (observerBtn d)
    (chatMessagesEl d) v (nameInput d) (myCardsEl d) (myHistoryEl d)
    (myChipSlot d) (settleBtn d) (returnBtn d) (playerAreaEl d) (gameContainer
    d).

Definition set_nameInput (v : string) (d : Dom) : Dom :=
  Build_Dom (bodyClasses d) (phaseEl d) (vaultEl d) (alarmEl d) (myNameEl d)
    (commCardsEl d) (chipBankEl d) (chipBankClasses d) (opponentsEl d)
    (tomatoMenu d) (observerListEl d) (observerStatusEl d) (observerBtn d)
    (chatMessagesEl d) (chatInput d) v (myCardsEl d) (myHistoryEl d)
    (myChipSlot d) (settleBtn d) (returnBtn d) (playerAreaEl d) (gameContainer
    d).

Definition set_playerAreaEl (v : option PlayerArea) (d : Dom) : Dom :=
  Build_Dom (bodyClasses d) (phaseEl d) (vaultEl d) (alarmEl d) (myNameEl d)
    (commCardsEl d) (chipBankEl d) (chipBankClasses d) (opponentsEl d)
    (tomatoMenu d) (observerListEl d) (observerStatusEl d) (observerBtn d)
    (chatMessagesEl d) (chatInput d) (nameInput d) (myCardsEl d) (myHistoryEl
    d) (myChipSlot d) (settleBtn d) (returnBtn d) v (gameContainer d).

Definition set_gameContainer (v : option GameContainer) (d : Dom) : Dom :=
  Build_Dom (bodyClasses d) (phaseEl d) (vaultEl d) (alarmEl d) (myNameEl d)
    (commCardsEl d) (chipBankEl d) (chipBankClasses d) (opponentsEl d)
    (tomatoMenu d) (observerListEl d) (observerStatusEl d) (observerBtn d)
    (chatMessagesEl d) (chatInput d) (nameInput d) (myCardsEl d) (myHistoryEl
    d) (myChipSlot d) (settleBtn d) (returnBtn d) (playerAreaEl d) v.

Definition set_localStorage (v : gmap string string) (c : Client) : Client :=
  Build_Client v (emitted c) (timers c) (nextTimer c) (nextElem c) (dom c)
    (playerId c) (myName c) (isObserver c) (showResultDetails c) (lastState c)
    (tomatoClearTimeout c) (lastTomatoEventId c) (pendingTomatoEvent c)
    (activeTomatoTargetId c) (activeTomatoExpiresAt c) (activeTomatoShowAt c)
    (tomatoImpactTimeout c) (openTomatoMenu c) (gameActionToastTimeout c).

Definition set_emitted (v : list Emit) (c : Client) : Client :=
  Build_Client (localStorage c) v (timers c) (nextTimer c) (nextElem c) (dom
    c) (playerId c) (myName c) (isObserver c) (showResultDetails c) (lastState
    c) (tomatoClearTimeout c) (lastTomatoEventId c) (pendingTomatoEvent c)
    (activeTomatoTargetId c) (activeTomatoExpiresAt c) (activeTomatoShowAt c)
    (tomatoImpactTimeout c) (openTomatoMenu c) (gameActionToastTimeout c).

Definition set_timers (v : list Timer) (c : Client) : Client :=
  Build_Client (localStorage c) (emitted c) v (nextTimer c) (nextElem c) (dom
    c) (playerId c) (myName c) (isObserver c) (showResultDetails c) (lastState
    c) (tomatoClearTimeout c) (lastTomatoEventId c) (pendingTomatoEvent c)
    (activeTomatoTargetId c) (activeTomatoExpiresAt c) (activeTomatoShowAt c)
    (tomatoImpactTimeout c) (openTomatoMenu c) (gameActionToastTimeout c).

Definition set_nextTimer (v : nat) (c : Client) : Client :=
  Build_Client (localStorage c) (emitted c) (timers c) v (nextElem c) (dom c)
    (playerId c) (myName c) (isObserver c) (showResultDetails c) (lastState c)
    (tomatoClearTimeout c) (lastTomatoEventId c) (pendingTomatoEvent c)
    (activeTomatoTargetId c) (activeTomatoExpiresAt c) (activeTomatoShowAt c)
    (tomatoImpactTimeout c) (openTomatoMenu c) (gameActionToastTimeout c).

Definition set_nextElem (v : nat) (c : Client) : Client :=
  Build_Client (localStorage c) (emitted c) (timers c) (nextTimer c) v (dom c)
    (playerId c) (myName c) (isObserver c) (showResultDetails c) (lastState c)
    (tomatoClearTimeout c) (lastTomatoEventId c) (pendingTomatoEvent c)
    (activeTomatoTargetId c) (activeTomatoExpiresAt c) (activeTomatoShowAt c)
    (tomatoImpactTimeout c) (openTomatoMenu c) (gameActionToastTimeout c).

Definition set_dom (v : Dom) (c : Client) : Client :=
  Build_Client (localStorage c) (emitted c) (timers c) (nextTimer c) (nextElem
    c) v (playerId c) (myName c) (isObserver c) (showResultDetails c)
    (lastState c) (tomatoClearTimeout c) (lastTomatoEventId c)
    (pendingTomatoEvent c) (activeTomatoTargetId c) (activeTomatoExpiresAt c)
    (activeTomatoShowAt c) (tomatoImpactTimeout c) (openTomatoMenu c)
    (gameActionToastTimeout c).

Definition set_myName (v : string) (c : Client) : Client :=
  Build_Client (localStorage c) (emitted c) (timers c) (nextTimer c) (nextElem
    c) (dom c) (playerId c) v (isObserver c) (showResultDetails c) (lastState
    c) (tomatoClearTimeout c) (lastTomatoEventId c) (pendingTomatoEvent c)
    (activeTomatoTargetId c) (activeTomatoExpiresAt c) (activeTomatoShowAt c)
    (tomatoImpactTimeout c) (openTomatoMenu c) (gameActionToastTimeout c).

Definition set_isObserver (v : bool) (c : Client) : Client :=
  Build_Client (localStorage c) (emitted c) (timers c) (nextTimer c) (nextElem
    c) (dom c) (playerId c) (myName c) v (showResultDetails c) (lastState c)
    (tomatoClearTimeout c) (lastTomatoEventId c) (pendingTomatoEvent c)
    (activeTomatoTargetId c) (activeTomatoExpiresAt c) (activeTomatoShowAt c)
    (tomatoImpactTimeout c) (openTomatoMenu c) (gameActionToastTimeout c).

Definition set_showResultDetails (v : bool) (c : Client) : Client :=
  Build_Client (localStorage c) (emitted c) (timers c) (nextTimer c) (nextElem
    c) (dom c) (playerId c) (myName c) (isObserver c) v (lastState c)
    (tomatoClearTimeout c) (lastTomatoEventId c) (pendingTomatoEvent c)
    (activeTomatoTargetId c) (activeTomatoExpiresAt c) (activeTomatoShowAt c)
    (tomatoImpactTimeout c) (openTomatoMenu c) (gameActionToastTimeout c).

Definition set_lastState (v : option State.t) (c : Client) : Client :=
  Build_Client (localStorage c) (emitted c) (timers c) (nextTimer c) (nextElem
    c) (dom c) (playerId c) (myName c) (isObserver c) (showResultDetails c) v
    (tomatoClearTimeout c) (lastTomatoEventId c) (pendingTomatoEvent c)
    (activeTomatoTargetId c) (activeTomatoExpiresAt c) (activeTomatoShowAt c)
    (tomatoImpactTimeout c) (openTomatoMenu c) (gameActionToastTimeout c).

Definition set_tomatoClearTimeout (v : option nat) (c : Client) : Client :=
  Build_Client (localStorage c) (emitted c) (timers c) (nextTimer c) (nextElem
    c) (dom c) (playerId c) (myName c) (isObserver c) (showResultDetails c)
    (lastState c) v (lastTomatoEventId c) (pendingTomatoEvent c)
    (activeTomatoTargetId c) (activeTomatoExpiresAt c) (activeTomatoShowAt c)
    (tomatoImpactTimeout c) (openTomatoMenu c) (gameActionToastTimeout c).

Definition set_lastTomatoEventId (v : option string) (c : Client) : Client :=
  Build_Client (localStorage c) (emitted c) (timers c) (nextTimer c) (nextElem
    c) (dom c) (playerId c) (myName c) (isObserver c) (showResultDetails c)
    (lastState c) (tomatoClearTimeout c) v (pendingTomatoEvent c)
    (activeTomatoTargetId c) (activeTomatoExpiresAt c) (activeTomatoShowAt c)
    (tomatoImpactTimeout c) (openTomatoMenu c) (gameActionToastTimeout c).

Definition set_pendingTomatoEvent (v : option Tomato.t) (c : Client) : Client :=
  Build_Client (localStorage c) (emitted c) (timers c) (nextTimer c) (nextElem
    c) (dom c) (playerId c) (myName c) (isObserver c) (showResultDetails c)
    (lastState c) (tomatoClearTimeout c) (lastTomatoEventId c) v
    (activeTomatoTargetId c) (activeTomatoExpiresAt c) (activeTomatoShowAt c)
    (tomatoImpactTimeout c) (openTomatoMenu c) (gameActionToastTimeout c).

Definition set_activeTomatoTargetId (v : option string) (c : Client) : Client :=
  Build_Client (localStorage c) (emitted c) (timers c) (nextTimer c) (nextElem
    c) (dom c) (playerId c) (myName c) (isObserver c) (showResultDetails c)
    (lastState c) (tomatoClearTimeout c) (lastTomatoEventId c)
    (pendingTomatoEvent c) v (activeTomatoExpiresAt c) (activeTomatoShowAt c)
    (tomatoImpactTimeout c) (openTomatoMenu c) (gameActionToastTimeout c).

Definition set_activeTomatoExpiresAt (v : Q) (c : Client) : Client :=
  Build_Client (localStorage c) (emitted c) (timers c) (nextTimer c) (nextElem
    c) (dom c) (playerId c) (myName c) (isObserver c) (showResultDetails c)
    (lastState c) (tomatoClearTimeout c) (lastTomatoEventId c)
    (pendingTomatoEvent c) (activeTomatoTargetId c) v (activeTomatoShowAt c)
    (tomatoImpactTimeout c) (openTomatoMenu c) (gameActionToastTimeout c).

Definition set_activeTomatoShowAt (v : Z) (c : Client) : Client :=
  Build_Client (localStorage c) (emitted c) (timers c) (nextTimer c) (nextElem
    c) (dom c) (playerId c) (myName c) (isObserver c) (showResultDetails c)
    (lastState c) (tomatoClearTimeout c) (lastTomatoEventId c)
    (pendingTomatoEvent c) (activeTomatoTargetId c) (activeTomatoExpiresAt c)
    v (tomatoImpactTimeout c) (openTomatoMenu c) (gameActionToastTimeout c).

Definition set_tomatoImpactTimeout (v : option nat) (c : Client) : Client :=
  Build_Client (localStorage c) (emitted c) (timers c) (nextTimer c) (nextElem
    c) (dom c) (playerId c) (myName c) (isObserver c) (showResultDetails c)
    (lastState c) (tomatoClearTimeout c) (lastTomatoEventId c)
    (pendingTomatoEvent c) (activeTomatoTargetId c) (activeTomatoExpiresAt c)
    (activeTomatoShowAt c) v (openTomatoMenu c) (gameActionToastTimeout c).

Definition set_openTomatoMenu (v : option nat) (c : Client) : Client :=
  Build_Client (localStorage c) (emitted c) (timers c) (nextTimer c) (nextElem
    c) (dom c) (playerId c) (myName c) (isObserver c) (showResultDetails c)
    (lastState c) (tomatoClearTimeout c) (lastTomatoEventId c)
    (pendingTomatoEvent c) (activeTomatoTargetId c) (activeTomatoExpiresAt c)
    (activeTomatoShowAt c) (tomatoImpactTimeout c) v (gameActionToastTimeout
    c).

Definition set_gameActionToastTimeout (v : option nat) (c : Client) : Client :=
  Build_Client (localStorage c) (emitted c) (timers c) (nextTimer c) (nextElem
    c) (dom c) (playerId c) (myName c) (isObserver c) (showResultDetails c)
    (lastState c) (tomatoClearTimeout c) (lastTomatoEventId c)
    (pendingTomatoEvent c) (activeTomatoTargetId c) (activeTomatoExpiresAt c)
    (activeTomatoShowAt c) (tomatoImpactTimeout c) (openTomatoMenu c) v.

Definition over_dom (f : Dom -> Dom) (c : Client) : Client :=
  set_dom (f (dom c)) c.

(** ** Browser primitives *)

Definition socket_emit (e : Emit) (c : Client) : Client :=
  set_emitted (emitted c ++ [e])%list c.

Definition localStorage_getItem (k : string) (c : Client) : option string :=
  localStorage c !! k.

Definition localStorage_setItem (k v : string) (c : Client) : Client :=
  set_localStorage (<[k := v]> (localStorage c)) c.

(** [String(b)] for a boolean. *)
Definition String_of_bool (b : bool) : string := if b then "true" else "false".

(** [setTimeout(cb, delay)] at time [now]: the id it returns, and the client
    with the callback pending.  Ids are positive, hence truthy. *)
Definition setTimeout (cb : Callback) (delay now : Z) (c : Client) : nat * Client :=
  let id := nextTimer c in
  (id, set_nextTimer (S id)
         (set_timers (timers c ++ [{| timer_id := id; due := now + delay; callback := cb |}])%list c)).

Definition clearTimeout (id : nat) (c : Client) : Client :=
  set_timers (List.filter (fun t => negb (Nat.eqb (timer_id t) id)) (timers c)) c.

(** [if (t) clearTimeout(t)] *)
Definition clearTimeout_if (t : option nat) (c : Client) : Client :=
  match t with
  | Some id => clearTimeout id c
  | None => c
  end.

(** [String.prototype.toLowerCase], on ASCII letters. *)
Definition lower_ascii (a : ascii) : ascii :=
  let n := nat_of_ascii a in
  if ((65 <=? n)%nat && (n <=? 90)%nat) then ascii_of_nat (n + 32) else a.

Fixpoint toLowerCase (s : string) : string :=
  match s with
  | String a r => String (lower_ascii a) (toLowerCase r)
  | EmptyString => EmptyString
  end.

(** ** Constants and start-up *)

Definition TOMATO_LIFETIME_MS : Z := 3000.
Definition TOMATO_FLIGHT_MS : Z := 650.
Definition GAME_ACTION_TOAST_MS : Z := 3000.

(** The top-level statements of the script, run once per page load on the
    [localStorage] the browser kept, with [uuid] what [crypto.randomUUID()]
    would return and [page] the elements of the loaded document. *)
Definition startup (ls : gmap string string) (uuid : string) (page : Dom) : Client :=
  let stored := ls !! "player_id" in
  let fresh := negb (truthy stored) in
  let ls' := if fresh then <["player_id" := uuid]> ls else ls in
  {| localStorage := ls';
     emitted := [];
     timers := [];
     nextTimer := 1;
     nextElem := 0;
     dom := page;
     playerId := if fresh then uuid else default "" stored;
     myName := default "" (ls' !! "player_name");
     isObserver := bool_decide (ls' !! "observer_mode" = Some "true");
     showResultDetails := false;
     lastState := None;
     tomatoClearTimeout := None;
     lastTomatoEventId := None;
     pendingTomatoEvent := None;
     activeTomatoTargetId := None;
     activeTomatoExpiresAt := 0%Q;
     activeTomatoShowAt := 0;
     tomatoImpactTimeout := None;
     openTomatoMenu := None;
     gameActionToastTimeout := None |}.

(** ** Socket listeners and actions *)

Definition on_request_join (c : Client) : Client :=
  socket_emit (join_game (playerId c) (myName c) (isObserver c)) c.

(** The submit listener of [#chat-form]. *)
Definition chatForm_submit (c : Client) : Client :=
  let text := trim (chatInput (dom c)) in
  if String.eqb text "" then c
  else over_dom (set_chatInput "") (socket_emit (chat_message text) c).

Definition startGame (c : Client) : Client := socket_emit start_game c.

(** [ok] is the answer to [confirm]. *)
Definition restartGame (ok : bool) (c : Client) : Client :=
  if negb ok then c else socket_emit restart_game c.

Definition changeName (c : Client) : Client :=
  let newName := trim (nameInput (dom c)) in
  if negb (String.eqb newName "") then
    over_dom (set_nameInput "")
      (socket_emit (change_name newName)
         (localStorage_setItem "player_name" newName (set_myName newName c)))
  else c.

Definition setObserverMode (nextIsObserver : bool) (c : Client) : Client :=
  let c := set_isObserver nextIsObserver c in
  let c := localStorage_setItem "observer_mode" (String_of_bool nextIsObserver) c in
  socket_emit (join_game (playerId c) (myName c) nextIsObserver) c.

Definition toggleObserver (ok : bool) (c : Client) : Client :=
  if negb (isObserver c) then
    if negb ok then c else setObserverMode true c
  else setObserverMode false c.

Definition removePlayer (targetPlayerId : string) (ok : bool) (c : Client) : Client :=
  if negb ok then c else socket_emit (remove_player targetPlayerId) c.

Definition takeChip (value : Z) (source : string) (c : Client) : Client :=
  socket_emit (take_chip value source) c.

Definition returnChip (c : Client) : Client := socket_emit return_chip c.

Definition toggleSettle (c : Client) : Client := socket_emit toggle_settle c.

(** ** The tomato menu *)

Definition card_attached (elem : nat) (d : Dom) : bool :=
  existsb (fun pc => Nat.eqb (pc_elem pc) elem) (opponentsEl d).

(** [anchorEl] is the name button of the card [anchorEl]; the new menu is in
    the document exactly when that card is. *)
Definition toggleTomatoMenu (targetPlayerId targetName : string) (anchorEl : nat)
    (c : Client) : Client :=
  if String.eqb targetPlayerId "" then c
  else
    let c :=
      match tomatoMenu (dom c) with
      | Some _ => set_openTomatoMenu None (over_dom (set_tomatoMenu None) c)
      | None => c
      end in
    let menu := nextElem c in
    let c := set_nextElem (S menu) c in
    let c :=
      if card_attached anchorEl (dom c) then
        over_dom (set_tomatoMenu
          (Some {| tm_elem := menu; tm_anchor := anchorEl; tm_target := targetPlayerId |})) c
      else c in
    set_openTomatoMenu (Some menu) c.

(** [removeMenu] of the menu [m]. *)
Definition removeMenu (m : TomatoMenu) (c : Client) : Client :=
  let c :=
    match tomatoMenu (dom c) with
    | Some m' => if Nat.eqb (tm_elem m') (tm_elem m)
                 then over_dom (set_tomatoMenu None) c else c
    | None => c
    end in
  set_openTomatoMenu None c.

(** The click listener of the [.tomato-menu-btn] of the menu [m]. *)
Definition tomatoMenuBtn_click (m : TomatoMenu) (c : Client) : Client :=
  removeMenu m (socket_emit (throw_tomato (tm_target m)) c).

(** [closeOnOutsideClick] of the menu [m], for a click outside the menu and
    its anchor. *)
Definition closeOnOutsideClick (m : TomatoMenu) (c : Client) : Client :=
  match tomatoMenu (dom c) with
  | Some m' => if Nat.eqb (tm_elem m') (tm_elem m) then removeMenu m c else c
  | None => c
  end.

(** ** The thrown tomato *)

Definition ensureTomatoSplat (pa : PlayerArea) : PlayerArea :=
  {| pa_classes := pa_classes pa;
     pa_data_player_id := pa_data_player_id pa;
     pa_splat := true |}.

Definition card_remove_hit (pc : PlayerCard) : PlayerCard :=
  {| pc_elem := pc_elem pc;
     pc_classes := classList_remove "tomato-hit" (pc_classes pc);
     pc_data_player_id := pc_data_player_id pc;
     pc_name_btn := pc_name_btn pc;
     pc_status := pc_status pc;
     pc_kick := pc_kick pc;
     pc_hand := pc_hand pc;
     pc_chip := pc_chip pc;
     pc_history := pc_history pc |}.

Definition card_add_hit (pc : PlayerCard) : PlayerCard :=
  {| pc_elem := pc_elem pc;
     pc_classes := classList_add "tomato-hit" (pc_classes pc);
     pc_data_player_id := pc_data_player_id pc;
     pc_name_btn := pc_name_btn pc;
     pc_status := pc_status pc;
     pc_kick := pc_kick pc;
     pc_hand := pc_hand pc;
     pc_chip := pc_chip pc;
     pc_history := pc_history pc |}.

Definition area_set_classes (cls : classList) (pa : PlayerArea) : PlayerArea :=
  {| pa_classes := cls;
     pa_data_player_id := pa_data_player_id pa;
     pa_splat := pa_splat pa |}.

(** [document.querySelectorAll(".tomato-hit").forEach(el =>
    el.classList.remove("tomato-hit"))].  The class is only ever put on
    player cards and on the player area. *)
Definition clearTomatoHits (d : Dom) : Dom :=
  set_playerAreaEl
    (option_map (fun pa => area_set_classes (classList_remove "tomato-hit" (pa_classes pa)) pa)
       (playerAreaEl d))
    (set_opponentsEl (map card_remove_hit (opponentsEl d)) d).

(** [el.classList.add("tomato-hit")] on the element a reference denotes; a
    card that left the document is not part of the page any more. *)
Definition addTomatoHit (el : ElemRef) (d : Dom) : Dom :=
  match el with
  | RefCard e =>
      set_opponentsEl
        (map (fun pc => if Nat.eqb (pc_elem pc) e then card_add_hit pc else pc)
           (opponentsEl d)) d
  | RefPlayerArea =>
      set_playerAreaEl
        (option_map (fun pa => area_set_classes (classList_add "tomato-hit" (pa_classes pa)) pa)
           (playerAreaEl d)) d
  end.

(** [document.querySelector(`.player-card[data-player-id="${id}"]`)] *)
Definition queryPlayerCard (id : string) (d : Dom) : option ElemRef :=
  option_map (fun pc => RefCard (pc_elem pc))
    (find (fun pc => String.eqb (pc_data_player_id pc) id) (opponentsEl d)).

(** [me && me.player_id === id ? playerAreaEl : null] *)
Definition ownArea (id : option string) (me : option Player.t) (d : Dom) : option ElemRef :=
  match me with
  | Some me =>
      if same_id (Player.player_id me) id
      then option_map (fun _ => RefPlayerArea) (playerAreaEl d)
      else None
  | None => None
  end.

(** [targetCard || (me && me.player_id === targetId ? playerAreaEl : null)]
    with [targetCard] looked up without a guard. *)
Definition targetElement (targetId : string) (me : option Player.t) (d : Dom)
    : option ElemRef :=
  match queryPlayerCard targetId d with
  | Some el => Some el
  | None => ownArea (Some targetId) me d
  end.

(** The same with [id ? document.querySelector(...) : null] for the card. *)
Definition guardedElement (id : option string) (me : option Player.t) (d : Dom)
    : option ElemRef :=
  match (if truthy id then queryPlayerCard (default "" id) d else None) with
  | Some el => Some el
  | None => ownArea id me d
  end.

Definition set_tomato_toast (t : option Toast) (g : GameContainer) : GameContainer :=
  {| gc_flights := gc_flights g;
     gc_tomato_toast := t;
     gc_action_toast := gc_action_toast g |}.

Definition set_action_toast (t : option Toast) (g : GameContainer) : GameContainer :=
  {| gc_flights := gc_flights g;
     gc_tomato_toast := gc_tomato_toast g;
     gc_action_toast := t |}.

Definition set_flights (fs : list Flight) (g : GameContainer) : GameContainer :=
  {| gc_flights := fs;
     gc_tomato_toast := gc_tomato_toast g;
     gc_action_toast := gc_action_toast g |}.

(** [updateTomatoToast(text)]; a missing toast element is created first. *)
Definition updateTomatoToast (text : option string) (c : Client) : Client :=
  over_dom (fun d =>
    match gameContainer d with
    | None => d
    | Some g =>
        let toast :=
          if truthy text
          then {| toast_show := true; toast_text := default "" text |}
          else {| toast_show := false; toast_text := "" |} in
        set_gameContainer (Some (set_tomato_toast (Some toast) g)) d
    end) c.

(** What the timer of [scheduleTomatoClear] runs. *)
Definition tomatoClear_callback (c : Client) : Client :=
  let c := over_dom clearTomatoHits c in
  let c := over_dom (fun d =>
             set_gameContainer (option_map (set_flights []) (gameContainer d)) d) c in
  let c := set_activeTomatoTargetId None c in
  let c := set_activeTomatoExpiresAt 0%Q c in
  let c := set_activeTomatoShowAt 0 c in
  let c := clearTimeout_if (tomatoImpactTimeout c) c in
  updateTomatoToast None c.

Definition scheduleTomatoClear (now : Z) (c : Client) : Client :=
  let c := clearTimeout_if (tomatoClearTimeout c) c in
  let '(id, c) := setTimeout ClearCb TOMATO_LIFETIME_MS now c in
  set_tomatoClearTimeout (Some id) c.

(** What the timer of [scheduleTomatoImpact] runs. *)
Definition tomatoImpact_callback (targetId : string) (me : option Player.t)
    (c : Client) : Client :=
  over_dom (fun d =>
    match targetElement targetId me d with
    | Some el => addTomatoHit el d
    | None => d
    end) c.

Definition scheduleTomatoImpact (targetId : option string) (me : option Player.t)
    (delayMs now : Z) (c : Client) : Client :=
  if negb (truthy targetId) then c
  else
    let c := clearTimeout_if (tomatoImpactTimeout c) c in
    let '(id, c) := setTimeout (ImpactCb (default "" targetId) me) (Z.max 0 delayMs) now c in
    set_tomatoImpactTimeout (Some id) c.

Definition flight_attached (tomato : nat) (d : Dom) : bool :=
  match gameContainer d with
  | Some g => existsb (fun f => Nat.eqb (fl_elem f) tomato) (gc_flights g)
  | None => false
  end.

Definition remove_flight (tomato : nat) (d : Dom) : Dom :=
  set_gameContainer
    (option_map (fun g =>
       set_flights (List.filter (fun f => negb (Nat.eqb (fl_elem f) tomato)) (gc_flights g)) g)
       (gameContainer d)) d.

(** The [transitionend] listener [cleanup] of a flying tomato. *)
Definition flight_cleanup (tomato : nat) (targetEl : ElemRef) (c : Client) : Client :=
  over_dom (fun d => addTomatoHit targetEl (remove_flight tomato d)) c.

(** The fallback timer of a flying tomato. *)
Definition flight_fallback (tomato : nat) (targetEl : ElemRef) (c : Client) : Client :=
  if negb (flight_attached tomato (dom c)) then c
  else flight_cleanup tomato targetEl c.

(** [animateTomatoFlight(sourceEl, targetEl)]; the position and the transform
    of the flying element are styling and are left out. *)
Definition animateTomatoFlight (sourceEl targetEl : ElemRef) (now : Z) (c : Client)
    : Client :=
  match gameContainer (dom c) with
  | None => c
  | Some g =>
      let tomato := nextElem c in
      let c := set_nextElem (S tomato) c in
      let c := over_dom (set_gameContainer
                 (Some (set_flights
                    (gc_flights g ++ [{| fl_elem := tomato; fl_target := targetEl |}])%list g))) c in
      snd (setTimeout (FlightCb tomato targetEl) (TOMATO_FLIGHT_MS + 200) now c)
  end.

(** The two early exits of [applyTomatoEffect] for a missing or stale event. *)
Definition dropTomatoEffect (c : Client) : Client :=
  let c := over_dom clearTomatoHits c in
  let c := clearTimeout_if (tomatoImpactTimeout c) c in
  updateTomatoToast None c.

Definition splat_text (event : Tomato.t) : string :=
  "🍅 " +:+ Tomato.from_name event +:+ " splats " +:+ Tomato.to_name event +:+ "!".

(** [ageMs = now - event.at * 1000] *)
Definition ageMs (now : Z) (at_ : Q) : Q := (inject_Z now - at_ * 1000)%Q.

Definition applyTomatoEffect (event : option Tomato.t) (me : option Player.t)
    (now : Z) (c : Client) : Client :=
  match event with
  | None => dropTomatoEffect c
  | Some event =>
      match Tomato.at_ event with
      | None => dropTomatoEffect c
      | Some at_ =>
          if Qgtb (ageMs now at_) (inject_Z TOMATO_LIFETIME_MS) then dropTomatoEffect c
          else if truthy (Tomato.id event)
                  && bool_decide (Tomato.id event = lastTomatoEventId c) then c
          else
            let targetId := Tomato.to_id event in
            let targetEl := guardedElement targetId me (dom c) in
            let sourceEl := guardedElement (Tomato.from_id event) me (dom c) in
            let c := if truthy (Tomato.id event)
                     then set_lastTomatoEventId (Tomato.id event) c else c in
            let c :=
              if truthy targetId then
                set_activeTomatoShowAt (now + TOMATO_FLIGHT_MS)
                  (set_activeTomatoExpiresAt (at_ * 1000 + inject_Z TOMATO_LIFETIME_MS)%Q
                     (set_activeTomatoTargetId targetId c))
              else c in
            match sourceEl, targetEl with
            | Some sourceEl, Some targetEl =>
                let c := animateTomatoFlight sourceEl targetEl now c in
                let c := scheduleTomatoImpact targetId me TOMATO_FLIGHT_MS now c in
                let c := updateTomatoToast (Some (splat_text event)) c in
                scheduleTomatoClear now c
            | None, Some targetEl =>
                let c := over_dom (addTomatoHit targetEl) c in
                let c := updateTomatoToast (Some (splat_text event)) c in
                scheduleTomatoClear now c
            | _, None =>
                let c := updateTomatoToast (Some (splat_text event)) c in
                scheduleTomatoClear now c
            end
      end
  end.

Definition applyActiveTomatoTarget (me : option Player.t) (now : Z) (c : Client)
    : Client :=
  if negb (truthy (activeTomatoTargetId c))
     || Qgtb (inject_Z now) (activeTomatoExpiresAt c) then
    let c := over_dom clearTomatoHits c in
    let c := set_activeTomatoTargetId None c in
    let c := set_activeTomatoExpiresAt 0%Q c in
    let c := set_activeTomatoShowAt 0 c in
    clearTimeout_if (tomatoImpactTimeout c) c
  else if negb (activeTomatoShowAt c =? 0) && (now <? activeTomatoShowAt c) then
    scheduleTomatoImpact (activeTomatoTargetId c) me (activeTomatoShowAt c - now) now c
  else
    over_dom (fun d =>
      match targetElement (default "" (activeTomatoTargetId c)) me d with
      | Some el => addTomatoHit el d
      | None => d
      end) c.

(** The listener of the [tomato_event] socket event. *)
Definition on_tomato_event (event : Tomato.t) (now : Z) (c : Client) : Client :=
  match lastState c with
  | None => set_pendingTomatoEvent (Some event) c
  | Some st =>
      let me := State.me st in
      let c :=
        match me with
        | Some me' =>
            over_dom (fun d =>
              set_playerAreaEl
                (option_map (fun pa =>
                   ensureTomatoSplat
                     {| pa_classes := pa_classes pa;
                        pa_data_player_id := Some (Player.player_id me');
                        pa_splat := pa_splat pa |})
                   (playerAreaEl d)) d) c
        | None => c
        end in
      applyTomatoEffect (Some event) me now c
  end.

(** [showGameActionToast(text)] and the timer that hides the toast again. *)
Definition gameActionToast_callback (c : Client) : Client :=
  over_dom (fun d =>
    set_gameContainer
      (option_map (fun g =>
         set_action_toast
           (option_map (fun t => {| toast_show := false; toast_text := toast_text t |})
              (gc_action_toast g)) g)
         (gameContainer d)) d) c.

Definition showGameActionToast (text : string) (now : Z) (c : Client) : Client :=
  match gameContainer (dom c) with
  | None => c
  | Some g =>
      if String.eqb text "" then
        over_dom (set_gameContainer
          (Some (set_action_toast (Some {| toast_show := false; toast_text := "" |}) g))) c
      else
        let c := over_dom (set_gameContainer
                   (Some (set_action_toast (Some {| toast_show := true; toast_text := text |}) g))) c in
        let c := clearTimeout_if (gameActionToastTimeout c) c in
        let '(id, c) := setTimeout ToastCb GAME_ACTION_TOAST_MS now c in
        set_gameActionToastTimeout (Some id) c
  end.

(** ** Rendering *)

Definition createCardDiv (card : Card.t) : CardDiv :=
  {| cd_classes :=
       if String.eqb (Card.suit card) "♥" || String.eqb (Card.suit card) "♦"
       then classList_add "red-suit" ["card"] else ["card"];
     cd_innerText := Card.str card |}.

Definition smallCard (card : Card.t) : CardDiv :=
  let div := createCardDiv card in
  {| cd_classes := classList_add "small-card" (cd_classes div);
     cd_innerText := cd_innerText div |}.

Definition chipClass (chip_color : string) : classList :=
  ["chip"; "chip-" +:+ toLowerCase chip_color].

Definition miniChip (h : Chip.t) : MiniChip :=
  {| mc_className := ["mini-chip"; "chip-" +:+ toLowerCase (Chip.color h)];
     mc_innerText := show (Chip.value h) |}.

Definition resultRow (row : Row.t) : ResultRowHtml :=
  {| rr_name := Row.name row;
     rr_guess := "Guess #" +:+ show (Row.guess_rank row);
     rr_true := "True #" +:+ show (Row.true_rank row);
     rr_hand := Row.hand_class row;
     rr_statusClass := if Row.is_correct row then "ok" else "off";
     rr_statusLabel := if Row.is_correct row then "OK" else "OFF" |}.

Definition buildResultDetails (details : option (gmap string (list Row.t)))
    : DetailsHtml :=
  match details with
  | None => None
  | Some details =>
      Some (map (fun phase =>
                   let rows := default [] (details !! phase) in
                   {| rp_title := phase; rp_rows := map resultRow rows |})
              ["FLOP"; "TURN"; "RIVER"])
  end.

(** [` (${formatDuration(nowSec - at)})`] with [nowSec = Date.now() / 1000]. *)
Definition disc_text (now : Z) (at_ : Q) : string :=
  " (" +:+ formatDuration (inject_Z now / 1000 - at_)%Q +:+ ")".

Definition card_set_status (st : StatusLabel) (pc : PlayerCard) : PlayerCard :=
  {| pc_elem := pc_elem pc;
     pc_classes := pc_classes pc;
     pc_data_player_id := pc_data_player_id pc;
     pc_name_btn := pc_name_btn pc;
     pc_status := st;
     pc_kick := pc_kick pc;
     pc_hand := pc_hand pc;
     pc_chip := pc_chip pc;
     pc_history := pc_history pc |}.

Definition updateDisconnectedTimers (now : Z) (c : Client) : Client :=
  over_dom (fun d =>
    set_opponentsEl
      (map (fun pc =>
              match pc_status pc with
              | Disconnected at_ _ =>
                  if Qle_bool at_ 0 then pc
                  else card_set_status (Disconnected at_ (disc_text now at_)) pc
              | _ => pc
              end)
         (opponentsEl d)) d) c.

(** One opponent's card; [elem] is the identity of the new element. *)
Definition renderOpponent (chip_color : string) (now : Z) (elem : nat) (p : Player.t)
    : PlayerCard :=
  let isDisc := bool_decide (Player.is_connected p = Some false) in
  {| pc_elem := elem;
     pc_classes :=
       (["player-card"; if Player.is_settled p then "settled" else "thinking"]
          ++ (if isDisc then ["disconnected"] else []))%list;
     pc_data_player_id := Player.player_id p;
     pc_name_btn :=
       {| btn_className := ["p-name-btn"];
          btn_innerText := Player.name p;
          btn_onclick := OnToggleTomatoMenu (Player.player_id p) (Player.name p) elem |};
     pc_status :=
       if isDisc then
         let at_ := default 0%Q (Player.disconnected_at p) in
         Disconnected at_ (if Qeq_bool at_ 0 then "" else disc_text now at_)
       else if Player.is_settled p then Settled else Thinking;
     pc_kick :=
       if isDisc then
         Some {| btn_className := ["kick-btn"];
                 btn_innerText := "Remove";
                 btn_onclick := OnRemovePlayer (Player.player_id p) |}
       else None;
     pc_hand :=
       match Player.hand p with
       | Some (c :: cs) => Some (map smallCard (c :: cs))
       | _ => None
       end;
     pc_chip :=
       if truthyZ (Player.chip p) then
         Some {| btn_className := chipClass chip_color;
                 btn_innerText := "★ " +:+ show (default 0 (Player.chip p));
                 btn_onclick := OnTakeChip (default 0 (Player.chip p)) (Player.player_id p) |}
       else None;
     pc_history :=
       match Player.chip_history p with
       | Some (h :: hs) => Some (map miniChip (h :: hs))
       | _ => None
       end |}.

Fixpoint renderOpponents (chip_color : string) (now : Z) (elem : nat)
    (ps : list Player.t) : list PlayerCard :=
  match ps with
  | [] => []
  | p :: ps =>
      renderOpponent chip_color now elem p :: renderOpponents chip_color now (S elem) ps
  end.

(** The button the chip bank gets for the value [val]. *)
Definition chipButton (chip_color : string) (val : Z) : Button :=
  {| btn_className := chipClass chip_color;
     btn_innerText := "★ " +:+ show val;
     btn_onclick := OnTakeChip val "center" |}.

Definition resultButtons (showResultDetails : bool) : list Button :=
  [ {| btn_className := []; btn_innerText := "Next Heist"; btn_onclick := OnStartGame |};
    {| btn_className := []; btn_innerText := "Restart Game (Reset 0/0)";
       btn_onclick := OnRestartGame |};
    {| btn_className := [];
       btn_innerText := if showResultDetails then "Hide Detailed Rankings"
                        else "Show Detailed Rankings";
       btn_onclick := OnToggleResultDetails |} ].

(** What [renderGame] leaves in [#phase-display]. *)
Definition renderPhase (showResultDetails : bool) (state : State.t) : PhaseDisplay :=
  if String.eqb (State.phase state) "RESULT" then
    let msg := default "" (State.result_message state) in
    let successColor :=
      if includes "SUCCESS" msg || includes "WIN" msg then "#2ecc71" else "#e74c3c" in
    let detailsHtml :=
      if showResultDetails then buildResultDetails (State.result_details state) else None in
    PhaseResult successColor msg (resultButtons showResultDetails) detailsHtml
  else
    PhaseText
      (if String.eqb (State.phase state) "LOBBY" then "Waiting for Players..."
       else State.phase state +:+ " - " +:+ State.chip_color state +:+ " Chips").

Definition observerPill (isObserverView : bool) (me : Player.t) (o : Player.t)
    : classList * string :=
  let disconnected := bool_decide (Player.is_connected o = Some false) in
  let youTag :=
    if isObserverView && String.eqb (Player.player_id o) (Player.player_id me)
    then " (You)" else "" in
  let queueTag := if Player.queued_to_join o then " (QUEUING)" else "" in
  (("observer-pill" :: if disconnected then ["disconnected"] else []),
   Player.name o +:+ queueTag +:+ youTag).

Definition chatLine (msg : ChatMsg.t) : ChatLine :=
  {| cl_name := ChatMsg.name msg +:+ (if ChatMsg.is_observer msg then " (Observer)" else "");
     cl_text := ChatMsg.text msg |}.

(** The page [renderGame] builds from a snapshot for a joined viewer [me],
    before the tomato effects are put back on it. *)
Definition renderPage (state : State.t) (me : Player.t) (now : Z) (c : Client) : Dom :=
  let isObserverView := String.eqb (State.viewer_role state) "observer" in
  let chip_color := State.chip_color state in
  let players := State.players state in
  let myPlayerId := if isObserverView then None else Some (Player.player_id me) in
  let opponents :=
    List.filter (fun p =>
      negb (Player.is_observer p)
      && negb (truthy myPlayerId && same_id (Player.player_id p) myPlayerId)) players in
  let observerItems := List.filter Player.is_observer players in
  let d := dom c in
  let playing := negb isObserverView in
  {| bodyClasses := classList_toggle "observer-mode" isObserverView (bodyClasses d);
     phaseEl := renderPhase (showResultDetails c) state;
     vaultEl := show (State.vaults state);
     alarmEl := show (State.alarms state);
     myNameEl := Player.name me;
     commCardsEl := map createCardDiv (State.community_cards state);
     chipBankEl := map (chipButton chip_color) (State.chips_available state);
     chipBankClasses :=
       if isObserverView || Player.is_settled me
       then classList_add "disabled" (chipBankClasses d)
       else classList_remove "disabled" (chipBankClasses d);
     opponentsEl := renderOpponents chip_color now (nextElem c) opponents;
     tomatoMenu := None;
     observerListEl :=
       match observerItems with
       | [] => NoObservers
       | _ => Pills (map (observerPill isObserverView me) observerItems)
       end;
     observerStatusEl := if isObserverView then "You are observing" else "";
     observerBtn := if isObserverView then "Join Game" else "Observe";
     chatMessagesEl :=
       option_map (fun _ => map chatLine (default [] (State.chat_messages state)))
         (chatMessagesEl d);
     chatInput := chatInput d;
     nameInput := nameInput d;
     myCardsEl :=
       if playing then map createCardDiv (default [] (Player.hand me)) else [];
     myHistoryEl :=
       if playing then map miniChip (default [] (Player.chip_history me)) else [];
     myChipSlot :=
       if playing && truthyZ (Player.chip me) then
         SlotChip (chipClass chip_color) ("★ " +:+ show (default 0 (Player.chip me)))
       else if isObserverView then SlotPlaceholder "Observer"
       else SlotPlaceholder "Pick a chip";
     settleBtn :=
       {| sb_disabled := negb (playing && truthyZ (Player.chip me));
          sb_innerText :=
            if isObserverView then "I'm Settled"
            else if Player.is_settled me then "Cancel Settle" else "I'm Settled";
          sb_classes :=
            if playing && Player.is_settled me
            then classList_add "active" (sb_classes (settleBtn d))
            else classList_remove "active" (sb_classes (settleBtn d)) |};
     returnBtn :=
       if playing && truthyZ (Player.chip me) then Player.is_settled me else true;
     playerAreaEl :=
       option_map (fun pa =>
         {| pa_classes :=
              classList_toggle "playing-settled" (playing && Player.is_settled me)
                (pa_classes pa);
            pa_data_player_id := Some (Player.player_id me);
            pa_splat := true |})
         (playerAreaEl d);
     gameContainer := gameContainer d |}.

(** [if (isObserverView !== isObserver) { ... }] *)
Definition syncObserver (isObserverView : bool) (c : Client) : Client :=
  if negb (Bool.eqb isObserverView (isObserver c)) then
    localStorage_setItem "observer_mode" (String_of_bool isObserverView)
      (set_isObserver isObserverView c)
  else c.

(** [openTomatoMenu && !openTomatoMenu.isConnected] *)
Definition menu_detached (c : Client) : bool :=
  match openTomatoMenu c, tomatoMenu (dom c) with
  | Some m, Some m' => negb (Nat.eqb (tm_elem m') m)
  | Some _, None => true
  | None, _ => false
  end.

Definition renderGame (state : State.t) (now : Z) (c : Client) : Client :=
  let c := set_lastState (Some state) c in
  match State.me state with
  | None => c
  | Some me =>
      let c := if menu_detached c then set_openTomatoMenu None c else c in
      let isObserverView := String.eqb (State.viewer_role state) "observer" in
      let c := syncObserver isObserverView c in
      let created := length (opponentsEl (renderPage state me now c)) in
      let c := set_nextElem (nextElem c + created)%nat
                 (set_dom (renderPage state me now c) c) in
      let c := applyActiveTomatoTarget (Some me) now c in
      let c := applyTomatoEffect (State.tomato_event state) (Some me) now c in
      let c :=
        match pendingTomatoEvent c with
        | Some ev => set_pendingTomatoEvent None (applyTomatoEffect (Some ev) (Some me) now c)
        | None => c
        end in
      updateDisconnectedTimers now c
  end.

Definition toggleResultDetails (now : Z) (c : Client) : Client :=
  let c := set_showResultDetails (negb (showResultDetails c)) c in
  match lastState c with
  | Some st => renderGame st now c
  | None => c
  end.

(** ** The oldest version of the script (no identity, no observers)

    Only the header of its [renderGame] differs in what it decides; the
    actions [startGame], [takeChip], [returnChip] and [toggleSettle] are the
    ones above. *)
Module Legacy.

Definition resultButton (state : State.t) : Button :=
  {| btn_className := [];
     btn_innerText :=
       if (3 <=? State.vaults state) || (3 <=? State.alarms state)
       then "New Game" else "Next Heist";
     btn_onclick := OnStartGame |}.

(** What the old [renderGame] leaves in [#phase-display]; it reads
    [state.result_message] as a string. *)
Definition renderPhase (state : State.t) : PhaseDisplay :=
  if String.eqb (State.phase state) "RESULT" then
    let msg := default "" (State.result_message state) in
    PhaseResult
      (if includes "SUCCESS" msg || includes "WIN" msg then "#2ecc71" else "#e74c3c")
      msg [resultButton state] None
  else
    PhaseText
      (if String.eqb (State.phase state) "LOBBY" then "Waiting for Players..."
       else State.phase state +:+ " - " +:+ State.chip_color state +:+ " Chips").

End Legacy.

(** ** The event loop *)

(** A click on an element runs its handler; [ok] answers a [confirm]. *)
Definition run_handler (h : Handler) (ok : bool) (now : Z) (c : Client) : Client :=
  match h with
  | OnStartGame => startGame c
  | OnRestartGame => restartGame ok c
  | OnToggleResultDetails => toggleResultDetails now c
  | OnTakeChip value source => takeChip value source c
  | OnRemovePlayer targetPlayerId => removePlayer targetPlayerId ok c
  | OnToggleTomatoMenu targetPlayerId targetName anchorEl =>
      toggleTomatoMenu targetPlayerId targetName anchorEl c
  end.

Definition run_callback (cb : Callback) (c : Client) : Client :=
  match cb with
  | ImpactCb targetId me => tomatoImpact_callback targetId me c
  | FlightCb tomato targetEl => flight_fallback tomato targetEl c
  | ClearCb => tomatoClear_callback c
  | ToastCb => gameActionToast_callback c
  end.

(** The browser runs a pending timer once it is due. *)
Definition fire (id : nat) (now : Z) (c : Client) : Client :=
  match find (fun t => Nat.eqb (timer_id t) id) (timers c) with
  | Some t =>
      if due t <=? now then run_callback (callback t) (clearTimeout id c) else c
  | None => c
  end.

(** Everything that can happen to the page. *)
Inductive Input :=
| Request_join
| Game_update (state : State.t)
| Socket_error (msg : string)
| Game_action_error (message : string)
| Tomato_event (event : Tomato.t)
| Type_chat (value : string)
| Type_name (value : string)
| Submit_chat
| Click (h : Handler) (ok : bool)
| Click_changeName
| Click_toggleObserver (ok : bool)
| Click_returnChip
| Click_toggleSettle
| Click_tomatoMenuBtn
| Click_elsewhere
| Timer_due (id : nat)
| Transition_end (tomato : nat)
| Interval_tick.

Definition handle (i : Input) (now : Z) (c : Client) : Client :=
  match i with
  | Request_join => on_request_join c
  | Game_update state => renderGame state now c
  | Socket_error _ => c
  | Game_action_error message => showGameActionToast message now c
  | Tomato_event event => on_tomato_event event now c
  | Type_chat value => over_dom (set_chatInput value) c
  | Type_name value => over_dom (set_nameInput value) c
  | Submit_chat => chatForm_submit c
  | Click h ok => run_handler h ok now c
  | Click_changeName => changeName c
  | Click_toggleObserver ok => toggleObserver ok c
  | Click_returnChip => returnChip c
  | Click_toggleSettle => toggleSettle c
  | Click_tomatoMenuBtn =>
      match tomatoMenu (dom c) with
      | Some m => tomatoMenuBtn_click m c
      | None => c
      end
  | Click_elsewhere =>
      match tomatoMenu (dom c) with
      | Some m => closeOnOutsideClick m c
      | None => c
      end
  | Timer_due id => fire id now c
  | Transition_end tomato =>
      match gameContainer (dom c) with
      | Some g =>
          match find (fun f => Nat.eqb (fl_elem f) tomato) (gc_flights g) with
          | Some f => flight_cleanup tomato (fl_target f) c
          | None => c
          end
      | None => c
      end
  | Interval_tick => updateDisconnectedTimers now c
  end.

(** The client after a sequence of timed inputs. *)
Fixpoint run (trace : list (Z * Input)) (c : Client) : Client :=
  match trace with
  | [] => c
  | (now, i) :: trace => run trace (handle i now c)
  end.

(** The states a page load can reach. *)
Inductive reachable : Client -> Prop :=
| reach_startup ls uuid page : reachable (startup ls uuid page)
| reach_step c i now : reachable c -> reachable (handle i now c).

(** ** Observations used in the statements *)

(** The stored observer flag, read the way the script reads it. *)
Definition storedObserver (c : Client) : bool :=
  bool_decide (localStorage c !! "observer_mode" = Some "true").

(** The detailed rankings shown in [#phase-display], if any. *)
Definition shownDetails (d : Dom) : DetailsHtml :=
  match phaseEl d with
  | PhaseResult _ _ _ detailsHtml => detailsHtml
  | PhaseText _ => None
  end.

(** No element of the page carries the class [tomato-hit]. *)
Definition no_tomato_hit (d : Dom) : Prop :=
  Forall (fun pc => has_class "tomato-hit" (pc_classes pc) = false) (opponentsEl d)
  /\ (forall pa, playerAreaEl d = Some pa -> has_class "tomato-hit" (pa_classes pa) = false).

(** No [.tomato-flight] element is in the page. *)
Definition no_tomato_flight (d : Dom) : Prop :=
  forall g, gameContainer d = Some g -> gc_flights g = [].

(** The [join_game] payloads among what was sent. *)
Definition joined_ids (es : list Emit) : list string :=
  omap (fun e => match e with join_game pid _ _ => Some pid | _ => None end) es.

(** An example page and an example snapshot for the concrete checks. *)
Definition blank_page : Dom :=
  {| bodyClasses := [];
     phaseEl := PhaseText "";
     vaultEl := "0";
     alarmEl := "0";
     myNameEl := "";
     commCardsEl := [];
     chipBankEl := [];
     chipBankClasses := [];
     opponentsEl := [];
     tomatoMenu := None;
     observerListEl := NoObservers;
     observerStatusEl := "";
     observerBtn := "Observe";
     chatMessagesEl := Some [];
     chatInput := "";
     nameInput := "";
     myCardsEl := [];
     myHistoryEl := [];
     myChipSlot := SlotPlaceholder "Pick a chip";
     settleBtn := {| sb_disabled := true; sb_innerText := "I'm Settled"; sb_classes := [] |};
     returnBtn := true;
     playerAreaEl := Some {| pa_classes := []; pa_data_player_id := None; pa_splat := false |};
     gameContainer :=
       Some {| gc_flights := []; gc_tomato_toast := None; gc_action_toast := None |} |}.

Definition alice : Player.t :=
  Player.mk "p-alice" "Alice" false (Some true) false None None None None false.

Definition bob : Player.t :=
  Player.mk "p-bob" "Bob" false (Some true) false (Some 2) None None None false.

Definition sample_state : State.t :=
  {| State.me := Some alice;
     State.viewer_role := "player";
     State.phase := "RESULT";
     State.chip_color := "White";
     State.community_cards := [Card.mk "A♥" "♥"; Card.mk "K♠" "♠"];
     State.chips_available := [1; 3];
     State.players := [alice; bob];
     State.result_message := Some "HEIST SUCCESS";
     State.result_details := None;
     State.vaults := 3;
     State.alarms := 0;
     State.chat_messages := None;
     State.tomato_event := None |}.

(** What the tomato machinery and the timers never touch: the script's
    identity, flags and snapshot, and every region of the page other than the
    opponents row, the player area and the game container. *)
Definition core (c : Client) :=
  (localStorage c, emitted c, playerId c, myName c, isObserver c,
   showResultDetails c, lastState c).

Definition fixed (d : Dom) :=
  (bodyClasses d, phaseEl d, vaultEl d, alarmEl d, myNameEl d, commCardsEl d,
   chipBankEl d, chipBankClasses d, tomatoMenu d, observerListEl d,
   observerStatusEl d, observerBtn d, chatMessagesEl d, chatInput d,
   nameInput d, myCardsEl d, myHistoryEl d, myChipSlot d, settleBtn d,
   returnBtn d).

Definition frame (c c' : Client) : Prop :=
  core c' = core c /\ fixed (dom c') = fixed (dom c).

(** The client just before [renderGame] rebuilds the page for a joined
    viewer: snapshot recorded, stale menu forgotten, observer flag synced. *)
Definition beforePage (state : State.t) (c : Client) : Client :=
  let c := set_lastState (Some state) c in
  let c := if menu_detached c then set_openTomatoMenu None c else c in
  syncObserver (String.eqb (State.viewer_role state) "observer") c.


Definition lobby_state : State.t :=
  {| State.me := None;
     State.viewer_role := "observer";
     State.phase := "LOBBY";
     State.chip_color := "White";
     State.community_cards := [];
     State.chips_available := [1; 2];
     State.players := [bob];
     State.result_message := None;
     State.result_details := None;
     State.vaults := 0;
     State.alarms := 0;
     State.chat_messages := None;
     State.tomato_event := None |}.


(** A table with the tomato menu open on Bob and a chat text typed in. *)
Definition table_with_menu : Client :=
  toggleTomatoMenu "p-bob" "Bob" 0
    (over_dom (set_chatInput " gg ") (renderGame sample_state 1000 (startup ∅ "u-1" blank_page))).


(** ** Invariants of the reachable states *)

(** The in-memory id is the stored one, and every join sent it. *)
Definition identity_kept (c : Client) : Prop :=
  localStorage c !! "player_id" = Some (playerId c)
  /\ Forall (eq (playerId c)) (joined_ids (emitted c)).

(** The stored observer mode, read as the script reads it, is the flag. *)
Definition observer_synced (c : Client) : Prop :=
  storedObserver c = isObserver c.

(** The header shows the recorded snapshot of a joined viewer under the
    current details flag. *)
Definition header_rendered (c : Client) : Prop :=
  forall st me, lastState c = Some st -> State.me st = Some me ->
    phaseEl (dom c) = renderPhase (showResultDetails c) st.

Definition Inv (c : Client) : Prop :=
  identity_kept c /\ observer_synced c /\ header_rendered c.

(** What the invariants read. *)
Definition inv_view (c : Client) :=
  (localStorage c, emitted c, playerId c, isObserver c, showResultDetails c,
   lastState c, phaseEl (dom c)).

(** ** Snapshots that differ in the score only *)

Definition with_score (vaults alarms : Z) (st : State.t) : State.t :=
  {| State.me := State.me st;
     State.viewer_role := State.viewer_role st;
     State.phase := State.phase st;
     State.chip_color := State.chip_color st;
     State.community_cards := State.community_cards st;
     State.chips_available := State.chips_available st;
     State.players := State.players st;
     State.result_message := State.result_message st;
     State.result_details := State.result_details st;
     State.vaults := vaults;
     State.alarms := alarms;
     State.chat_messages := State.chat_messages st;
     State.tomato_event := State.tomato_event st |}.



(** ** Example clients *)


(** The table after the first RESULT snapshot, whose details are missing. *)
Definition result_table : Client :=
  renderGame sample_state 1000 (startup ∅ "u-1" blank_page).

(** A browser that kept an empty string under the identity key. *)
Definition empty_id_store : gmap string string := {["player_id" := ""]}.

(** A RESULT snapshot that carries detailed rankings. *)
Definition detailed_state : State.t :=
  {| State.me := Some alice;
     State.viewer_role := "player";
     State.phase := "RESULT";
     State.chip_color := "Red";
     State.community_cards := [];
     State.chips_available := [];
     State.players := [alice; bob];
     State.result_message := Some "ALARM";
     State.result_details :=
       Some {["FLOP" := [Row.mk "Alice" 1 2 "Pair" false; Row.mk "Bob" 2 1 "Flush" false]]};
     State.vaults := 0;
     State.alarms := 1;
     State.chat_messages := None;
     State.tomato_event := None |}.


(** ** The tomato effect, observed *)

(** Every pending timer got its id from [setTimeout]. *)
Definition timers_fresh (c : Client) : Prop :=
  Forall (fun t => (timer_id t < nextTimer c)%nat) (timers c).

(** Nothing of the tomato effect is left on the page or in the variables. *)
Definition tomato_cleared (c : Client) : Prop :=
  no_tomato_hit (dom c)
  /\ no_tomato_flight (dom c)
  /\ activeTomatoTargetId c = None
  /\ activeTomatoExpiresAt c = 0%Q
  /\ activeTomatoShowAt c = 0.

(** Bob throws at Alice, stamped at second 1. *)
Definition sample_tomato : Tomato.t :=
  Tomato.mk (Some "e1") (Some (1 # 1)) (Some "p-bob") (Some "p-alice") "Alice" "Bob".

(** A table where a card and the player area are already marked as hit. *)
Definition splattered_table : Client :=
  over_dom (addTomatoHit RefPlayerArea)
    (over_dom (addTomatoHit (RefCard 0))
       (renderGame sample_state 1000 (startup ∅ "u-1" blank_page))).

(** What carries the hit marks. *)
Definition hit_view (c : Client) := (opponentsEl (dom c), playerAreaEl (dom c)).

(** What the timer queue is made of. *)
Definition timer_view (c : Client) := (timers c, nextTimer c).

(** The timer queue and the three timer ids the script remembers. *)
Definition timer_state (c : Client) :=
  (timers c, nextTimer c, tomatoClearTimeout c, tomatoImpactTimeout c,
   gameActionToastTimeout c).

(** A remembered id was handed out by [setTimeout]. *)
Definition issued (t : option nat) (c : Client) : Prop :=
  forall id, t = Some id -> (id < nextTimer c)%nat.

(** The remembered ids are issued ones, and the id of the clear timer is not
    remembered for anything else. *)
Definition timers_sound (c : Client) : Prop :=
  timers_fresh c
  /\ issued (tomatoClearTimeout c) c
  /\ issued (tomatoImpactTimeout c) c
  /\ issued (gameActionToastTimeout c) c
  /\ (forall id, tomatoClearTimeout c = Some id ->
        tomatoImpactTimeout c <> Some id /\ gameActionToastTimeout c <> Some id).

(** The clear callback is pending under the remembered id, due at [d]. *)
Definition pending_clear (d : Z) (c : Client) : Prop :=
  exists id,
    tomatoClearTimeout c = Some id
    /\ find (fun t => Nat.eqb (timer_id t) id) (timers c)
       = Some {| timer_id := id; due := d; callback := ClearCb |}.

(** A sound timer queue, with the clear callback pending for [Some d]. *)
Definition armed (d : option Z) (c : Client) : Prop :=
  timers_sound c
  /\ match d with
     | Some d => pending_clear d c
     | None => True
     end.

(** The result table once Bob's tomato was applied at millisecond 1500. *)
Definition tomato_in_flight : Client :=
  applyTomatoEffect (Some sample_tomato) (Some alice) 1500 result_table.

(** ** Further observations *)

(** The inputs that are not the user asking for something: pushes from the
    server, typing, timers, animation ends and the clock. *)
Definition silent (i : Input) : bool :=
  match i with
  | Game_update _ | Socket_error _ | Game_action_error _ | Tomato_event _
  | Type_chat _ | Type_name _ | Click_elsewhere | Timer_due _
  | Transition_end _ | Interval_tick => true
  | Click (OnToggleResultDetails) _ | Click (OnToggleTomatoMenu _ _ _) _ => true
  | _ => false
  end.

(** A text the script may send: not empty and with nothing left to trim. *)
Definition trimmed (s : string) : Prop := s <> "" /\ trim s = s.

Definition sent_ok (e : Emit) : Prop :=
  match e with
  | chat_message text => trimmed text
  | change_name newName => trimmed newName
  | _ => True
  end.

(** The stored name is the one in memory. *)
Definition name_synced (c : Client) : Prop :=
  myName c = default "" (localStorage c !! "player_name").

(** Who gets a card in the opponents row of a viewer [me]: every player who is
    not an observer, except the viewer's own seat when the viewer plays and
    has a non-empty id. *)
Definition is_opponent (isObserverView : bool) (me p : Player.t) : bool :=
  negb (Player.is_observer p)
  && negb (negb isObserverView
           && negb (String.eqb (Player.player_id me) "")
           && String.eqb (Player.player_id p) (Player.player_id me)).

(** The viewer's own seat among the players. *)
Definition is_own_seat (isObserverView : bool) (me p : Player.t) : bool :=
  negb (Player.is_observer p)
  && (negb isObserverView
      && negb (String.eqb (Player.player_id me) "")
      && String.eqb (Player.player_id p) (Player.player_id me)).

Definition pill_count (l : ObserverList) : nat :=
  match l with
  | NoObservers => 0
  | Pills pills => length pills
  end.

(** Carol lost her connection at second 10; Dave watches. *)
Definition carol : Player.t :=
  Player.mk "p-carol" "Carol" false (Some false) true (Some 0) None None (Some (10 # 1)) false.

Definition dave : Player.t :=
  Player.mk "p-dave" "Dave" true None false None None None None true.

Definition busy_state : State.t :=
  {| State.me := Some alice;
     State.viewer_role := "player";
     State.phase := "FLOP";
     State.chip_color := "White";
     State.community_cards := [Card.mk "A♥" "♥"];
     State.chips_available := [1];
     State.players := [alice; bob; carol; dave];
     State.result_message := None;
     State.result_details := None;
     State.vaults := 0;
     State.alarms := 0;
     State.chat_messages :=
       Some [ChatMsg.mk "Bob" "hi" false; ChatMsg.mk "Dave" "gl" true];
     State.tomato_event := None |}.

(** The table of [busy_state] at second 70. *)
Definition busy_table : Client :=
  renderGame busy_state 70000 (startup ∅ "u-1" blank_page).

(** A lobby seen from Dave's observer seat. *)
Definition lobby_watch : State.t :=
  {| State.me := Some dave;
     State.viewer_role := "observer";
     State.phase := "LOBBY";
     State.chip_color := "White";
     State.community_cards := [];
     State.chips_available := [];
     State.players := [alice; dave];
     State.result_message := None;
     State.result_details := None;
     State.vaults := 0;
     State.alarms := 0;
     State.chat_messages := None;
     State.tomato_event := None |}.

(** What an input makes the client send, read off the handlers. *)
Definition outgoing (i : Input) (c : Client) : list Emit :=
  match i with
  | Request_join => [join_game (playerId c) (myName c) (isObserver c)]
  | Submit_chat =>
      if String.eqb (trim (chatInput (dom c))) "" then []
      else [chat_message (trim (chatInput (dom c)))]
  | Click OnStartGame _ => [start_game]
  | Click OnRestartGame ok => if ok then [restart_game] else []
  | Click (OnTakeChip value source) _ => [take_chip value source]
  | Click (OnRemovePlayer target) ok => if ok then [remove_player target] else []
  | Click_changeName =>
      if String.eqb (trim (nameInput (dom c))) "" then []
      else [change_name (trim (nameInput (dom c)))]
  | Click_toggleObserver ok =>
      if isObserver c then [join_game (playerId c) (myName c) false]
      else if ok then [join_game (playerId c) (myName c) true] else []
  | Click_returnChip => [return_chip]
  | Click_toggleSettle => [toggle_settle]
  | Click_tomatoMenuBtn =>
      match tomatoMenu (dom c) with
      | Some m => [throw_tomato (tm_target m)]
      | None => []
      end
  | _ => []
  end.

(** Typing a name, sending it, and moving to an observer seat. *)
Definition rename_trace : list (Z * Input) :=
  [(0, Type_name "  Zoe "); (1, Click_changeName); (2, Click_toggleObserver true);
   (3, Type_chat " hello  "); (4, Submit_chat)].

(** A string that does not start with white space. *)
Definition no_leading_space (s : string) : Prop :=
  match s with
  | String a _ => isWhiteSpace a = false
  | EmptyString => True
  end.

(** A string that does not end with white space. *)
Fixpoint no_trailing_space (s : string) : Prop :=
  match s with
  | String a EmptyString => isWhiteSpace a = false
  | String _ r => no_trailing_space r
  | EmptyString => True
  end.

(** ** The oldest version of the script, in full

    Players are keyed by their socket id, there are no observers, no chat
    and no stored identity, and [renderGame] has no guard for a viewer who
    has not joined: reading [state.me.name] then throws, and so does reading
    [state.me.hand.length] when the viewer's hand is missing.  A rendering
    therefore ends either with the page rebuilt or with the page as the
    exception left it. *)
Module Oldest.

Module Seat.
Record t := mk {
  sid : string;
  name : string;
  is_settled : bool;
  chip : option Z;
  chip_history : option (list Chip.t);
  hand : option (list Card.t) }.
End Seat.

Module Snapshot.
Record t := mk {
  phase : string;
  chip_color : string;
  vaults : Z;
  alarms : Z;
  me : option Seat.t;
  result_message : string;
  community_cards : list Card.t;
  chips_available : list Z;
  players : list Seat.t }.
End Snapshot.

Record OpponentCard := {
  oc_classes : classList;
  oc_name : string;
  oc_status : string;
  oc_hand : option (list CardDiv);
  oc_chip : option Button;
  oc_history : option (list MiniChip) }.

Record Page := {
  phaseEl : PhaseDisplay;
  vaultEl : string;
  alarmEl : string;
  myNameEl : string;
  commCardsEl : list CardDiv;
  chipBankEl : list Button;
  chipBankClasses : classList;
  opponentsEl : list OpponentCard;
  myCardsEl : list CardDiv;
  myHistoryEl : list MiniChip;
  myChipSlot : ChipSlot;
  settleBtn : SettleBtn;
  returnBtn : bool;
  nameInput : string }.

Inductive Outcome :=
| Rendered (page : Page)
| Threw (page : Page).

Definition page_of (o : Outcome) : Page :=
  match o with
  | Rendered page => page
  | Threw page => page
  end.

Definition statusText (state : Snapshot.t) : string :=
  if String.eqb (Snapshot.phase state) "LOBBY" then "Waiting for Players..."
  else Snapshot.phase state +:+ " - " +:+ Snapshot.chip_color state +:+ " Chips".

Definition resultHeader (state : Snapshot.t) : PhaseDisplay :=
  PhaseResult
    (if includes "SUCCESS" (Snapshot.result_message state)
        || includes "WIN" (Snapshot.result_message state)
     then "#2ecc71" else "#e74c3c")
    (Snapshot.result_message state)
    [{| btn_className := [];
        btn_innerText :=
          if (3 <=? Snapshot.vaults state) || (3 <=? Snapshot.alarms state)
          then "New Game" else "Next Heist";
        btn_onclick := OnStartGame |}]
    None.

Definition renderOpponent (chip_color : string) (p : Seat.t) : OpponentCard :=
  {| oc_classes := ["player-card"; if Seat.is_settled p then "settled" else "thinking"];
     oc_name := Seat.name p;
     oc_status := if Seat.is_settled p then "✔ SETTLED" else "...";
     oc_hand :=
       match Seat.hand p with
       | Some (c :: cs) => Some (map smallCard (c :: cs))
       | _ => None
       end;
     oc_chip :=
       if truthyZ (Seat.chip p) then
         Some {| btn_className := chipClass chip_color;
                 btn_innerText := "★ " +:+ show (default 0 (Seat.chip p));
                 btn_onclick := OnTakeChip (default 0 (Seat.chip p)) (Seat.sid p) |}
       else None;
     oc_history :=
       match Seat.chip_history p with
       | Some (h :: hs) => Some (map miniChip (h :: hs))
       | _ => None
       end |}.

Definition renderGame (state : Snapshot.t) (page : Page) : Outcome :=
  (* 1. status and score *)
  let page1 :=
    {| phaseEl := PhaseText (statusText state);
       vaultEl := show (Snapshot.vaults state);
       alarmEl := show (Snapshot.alarms state);
       myNameEl := myNameEl page;
       commCardsEl := commCardsEl page;
       chipBankEl := chipBankEl page;
       chipBankClasses := chipBankClasses page;
       opponentsEl := opponentsEl page;
       myCardsEl := myCardsEl page;
       myHistoryEl := myHistoryEl page;
       myChipSlot := myChipSlot page;
       settleBtn := settleBtn page;
       returnBtn := returnBtn page;
       nameInput := nameInput page |} in
  match Snapshot.me state with
  | None => Threw page1
  | Some me =>
      let color := Snapshot.chip_color state in
      (* 2. to 4. header, community cards, chip bank, opponents; my cards cleared *)
      let page2 :=
        {| phaseEl :=
             if String.eqb (Snapshot.phase state) "RESULT" then resultHeader state
             else PhaseText (statusText state);
           vaultEl := show (Snapshot.vaults state);
           alarmEl := show (Snapshot.alarms state);
           myNameEl := Seat.name me;
           commCardsEl := map createCardDiv (Snapshot.community_cards state);
           chipBankEl := map (chipButton color) (Snapshot.chips_available state);
           chipBankClasses := chipBankClasses page;
           opponentsEl :=
             map (renderOpponent color)
               (List.filter (fun p => negb (String.eqb (Seat.sid p) (Seat.sid me)))
                  (Snapshot.players state));
           myCardsEl := [];
           myHistoryEl := myHistoryEl page;
           myChipSlot := myChipSlot page;
           settleBtn := settleBtn page;
           returnBtn := returnBtn page;
           nameInput := nameInput page |} in
      match Seat.hand me with
      | None => Threw page2
      | Some hand =>
          (* 5. my state *)
          Rendered
            {| phaseEl := phaseEl page2;
               vaultEl := vaultEl page2;
               alarmEl := alarmEl page2;
               myNameEl := myNameEl page2;
               commCardsEl := commCardsEl page2;
               chipBankEl := chipBankEl page2;
               chipBankClasses :=
                 if Seat.is_settled me
                 then classList_add "disabled" (chipBankClasses page)
                 else classList_remove "disabled" (chipBankClasses page);
               opponentsEl := opponentsEl page2;
               myCardsEl := map createCardDiv hand;
               myHistoryEl := map miniChip (default [] (Seat.chip_history me));
               myChipSlot :=
                 if truthyZ (Seat.chip me) then
                   SlotChip (chipClass color) ("★ " +:+ show (default 0 (Seat.chip me)))
                 else SlotPlaceholder "Pick a chip";
               settleBtn :=
                 {| sb_disabled := negb (truthyZ (Seat.chip me));
                    sb_innerText :=
                      if Seat.is_settled me then "Cancel Settle" else "I'm Settled";
                    sb_classes :=
                      if Seat.is_settled me
                      then classList_add "active" (sb_classes (settleBtn page))
                      else classList_remove "active" (sb_classes (settleBtn page)) |};
               returnBtn := if truthyZ (Seat.chip me) then Seat.is_settled me else true;
               nameInput := nameInput page |}
      end
  end.

(** [changeName] of the oldest version, on the socket log and the page. *)
Definition changeName (log : list Emit) (page : Page) : list Emit * Page :=
  let newName := nameInput page in
  if negb (String.eqb newName "") then
    ((log ++ [change_name newName])%list,
     {| phaseEl := phaseEl page;
        vaultEl := vaultEl page;
        alarmEl := alarmEl page;
        myNameEl := myNameEl page;
        commCardsEl := commCardsEl page;
        chipBankEl := chipBankEl page;
        chipBankClasses := chipBankClasses page;
        opponentsEl := opponentsEl page;
        myCardsEl := myCardsEl page;
        myHistoryEl := myHistoryEl page;
        myChipSlot := myChipSlot page;
        settleBtn := settleBtn page;
        returnBtn := returnBtn page;
        nameInput := "" |})
  else (log, page).

(** The user types [v] into the name input. *)
Definition type_name (v : string) (page : Page) : Page :=
  {| phaseEl := phaseEl page;
     vaultEl := vaultEl page;
     alarmEl := alarmEl page;
     myNameEl := myNameEl page;
     commCardsEl := commCardsEl page;
     chipBankEl := chipBankEl page;
     chipBankClasses := chipBankClasses page;
     opponentsEl := opponentsEl page;
     myCardsEl := myCardsEl page;
     myHistoryEl := myHistoryEl page;
     myChipSlot := myChipSlot page;
     settleBtn := settleBtn page;
     returnBtn := returnBtn page;
     nameInput := v |}.

(** An empty page and a table of two, seen by the given viewer. *)
Definition blank : Page :=
  {| phaseEl := PhaseText "";
     vaultEl := "0";
     alarmEl := "0";
     myNameEl := "";
     commCardsEl := [];
     chipBankEl := [];
     chipBankClasses := [];
     opponentsEl := [];
     myCardsEl := [];
     myHistoryEl := [];
     myChipSlot := SlotPlaceholder "Pick a chip";
     settleBtn := {| sb_disabled := true; sb_innerText := "I'm Settled"; sb_classes := [] |};
     returnBtn := true;
     nameInput := "" |}.

Definition ann : Seat.t := Seat.mk "s-ann" "Ann" false (Some 0) None (Some [Card.mk "Q♦" "♦"]).
Definition ben : Seat.t := Seat.mk "s-ben" "Ben" true (Some 3) None None.

Definition table (me : option Seat.t) : Snapshot.t :=
  {| Snapshot.phase := "RESULT";
     Snapshot.chip_color := "Red";
     Snapshot.vaults := 1;
     Snapshot.alarms := 3;
     Snapshot.me := me;
     Snapshot.result_message := "ALARM";
     Snapshot.community_cards := [Card.mk "A♥" "♥"];
     Snapshot.chips_available := [1; 2];
     Snapshot.players := [ann; ben] |}.

End Oldest.

(** * Proofs *)

(** ** Frame lemmas: what the tomato machinery leaves alone *)

Create HintDb frame.

Lemma frame_refl c : frame c c.
Proof. split; reflexivity. Qed.

Lemma frame_trans c1 c2 c3 : frame c1 c2 -> frame c2 c3 -> frame c1 c3.
Proof. intros [H1 H2] [H3 H4]. split; congruence. Qed.

Ltac frame_by_computation :=
  intros [Hc Hd]; split; [rewrite <- Hc | rewrite <- Hd];
  cbv beta delta [over_dom] ; cbn;
  repeat (case_match; cbn); reflexivity.

Lemma frame_set_timers v c0 c : frame c0 c -> frame c0 (set_timers v c).
Proof. frame_by_computation. Qed.

Lemma frame_set_nextTimer v c0 c : frame c0 c -> frame c0 (set_nextTimer v c).
Proof. frame_by_computation. Qed.

Lemma frame_set_nextElem v c0 c : frame c0 c -> frame c0 (set_nextElem v c).
Proof. frame_by_computation. Qed.

Lemma frame_set_tomatoClearTimeout v c0 c :
  frame c0 c -> frame c0 (set_tomatoClearTimeout v c).
Proof. frame_by_computation. Qed.

Lemma frame_set_lastTomatoEventId v c0 c :
  frame c0 c -> frame c0 (set_lastTomatoEventId v c).
Proof. frame_by_computation. Qed.

Lemma frame_set_pendingTomatoEvent v c0 c :
  frame c0 c -> frame c0 (set_pendingTomatoEvent v c).
Proof. frame_by_computation. Qed.

Lemma frame_set_activeTomatoTargetId v c0 c :
  frame c0 c -> frame c0 (set_activeTomatoTargetId v c).
Proof. frame_by_computation. Qed.

Lemma frame_set_activeTomatoExpiresAt v c0 c :
  frame c0 c -> frame c0 (set_activeTomatoExpiresAt v c).
Proof. frame_by_computation. Qed.

Lemma frame_set_activeTomatoShowAt v c0 c :
  frame c0 c -> frame c0 (set_activeTomatoShowAt v c).
Proof. frame_by_computation. Qed.

Lemma frame_set_tomatoImpactTimeout v c0 c :
  frame c0 c -> frame c0 (set_tomatoImpactTimeout v c).
Proof. frame_by_computation. Qed.

Lemma frame_set_gameActionToastTimeout v c0 c :
  frame c0 c -> frame c0 (set_gameActionToastTimeout v c).
Proof. frame_by_computation. Qed.

Lemma frame_set_openTomatoMenu v c0 c :
  frame c0 c -> frame c0 (set_openTomatoMenu v c).
Proof. frame_by_computation. Qed.

Lemma frame_set_opponentsEl v c0 c :
  frame c0 c -> frame c0 (over_dom (set_opponentsEl v) c).
Proof. frame_by_computation. Qed.

Lemma frame_set_playerAreaEl v c0 c :
  frame c0 c -> frame c0 (over_dom (set_playerAreaEl v) c).
Proof. frame_by_computation. Qed.

Lemma frame_set_gameContainer v c0 c :
  frame c0 c -> frame c0 (over_dom (set_gameContainer v) c).
Proof. frame_by_computation. Qed.

Lemma frame_clearTomatoHits c0 c : frame c0 c -> frame c0 (over_dom clearTomatoHits c).
Proof. frame_by_computation. Qed.

Lemma frame_addTomatoHit el c0 c : frame c0 c -> frame c0 (over_dom (addTomatoHit el) c).
Proof. unfold addTomatoHit. frame_by_computation. Qed.

Lemma frame_clearTimeout id c0 c : frame c0 c -> frame c0 (clearTimeout id c).
Proof. frame_by_computation. Qed.

Lemma frame_clearTimeout_if t c0 c : frame c0 c -> frame c0 (clearTimeout_if t c).
Proof. unfold clearTimeout_if. frame_by_computation. Qed.

Lemma frame_setTimeout cb delay now c0 c :
  frame c0 c -> frame c0 (snd (setTimeout cb delay now c)).
Proof. frame_by_computation. Qed.

Lemma frame_updateTomatoToast text c0 c :
  frame c0 c -> frame c0 (updateTomatoToast text c).
Proof. unfold updateTomatoToast. frame_by_computation. Qed.

#[export] Hint Resolve frame_refl frame_set_timers frame_set_nextTimer
  frame_set_nextElem frame_set_tomatoClearTimeout frame_set_lastTomatoEventId
  frame_set_pendingTomatoEvent frame_set_activeTomatoTargetId
  frame_set_activeTomatoExpiresAt frame_set_activeTomatoShowAt
  frame_set_tomatoImpactTimeout frame_set_gameActionToastTimeout
  frame_set_openTomatoMenu frame_set_opponentsEl frame_set_playerAreaEl
  frame_set_gameContainer frame_clearTomatoHits frame_addTomatoHit
  frame_clearTimeout frame_clearTimeout_if frame_setTimeout
  frame_updateTomatoToast : frame.

Ltac frame_auto := repeat (case_match; try done); auto 20 with frame.

Lemma frame_tomatoClear_callback c0 c :
  frame c0 c -> frame c0 (tomatoClear_callback c).
Proof. intros H. unfold tomatoClear_callback. cbv zeta. frame_auto. Qed.

Lemma frame_scheduleTomatoClear now c0 c :
  frame c0 c -> frame c0 (scheduleTomatoClear now c).
Proof.
  intros H. unfold scheduleTomatoClear. cbv zeta.
  rewrite (surjective_pairing (setTimeout _ _ _ _)). cbn [fst snd].
  frame_auto.
Qed.

Lemma frame_tomatoImpact_callback targetId me c0 c :
  frame c0 c -> frame c0 (tomatoImpact_callback targetId me c).
Proof.
  intros H. unfold tomatoImpact_callback.
  destruct (targetElement targetId me (dom c)) as [el |] eqn:E.
  - replace (over_dom _ c) with (over_dom (addTomatoHit el) c);
      [auto with frame | unfold over_dom; rewrite E; reflexivity].
  - replace (over_dom _ c) with c; [exact H |].
    unfold over_dom. rewrite E. destruct c; reflexivity.
Qed.

Lemma frame_scheduleTomatoImpact targetId me delayMs now c0 c :
  frame c0 c -> frame c0 (scheduleTomatoImpact targetId me delayMs now c).
Proof.
  intros H. unfold scheduleTomatoImpact. cbv zeta.
  rewrite (surjective_pairing (setTimeout _ _ _ _)). cbn [fst snd].
  frame_auto.
Qed.

Lemma frame_remove_flight tomato c0 c :
  frame c0 c -> frame c0 (over_dom (remove_flight tomato) c).
Proof. unfold remove_flight. frame_by_computation. Qed.

Lemma over_dom_compose f g c : over_dom (fun d => f (g d)) c = over_dom f (over_dom g c).
Proof. destruct c; reflexivity. Qed.

Lemma frame_flight_cleanup tomato targetEl c0 c :
  frame c0 c -> frame c0 (flight_cleanup tomato targetEl c).
Proof.
  intros H. unfold flight_cleanup. rewrite over_dom_compose.
  apply frame_addTomatoHit, frame_remove_flight, H.
Qed.

Lemma frame_flight_fallback tomato targetEl c0 c :
  frame c0 c -> frame c0 (flight_fallback tomato targetEl c).
Proof.
  intros H. unfold flight_fallback.
  case_match; [exact H | apply frame_flight_cleanup, H].
Qed.

Lemma frame_animateTomatoFlight sourceEl targetEl now c0 c :
  frame c0 c -> frame c0 (animateTomatoFlight sourceEl targetEl now c).
Proof. intros H. unfold animateTomatoFlight. cbv zeta. frame_auto. Qed.

Lemma frame_dropTomatoEffect c0 c : frame c0 c -> frame c0 (dropTomatoEffect c).
Proof. intros H. unfold dropTomatoEffect. cbv zeta. frame_auto. Qed.

#[export] Hint Resolve frame_tomatoClear_callback frame_scheduleTomatoClear
  frame_tomatoImpact_callback frame_scheduleTomatoImpact frame_flight_cleanup
  frame_flight_fallback frame_animateTomatoFlight frame_dropTomatoEffect : frame.

Lemma frame_applyTomatoEffect event me now c0 c :
  frame c0 c -> frame c0 (applyTomatoEffect event me now c).
Proof. intros H. unfold applyTomatoEffect. cbv zeta. frame_auto. Qed.

Lemma frame_applyActiveTomatoTarget me now c0 c :
  frame c0 c -> frame c0 (applyActiveTomatoTarget me now c).
Proof.
  intros H. unfold applyActiveTomatoTarget. cbv zeta.
  destruct (_ || _); [auto 20 with frame |].
  destruct (_ && _); [auto with frame |].
  apply (frame_tomatoImpact_callback _ me), H.
Qed.

Lemma frame_updateDisconnectedTimers now c0 c :
  frame c0 c -> frame c0 (updateDisconnectedTimers now c).
Proof. unfold updateDisconnectedTimers. frame_by_computation. Qed.

Lemma frame_gameActionToast_callback c0 c :
  frame c0 c -> frame c0 (gameActionToast_callback c).
Proof. unfold gameActionToast_callback. frame_by_computation. Qed.

Lemma frame_showGameActionToast text now c0 c :
  frame c0 c -> frame c0 (showGameActionToast text now c).
Proof.
  intros H. unfold showGameActionToast. cbv zeta.
  destruct (gameContainer (dom c)) as [g |]; [| exact H].
  destruct (String.eqb text ""); [auto with frame |].
  rewrite (surjective_pairing (setTimeout _ _ _ _)). cbn [fst snd].
  auto 20 with frame.
Qed.

#[export] Hint Resolve frame_applyTomatoEffect frame_applyActiveTomatoTarget
  frame_updateDisconnectedTimers frame_gameActionToast_callback
  frame_showGameActionToast : frame.

(** ** renderGame *)

Lemma renderGame_joined state me now c :
  State.me state = Some me ->
  frame (set_dom (renderPage state me now (beforePage state c)) (beforePage state c))
        (renderGame state now c).
Proof.
  intros Hme. unfold renderGame, beforePage. rewrite Hme. cbv zeta.
  apply frame_updateDisconnectedTimers.
  match goal with
  | |- frame _ (match pendingTomatoEvent ?x with _ => _ end) =>
      destruct (pendingTomatoEvent x)
  end; auto 20 with frame.
Qed.

Lemma isObserver_syncObserver v c : isObserver (syncObserver v c) = v.
Proof.
  unfold syncObserver. destruct v, (isObserver c) eqn:E; cbn; auto.
Qed.

Lemma showResultDetails_beforePage state c :
  showResultDetails (beforePage state c) = showResultDetails c.
Proof.
  unfold beforePage, syncObserver. cbv zeta.
  repeat (case_match; cbn); reflexivity.
Qed.

Lemma core_of_frame c c' : frame c c' ->
  localStorage c' = localStorage c /\ emitted c' = emitted c /\
  playerId c' = playerId c /\ myName c' = myName c /\
  isObserver c' = isObserver c /\ showResultDetails c' = showResultDetails c /\
  lastState c' = lastState c.
Proof. intros [H _]. unfold core in H. repeat split; congruence. Qed.

Lemma page_of_frame c c' : frame c c' ->
  phaseEl (dom c') = phaseEl (dom c) /\
  commCardsEl (dom c') = commCardsEl (dom c) /\
  chipBankEl (dom c') = chipBankEl (dom c) /\
  chatInput (dom c') = chatInput (dom c) /\
  tomatoMenu (dom c') = tomatoMenu (dom c).
Proof. intros [_ H]. unfold fixed in H. repeat split; congruence. Qed.

Lemma Forall2_map_r {A B} (P : A -> B -> Prop) (f : A -> B) (l : list A) :
  (forall x, P x (f x)) -> Forall2 P l (map f l).
Proof. intros H. induction l; cbn; constructor; auto. Qed.

Lemma renderGame_not_joined state now c :
  State.me state = None -> renderGame state now c = set_lastState (Some state) c.
Proof. intros Hme. unfold renderGame. rewrite Hme. reflexivity. Qed.

(** ** Invariants *)

Lemma Inv_view c c' : inv_view c' = inv_view c -> Inv c -> Inv c'.
Proof.
  unfold inv_view. intros H. injection H as Hls Hem Hid Hob Hsh Hst Hph.
  unfold Inv, identity_kept, observer_synced, header_rendered, storedObserver.
  rewrite Hls, Hem, Hid, Hob, Hsh, Hst, Hph. auto.
Qed.

Lemma Inv_frame c c' : frame c c' -> Inv c -> Inv c'.
Proof.
  intros [Hc Hd]. apply Inv_view. unfold core, fixed in *. unfold inv_view.
  congruence.
Qed.

Lemma Inv_emit e c :
  (forall pid n o, e = join_game pid n o -> pid = playerId c) ->
  Inv c -> Inv (socket_emit e c).
Proof.
  intros He ([Hid Hj] & Ho & Hh). split; [split |]; auto.
  cbn. unfold joined_ids in *. rewrite omap_app. apply Forall_app. split; [exact Hj |].
  destruct e; cbn; constructor; try constructor.
  symmetry. eapply He. reflexivity.
Qed.

Lemma Inv_startup ls uuid page : Inv (startup ls uuid page).
Proof.
  unfold Inv, identity_kept, observer_synced, header_rendered, storedObserver, startup.
  cbn. repeat split; try constructor; try discriminate.
  destruct (ls !! "player_id") as [s |] eqn:E; cbn.
  - destruct (String.eqb_spec s ""); cbn.
    + apply lookup_insert_eq.
    + exact E.
  - apply lookup_insert_eq.
Qed.

Lemma identity_beforePage state c : identity_kept c -> identity_kept (beforePage state c).
Proof.
  unfold identity_kept, beforePage, syncObserver, localStorage_setItem. cbv zeta.
  intros [H1 H2].
  repeat (case_match; cbn); split; auto; rewrite lookup_insert_ne; auto; discriminate.
Qed.

Lemma observer_beforePage state c :
  observer_synced c -> observer_synced (beforePage state c).
Proof.
  unfold observer_synced, storedObserver, beforePage, syncObserver, localStorage_setItem.
  cbv zeta. intros H.
  destruct (String.eqb (State.viewer_role state) "observer"), (isObserver c) eqn:E;
    repeat (case_match; cbn in *); rewrite ?E in *; cbn in *;
    rewrite ?lookup_insert_eq; auto; try congruence.
Qed.

Lemma renderGame_Inv state now c :
  identity_kept c -> observer_synced c -> Inv (renderGame state now c).
Proof.
  intros Hid Hob. destruct (State.me state) as [me |] eqn:Hme.
  - eapply Inv_frame; [apply (renderGame_joined state me now c Hme) |].
    pose proof (identity_beforePage state c Hid) as Hid'.
    pose proof (observer_beforePage state c Hob) as Hob'.
    split; [exact Hid' | split; [exact Hob' |]].
    unfold header_rendered. cbn. intros st me' Hst _.
    assert (lastState (beforePage state c) = Some state) as Hl.
    { unfold beforePage, syncObserver. cbv zeta. repeat (case_match; cbn); reflexivity. }
    congruence.
  - rewrite (renderGame_not_joined state now c Hme).
    split; [exact Hid | split; [exact Hob |]].
    unfold header_rendered. cbn. intros st me' [= <-] Hme'. congruence.
Qed.

Lemma toggleResultDetails_Inv now c : Inv c -> Inv (toggleResultDetails now c).
Proof.
  intros (Hid & Hob & Hh). unfold toggleResultDetails. cbv zeta. cbn.
  destruct (lastState c) as [st |] eqn:Hl.
  - apply renderGame_Inv; assumption.
  - split; [exact Hid | split; [exact Hob |]].
    unfold header_rendered. cbn. rewrite Hl. discriminate.
Qed.

Lemma setObserverMode_Inv b c : Inv c -> Inv (setObserverMode b c).
Proof.
  intros ([Hid Hj] & Hob & Hh). unfold setObserverMode. cbv zeta.
  apply Inv_emit; [cbn; congruence |].
  unfold Inv, identity_kept, observer_synced, header_rendered, storedObserver. cbn.
  rewrite lookup_insert_ne by discriminate. rewrite lookup_insert_eq.
  repeat split; auto. destruct b; reflexivity.
Qed.

Lemma changeName_Inv c : Inv c -> Inv (changeName c).
Proof.
  intros H. unfold changeName. cbv zeta. case_match; [| exact H].
  eapply Inv_view with (c := socket_emit (change_name (trim (nameInput (dom c))))
                               (localStorage_setItem "player_name" (trim (nameInput (dom c)))
                                  (set_myName (trim (nameInput (dom c))) c)));
    [reflexivity |].
  apply Inv_emit; [discriminate |].
  destruct H as ([Hid Hj] & Hob & Hh).
  unfold Inv, identity_kept, observer_synced, header_rendered, storedObserver. cbn.
  rewrite !lookup_insert_ne by discriminate. auto.
Qed.

Lemma toggleTomatoMenu_view t n a c :
  inv_view (toggleTomatoMenu t n a c) = inv_view c.
Proof.
  unfold toggleTomatoMenu. cbv zeta. repeat (case_match; cbn); reflexivity.
Qed.

Lemma handle_Inv i now c : Inv c -> Inv (handle i now c).
Proof.
  intros H. destruct i; cbn [handle].
  - apply Inv_emit; [cbn; congruence | exact H].
  - destruct H as (Hid & Hob & _). apply renderGame_Inv; assumption.
  - exact H.
  - eapply Inv_frame; [| exact H]. auto with frame.
  - eapply Inv_frame; [| exact H]. unfold on_tomato_event.
    destruct (lastState c) as [st |]; [| auto with frame].
    destruct (State.me st); [| auto with frame].
    apply frame_applyTomatoEffect.
    apply (frame_set_playerAreaEl (option_map _ (playerAreaEl (dom c)))), frame_refl.
  - eapply Inv_view; [| exact H]. reflexivity.
  - eapply Inv_view; [| exact H]. reflexivity.
  - unfold chatForm_submit. cbv zeta. case_match; [exact H |].
    eapply Inv_view with (c := socket_emit _ c); [reflexivity |].
    apply Inv_emit; [discriminate | exact H].
  - destruct h; cbn [run_handler].
    + apply Inv_emit; [discriminate | exact H].
    + unfold restartGame. case_match; [exact H |]. apply Inv_emit; [discriminate | exact H].
    + apply toggleResultDetails_Inv, H.
    + apply Inv_emit; [discriminate | exact H].
    + unfold removePlayer. case_match; [exact H |]. apply Inv_emit; [discriminate | exact H].
    + eapply Inv_view; [apply toggleTomatoMenu_view | exact H].
  - apply changeName_Inv, H.
  - unfold toggleObserver. repeat case_match; try exact H; apply setObserverMode_Inv, H.
  - apply Inv_emit; [discriminate | exact H].
  - apply Inv_emit; [discriminate | exact H].
  - destruct (tomatoMenu (dom c)) as [m |] eqn:Em; [| exact H].
    unfold tomatoMenuBtn_click.
    eapply Inv_view with (c := socket_emit (throw_tomato (tm_target m)) c).
    + unfold removeMenu. cbn. rewrite Em. repeat (case_match; cbn); reflexivity.
    + apply Inv_emit; [discriminate | exact H].
  - destruct (tomatoMenu (dom c)) as [m |] eqn:Em; [| exact H].
    eapply Inv_view; [| exact H].
    unfold closeOnOutsideClick, removeMenu. rewrite Em.
    repeat (case_match; cbn); reflexivity.
  - unfold fire. repeat case_match; try exact H.
    eapply Inv_frame; [| exact H].
    destruct (callback _); cbn [run_callback]; auto with frame.
  - repeat case_match; try exact H.
    eapply Inv_frame; [| exact H]. auto with frame.
  - eapply Inv_frame; [| exact H]. auto with frame.
Qed.

Lemma reachable_Inv c : reachable c -> Inv c.
Proof.
  induction 1 as [ls uuid page | c i now _ IH].
  - apply Inv_startup.
  - apply handle_Inv, IH.
Qed.
Lemma Qfloor_clamp (x : Q) : Qfloor (Qmax 0 x) = Z.max 0 (Qfloor x).
Proof.
  destruct (Qlt_le_dec x 0) as [Hneg | Hpos].
  - rewrite (Qfloor_comp _ 0%Q).
    + assert (Qfloor x <= -1).
      { assert (Hlt : (Qfloor x < 0)%Z); [| lia].
        apply Z.nle_gt. intros Hge.
        assert (H0 : (0 <= x)%Q).
        { eapply Qle_trans; [| apply Qfloor_le].
          change 0%Q with (inject_Z 0). rewrite <- Zle_Qle. exact Hge. }
        apply (Qlt_irrefl x). eapply Qlt_le_trans; eauto. }
      change (Qfloor 0) with 0. lia.
    + apply Q.max_l. apply Qlt_le_weak. exact Hneg.
  - rewrite (Qfloor_comp _ x).
    + assert (0 <= Qfloor x); [| lia].
      change 0 with (Qfloor (inject_Z 0)). apply Qfloor_resp_le. exact Hpos.
    + apply Q.max_r. exact Hpos.
Qed.

(** C10: formatDuration is total (it is a Rocq function) and clamps at zero:
    on every rational input it returns what the prose says, with
    t = floor(max(0, totalSeconds)), and every negative input yields "0s". *)
Theorem formatDuration_clamps :
  (forall x : Q, formatDuration x = formatDuration_spec x) /\
  (forall x : Q, (x < 0)%Q -> formatDuration x = "0s").
Proof.
  assert (Hspec : forall x : Q, formatDuration x = formatDuration_spec x).
  { intros x. unfold formatDuration, formatDuration_spec.
    rewrite Qfloor_clamp.
    set (t := Z.max 0 (Qfloor x)).
    assert (Ht : 0 <= t) by (subst t; lia).
    destruct (Z.leb_spec 3600 t) as [Hh | Hh].
    - assert (0 < t / 3600) by (apply Z.div_str_pos; lia).
      destruct (Z.ltb_spec 0 (t / 3600)); [reflexivity | lia].
    - rewrite (Z.div_small t 3600) by lia. rewrite (Z.mod_small t 3600) by lia.
      simpl (0 <? 0).
      destruct (Z.leb_spec 60 t) as [Hm | Hm].
      + assert (0 < t / 60) by (apply Z.div_str_pos; lia).
        destruct (Z.ltb_spec 0 (t / 60)); [reflexivity | lia].
      + rewrite (Z.div_small t 60) by lia. reflexivity. }
  split; [exact Hspec |].
  intros x Hx. rewrite Hspec. unfold formatDuration_spec.
  rewrite (Qfloor_comp _ 0%Q); [reflexivity |].
  apply Q.max_l. apply Qlt_le_weak. exact Hx.
Qed.

Lemma formatDuration_clamps_witness :
  formatDuration (3725 # 1) = "1h 2m" /\
  formatDuration (125 # 2) = "1m 2s" /\
  formatDuration (-7 # 2) = "0s".
Proof.
  split; [| split].
  - rewrite (proj1 formatDuration_clamps). reflexivity.
  - rewrite (proj1 formatDuration_clamps). reflexivity.
  - apply (proj2 formatDuration_clamps (-7 # 2)%Q). reflexivity.
Defined.

(** ** Not joined yet *)

(** C8: for a snapshot whose [me] is missing, renderGame records the snapshot
    in lastState and does nothing else: the page, the stored observer mode,
    the isObserver flag and everything else are as before. *)
Theorem renderGame_without_me (state : State.t) (now : Z) (c : Client) :
  State.me state = None ->
  renderGame state now c = set_lastState (Some state) c
  /\ lastState (renderGame state now c) = Some state
  /\ dom (renderGame state now c) = dom c
  /\ localStorage (renderGame state now c) = localStorage c
  /\ isObserver (renderGame state now c) = isObserver c
  /\ emitted (renderGame state now c) = emitted c
  /\ timers (renderGame state now c) = timers c.
Proof.
  intros Hme. rewrite (renderGame_not_joined state now c Hme).
  repeat split; reflexivity.
Qed.

Lemma renderGame_without_me_witness :
  dom (renderGame lobby_state 5 (startup ∅ "u-1" blank_page)) = blank_page
  /\ isObserver (renderGame lobby_state 5 (startup ∅ "u-1" blank_page)) = false.
Proof.
  destruct (renderGame_without_me lobby_state 5 (startup ∅ "u-1" blank_page) eq_refl)
    as (_ & _ & Hd & _ & Ho & _).
  split; [exact Hd | exact Ho].
Defined.

(** ** Chat *)



(** ** User intents *)




(** ** Snapshots *)

(** C3: every snapshot received on game_update goes through renderGame; for a
    joined viewer the chip bank then holds exactly one button per available
    chip value, in order, labelled with the value and taking that chip from
    the centre when clicked, and the community area holds one card element
    per community card, in order. *)
Theorem game_update_rebuilds_table (state : State.t) (me : Player.t) (now : Z)
    (c : Client) :
  State.me state = Some me ->
  handle (Game_update state) now c = renderGame state now c
  /\ Forall2
       (fun val btn =>
          btn_innerText btn = "★ " +:+ show val
          /\ forall ok now' c',
               emitted (run_handler (btn_onclick btn) ok now' c')
                 = (emitted c' ++ [take_chip val "center"])%list)
       (State.chips_available state)
       (chipBankEl (dom (renderGame state now c)))
  /\ Forall2 (fun card div => div = createCardDiv card)
       (State.community_cards state)
       (commCardsEl (dom (renderGame state now c))).
Proof.
  intros Hme. split; [reflexivity |].
  destruct (page_of_frame _ _ (renderGame_joined state me now c Hme))
    as (_ & Hcards & Hbank & _).
  rewrite Hcards, Hbank. cbn. split.
  - apply Forall2_map_r. intros val. split; reflexivity.
  - apply Forall2_map_r. reflexivity.
Qed.

Lemma game_update_rebuilds_table_witness :
  map btn_innerText
    (chipBankEl (dom (handle (Game_update sample_state) 7 (startup ∅ "u-1" blank_page))))
    = ["★ 1"; "★ 3"]
  /\ length (commCardsEl (dom (renderGame sample_state 7 (startup ∅ "u-1" blank_page)))) = 2%nat.
Proof.
  destruct (game_update_rebuilds_table sample_state alice 7 (startup ∅ "u-1" blank_page) eq_refl)
    as (Hh & Hb & Hc).
  split.
  - rewrite Hh. vm_compute. reflexivity.
  - apply Forall2_length in Hc. rewrite <- Hc. reflexivity.
Defined.

(** ** Identity *)

Lemma handle_playerId i now c : playerId (handle i now c) = playerId c.
Proof.
  assert (Hf : forall c', frame c c' -> playerId c' = playerId c).
  { intros c' Hc'. apply core_of_frame in Hc'. tauto. }
  assert (Hr : forall st now' c0, playerId (renderGame st now' c0) = playerId c0).
  { intros st now' c0. destruct (State.me st) as [me |] eqn:Hme.
    - destruct (core_of_frame _ _ (renderGame_joined st me now' c0 Hme))
        as (_ & _ & -> & _).
      unfold beforePage, syncObserver. cbv zeta. repeat (case_match; cbn); reflexivity.
    - rewrite (renderGame_not_joined st now' c0 Hme). reflexivity. }
  destruct i; cbn [handle]; try reflexivity; try apply Hr;
    try (apply Hf; auto with frame; fail).
  - apply Hf. unfold on_tomato_event.
    destruct (lastState c) as [st |]; [| auto with frame].
    destruct (State.me st); [| auto with frame].
    apply frame_applyTomatoEffect.
    apply (frame_set_playerAreaEl (option_map _ (playerAreaEl (dom c)))), frame_refl.
  - unfold chatForm_submit. cbv zeta. case_match; reflexivity.
  - destruct h; cbn [run_handler]; try reflexivity.
    + unfold restartGame. case_match; reflexivity.
    + unfold toggleResultDetails. cbv zeta. case_match; [rewrite Hr |]; reflexivity.
    + unfold removePlayer. case_match; reflexivity.
    + unfold toggleTomatoMenu. cbv zeta. repeat (case_match; cbn); reflexivity.
  - unfold changeName. cbv zeta. case_match; reflexivity.
  - unfold toggleObserver. repeat case_match; reflexivity.
  - unfold tomatoMenuBtn_click, removeMenu. repeat (case_match; cbn); reflexivity.
  - unfold closeOnOutsideClick, removeMenu. repeat (case_match; cbn); reflexivity.
  - unfold fire. repeat case_match; try reflexivity.
    transitivity (playerId (clearTimeout id c)); [| reflexivity].
    match goal with |- playerId (run_callback ?cb ?x) = _ =>
      assert (Hx : frame x (run_callback cb x))
        by (destruct cb; cbn [run_callback]; auto with frame);
      apply core_of_frame in Hx; tauto
    end.
  - repeat case_match; reflexivity.
Qed.

Lemma run_playerId trace c : playerId (run trace c) = playerId c.
Proof.
  revert c. induction trace as [| [now i] trace IH]; intros c; cbn; [reflexivity |].
  rewrite IH. apply handle_playerId.
Qed.

Lemma run_reachable trace c : reachable c -> reachable (run trace c).
Proof.
  revert c. induction trace as [| [now i] trace IH]; intros c Hc; cbn; [exact Hc |].
  apply IH. constructor. exact Hc.
Qed.

(** The claim C4 as written fails when the browser kept the empty string
    under "player_id": that entry is there before start-up and is replaced. *)
Lemma startup_replaces_empty_id :
  empty_id_store !! "player_id" = Some ""
  /\ localStorage (startup empty_id_store "u-1" blank_page) !! "player_id" = Some "u-1".
Proof. split; reflexivity. Qed.

(** C4 (amended): at start-up a missing or empty "player_id" entry is
    replaced by a fresh UUID and a non-empty one is kept; either way the
    in-memory playerId is the stored one, it stays so, and every join_game
    sent afterwards carries exactly it. *)
Theorem identity_cached (ls : gmap string string) (uuid : string) (page : Dom) :
  (ls !! "player_id" = None \/ ls !! "player_id" = Some "" ->
     localStorage (startup ls uuid page) !! "player_id" = Some uuid)
  /\ (forall id, ls !! "player_id" = Some id -> id <> "" ->
        localStorage (startup ls uuid page) !! "player_id" = Some id)
  /\ localStorage (startup ls uuid page) !! "player_id"
       = Some (playerId (startup ls uuid page))
  /\ (forall trace,
        playerId (run trace (startup ls uuid page)) = playerId (startup ls uuid page)
        /\ localStorage (run trace (startup ls uuid page)) !! "player_id"
             = Some (playerId (startup ls uuid page))
        /\ Forall (eq (playerId (startup ls uuid page)))
             (joined_ids (emitted (run trace (startup ls uuid page))))).
Proof.
  repeat apply conj.
  - intros [H | H]; unfold startup; cbn; rewrite H; cbn; apply lookup_insert_eq.
  - intros id H Hne. unfold startup. cbn. rewrite H. cbn.
    destruct (String.eqb_spec id ""); [contradiction | exact H].
  - apply (Inv_startup ls uuid page).
  - intros trace.
    pose proof (reachable_Inv _ (run_reachable trace _ (reach_startup ls uuid page)))
      as ([Hid Hj] & _).
    rewrite run_playerId in Hid, Hj. rewrite run_playerId. auto.
Qed.

Lemma identity_cached_witness :
  localStorage (startup {["player_id" := "u-0"]} "u-1" blank_page) !! "player_id" = Some "u-0"
  /\ localStorage (startup ∅ "u-1" blank_page) !! "player_id" = Some "u-1"
  /\ joined_ids (emitted (run [(0, Request_join); (5, Click_toggleObserver true)]
                            (startup ∅ "u-1" blank_page))) = ["u-1"; "u-1"].
Proof.
  split; [| split].
  - apply (proj1 (proj2 (identity_cached {["player_id" := "u-0"]} "u-1" blank_page)) "u-0").
    + reflexivity.
    + discriminate.
  - apply (proj1 (identity_cached ∅ "u-1" blank_page)). left. reflexivity.
  - reflexivity.
Defined.

(** ** Observer mode *)




(** ** The result-detail toggle *)

Lemma phaseEl_renderGame state me now c :
  State.me state = Some me ->
  phaseEl (dom (renderGame state now c)) = renderPhase (showResultDetails c) state.
Proof.
  intros Hme.
  destruct (page_of_frame _ _ (renderGame_joined state me now c Hme)) as (-> & _).
  cbn. rewrite showResultDetails_beforePage. reflexivity.
Qed.

Lemma showResultDetails_renderGame state now c :
  showResultDetails (renderGame state now c) = showResultDetails c.
Proof.
  destruct (State.me state) as [me |] eqn:Hme.
  - destruct (core_of_frame _ _ (renderGame_joined state me now c Hme))
      as (_ & _ & _ & _ & _ & -> & _).
    cbn. apply showResultDetails_beforePage.
  - rewrite (renderGame_not_joined state now c Hme). reflexivity.
Qed.

Lemma lastState_renderGame state now c :
  lastState (renderGame state now c) = Some state.
Proof.
  destruct (State.me state) as [me |] eqn:Hme.
  - destruct (core_of_frame _ _ (renderGame_joined state me now c Hme))
      as (_ & _ & _ & _ & _ & _ & ->).
    unfold beforePage, syncObserver. cbv zeta. repeat (case_match; cbn); reflexivity.
  - rewrite (renderGame_not_joined state now c Hme). reflexivity.
Qed.

Lemma showResultDetails_toggle now c :
  showResultDetails (toggleResultDetails now c) = negb (showResultDetails c).
Proof.
  unfold toggleResultDetails. cbv zeta. cbn [lastState set_showResultDetails].
  destruct (lastState c); [rewrite showResultDetails_renderGame |]; reflexivity.
Qed.

Lemma lastState_toggle now c : lastState (toggleResultDetails now c) = lastState c.
Proof.
  unfold toggleResultDetails. cbv zeta. cbn [lastState set_showResultDetails].
  destruct (lastState c) eqn:E; [apply lastState_renderGame | exact E].
Qed.

Lemma phaseEl_toggle now c :
  phaseEl (dom (toggleResultDetails now c))
  = match lastState c with
    | Some st =>
        match State.me st with
        | Some _ => renderPhase (negb (showResultDetails c)) st
        | None => phaseEl (dom c)
        end
    | None => phaseEl (dom c)
    end.
Proof.
  unfold toggleResultDetails. cbv zeta. cbn [lastState set_showResultDetails].
  destruct (lastState c) as [st |]; [| reflexivity].
  destruct (State.me st) as [me |] eqn:Hme.
  - rewrite (phaseEl_renderGame st me now _ Hme). reflexivity.
  - rewrite (renderGame_not_joined st now _ Hme). reflexivity.
Qed.

(** The claim C7 as written fails on a RESULT snapshot that carries no
    details: the flag is on and no detailed rankings are shown. *)
Lemma details_flag_without_details :
  lastState result_table = Some sample_state
  /\ State.phase sample_state = "RESULT"
  /\ showResultDetails (toggleResultDetails 2000 result_table) = true
  /\ shownDetails (dom (toggleResultDetails 2000 result_table)) = None.
Proof. repeat split; vm_compute; reflexivity. Qed.

(** C7 (amended): toggleResultDetails flips showResultDetails and, when the
    recorded snapshot has a joined viewer, re-renders the header from it; in
    the RESULT phase the detailed rankings are then shown iff the flag is on
    and the snapshot carries result details; toggling twice restores the
    flag, and restores the header of every page rendered from its snapshot,
    which every reachable page is. *)
Theorem result_details_toggle (now : Z) (c : Client) :
  showResultDetails (toggleResultDetails now c) = negb (showResultDetails c)
  /\ (forall st me,
        lastState c = Some st -> State.me st = Some me ->
        phaseEl (dom (toggleResultDetails now c))
          = renderPhase (showResultDetails (toggleResultDetails now c)) st
        /\ (State.phase st = "RESULT" ->
            (shownDetails (dom (toggleResultDetails now c)) <> None
             <-> showResultDetails (toggleResultDetails now c) = true
                 /\ State.result_details st <> None)))
  /\ (forall now',
        showResultDetails (toggleResultDetails now' (toggleResultDetails now c))
          = showResultDetails c
        /\ (header_rendered c ->
            phaseEl (dom (toggleResultDetails now' (toggleResultDetails now c)))
              = phaseEl (dom c)))
  /\ (reachable c -> header_rendered c).
Proof.
  repeat apply conj.
  - apply showResultDetails_toggle.
  - intros st me Hl Hme. unfold shownDetails.
    rewrite showResultDetails_toggle, phaseEl_toggle, Hl, Hme.
    split; [reflexivity |]. intros Hph.
    unfold renderPhase. rewrite Hph. cbn.
    destruct (negb (showResultDetails c)); cbn.
    + destruct (State.result_details st); cbn; split;
        try (intros [_ H]; congruence); try congruence.
      intros _. split; [reflexivity | discriminate].
    + split; [congruence | intros [H _]; discriminate].
  - intros now'. rewrite !showResultDetails_toggle, negb_involutive.
    split; [reflexivity |]. intros Hh.
    rewrite phaseEl_toggle, lastState_toggle, showResultDetails_toggle, negb_involutive.
    rewrite phaseEl_toggle.
    destruct (lastState c) as [st |] eqn:Hl; [| reflexivity].
    destruct (State.me st) as [me |] eqn:Hme; [| reflexivity].
    symmetry. apply (Hh st me Hl Hme).
  - intros Hc. apply (reachable_Inv c Hc).
Qed.

Lemma result_details_toggle_witness :
  shownDetails
    (dom (toggleResultDetails 9
            (renderGame detailed_state 1 (startup ∅ "u-1" blank_page)))) <> None
  /\ phaseEl (dom (toggleResultDetails 10 (toggleResultDetails 9
            (renderGame detailed_state 1 (startup ∅ "u-1" blank_page)))))
     = phaseEl (dom (renderGame detailed_state 1 (startup ∅ "u-1" blank_page))).
Proof.
  pose proof (result_details_toggle 9
                (renderGame detailed_state 1 (startup ∅ "u-1" blank_page)))
    as (_ & Hshow & Htwice & Hreach).
  split.
  - apply (proj2 (Hshow detailed_state alice eq_refl eq_refl) eq_refl).
    split; [reflexivity | discriminate].
  - apply (proj2 (Htwice 10)).
    intros st me Hst _. vm_compute in Hst. injection Hst as <-. reflexivity.
Defined.

(** ** Who decides the rules *)




(** ** The thrown tomato *)

Lemma has_class_remove cl l : has_class cl (classList_remove cl l) = false.
Proof.
  unfold has_class, classList_remove.
  induction l as [| x l IH]; cbn; [reflexivity |].
  destruct (String.eqb cl x) eqn:E; cbn; [exact IH |]. rewrite E. exact IH.
Qed.

Lemma no_tomato_hit_clear d : no_tomato_hit (clearTomatoHits d).
Proof.
  unfold no_tomato_hit, clearTomatoHits.
  cbn [opponentsEl playerAreaEl set_playerAreaEl set_opponentsEl]. split.
  - apply Forall_map. apply Forall_forall. intros pc _.
    exact (has_class_remove "tomato-hit" (pc_classes pc)).
  - intros pa. destruct (playerAreaEl d) as [pa0 |]; cbn [option_map]; [| discriminate].
    intros [= <-]. exact (has_class_remove "tomato-hit" (pa_classes pa0)).
Qed.

Lemma no_tomato_hit_view c c' :
  hit_view c' = hit_view c -> no_tomato_hit (dom c) -> no_tomato_hit (dom c').
Proof.
  unfold hit_view, no_tomato_hit. intros [= -> ->]. auto.
Qed.

Lemma hit_view_clearTimeout_if t c : hit_view (clearTimeout_if t c) = hit_view c.
Proof. destruct t; reflexivity. Qed.

Lemma hit_view_updateTomatoToast text c : hit_view (updateTomatoToast text c) = hit_view c.
Proof.
  unfold updateTomatoToast, hit_view, over_dom. cbn.
  destruct (gameContainer (dom c)); reflexivity.
Qed.

Lemma no_tomato_hit_drop c : no_tomato_hit (dom (dropTomatoEffect c)).
Proof.
  unfold dropTomatoEffect. cbv zeta.
  eapply no_tomato_hit_view; [apply hit_view_updateTomatoToast |].
  eapply no_tomato_hit_view; [apply hit_view_clearTimeout_if |].
  apply no_tomato_hit_clear.
Qed.

Lemma tomatoClear_callback_cleared c : tomato_cleared (tomatoClear_callback c).
Proof.
  unfold tomato_cleared, tomatoClear_callback. cbv zeta.
  split; [| split; [| split; [| split]]].
  - eapply no_tomato_hit_view; [apply hit_view_updateTomatoToast |].
    eapply no_tomato_hit_view; [apply hit_view_clearTimeout_if |].
    apply (no_tomato_hit_clear (dom c)).
  - unfold no_tomato_flight, updateTomatoToast, over_dom. cbn.
    destruct (tomatoImpactTimeout c); cbn;
      destruct (gameContainer (dom c)) as [g |]; cbn; intros g' [= <-]; reflexivity.
  - cbn. destruct (tomatoImpactTimeout c); reflexivity.
  - cbn. destruct (tomatoImpactTimeout c); reflexivity.
  - cbn. destruct (tomatoImpactTimeout c); reflexivity.
Qed.

Lemma Forall_filter_keep {A} (P : A -> Prop) (f : A -> bool) (l : list A) :
  Forall P l -> Forall P (List.filter f l).
Proof.
  induction 1 as [| x l Hx Hl IH]; cbn; [constructor |].
  destruct (f x); [constructor |]; assumption.
Qed.

Lemma find_app_found {A} (f : A -> bool) (l l' : list A) (x : A) :
  find f l = Some x -> find f (l ++ l')%list = Some x.
Proof.
  induction l as [| y l IH]; cbn; [discriminate |].
  destruct (f y); [auto | exact IH].
Qed.

Lemma find_fresh_timer (ts : list Timer) (t : Timer) :
  Forall (fun t' => (timer_id t' < timer_id t)%nat) ts ->
  find (fun t' => Nat.eqb (timer_id t') (timer_id t)) (ts ++ [t])%list = Some t.
Proof.
  induction 1 as [| x l Hx Hl IH]; cbn.
  - rewrite Nat.eqb_refl. reflexivity.
  - destruct (Nat.eqb_spec (timer_id x) (timer_id t)); [lia | exact IH].
Qed.

Lemma find_filter_other (ts : list Timer) (id j : nat) :
  id <> j ->
  find (fun t => Nat.eqb (timer_id t) id)
    (List.filter (fun t => negb (Nat.eqb (timer_id t) j)) ts)
  = find (fun t => Nat.eqb (timer_id t) id) ts.
Proof.
  intros Hne. induction ts as [| x l IH]; cbn; [reflexivity |].
  destruct (Nat.eqb_spec (timer_id x) j) as [Ej | Ej]; cbn.
  - destruct (Nat.eqb_spec (timer_id x) id); [congruence | exact IH].
  - destruct (Nat.eqb (timer_id x) id); [reflexivity | exact IH].
Qed.

(** *** The timer queue stays sound, and a pending clear stays pending *)

Lemma armed_view d c c' : timer_state c' = timer_state c -> armed d c -> armed d c'.
Proof.
  unfold timer_state. intros [= Ht Hn Hc Hi Hg].
  unfold armed, timers_sound, timers_fresh, issued, pending_clear.
  rewrite Ht, Hn, Hc, Hi, Hg. auto.
Qed.

Lemma armed_weaken d c : armed d c -> armed None c.
Proof. intros [H _]. split; [exact H | exact I]. Qed.

Lemma sound_clearTimeout id c : armed None c -> armed None (clearTimeout id c).
Proof.
  intros [(Hf & H) _]. split; [| exact I]. split; [| exact H].
  unfold timers_fresh. cbn [timers nextTimer clearTimeout set_timers].
  apply Forall_filter_keep, Hf.
Qed.

Lemma armed_clearTimeout d id c :
  tomatoClearTimeout c <> Some id -> armed d c -> armed d (clearTimeout id c).
Proof.
  intros Hne H. split; [apply (sound_clearTimeout id c (armed_weaken d c H)) |].
  destruct d as [d |]; [| exact I]. destruct H as [_ (i & Hi & Hfind)].
  exists i. split; [exact Hi |].
  cbn [timers clearTimeout set_timers]. rewrite find_filter_other; [exact Hfind |].
  congruence.
Qed.

Lemma armed_clear_impact d c :
  armed d c -> armed d (clearTimeout_if (tomatoImpactTimeout c) c).
Proof.
  intros H. destruct (tomatoImpactTimeout c) as [id |] eqn:E; [| exact H].
  apply armed_clearTimeout; [| exact H].
  intros Hc. destruct H as [(_ & _ & _ & _ & Hd) _].
  destruct (Hd id Hc) as [Hi _]. congruence.
Qed.

Lemma armed_clear_toast d c :
  armed d c -> armed d (clearTimeout_if (gameActionToastTimeout c) c).
Proof.
  intros H. destruct (gameActionToastTimeout c) as [id |] eqn:E; [| exact H].
  apply armed_clearTimeout; [| exact H].
  intros Hc. destruct H as [(_ & _ & _ & _ & Hd) _].
  destruct (Hd id Hc) as [_ Hg]. congruence.
Qed.

Lemma fresh_after_setTimeout cb delay now c :
  timers_fresh c -> timers_fresh (snd (setTimeout cb delay now c)).
Proof.
  unfold timers_fresh. cbn [snd setTimeout timers nextTimer set_timers set_nextTimer].
  intros H. apply Forall_app. split.
  - eapply Forall_impl; [exact H |]. cbn beta. intros t Ht. lia.
  - repeat constructor.
Qed.

Lemma issued_later t c c' :
  (nextTimer c <= nextTimer c')%nat -> issued t c -> issued t c'.
Proof. unfold issued. intros Hle H id Hid. specialize (H id Hid). lia. Qed.

Lemma pending_after_setTimeout d cb delay now c :
  pending_clear d c -> pending_clear d (snd (setTimeout cb delay now c)).
Proof.
  intros (i & Hi & Hfind). exists i. split; [exact Hi |].
  cbn [snd setTimeout timers set_timers set_nextTimer].
  apply find_app_found, Hfind.
Qed.

Lemma armed_setTimeout d cb delay now c :
  armed d c -> armed d (snd (setTimeout cb delay now c)).
Proof.
  intros [(Hf & Hc & Hi & Hg & Hd) Hp]. split.
  - split; [apply fresh_after_setTimeout, Hf |].
    repeat split; try (eapply issued_later; [| eassumption]; cbn; lia); apply Hd; assumption.
  - destruct d; [apply pending_after_setTimeout, Hp | exact I].
Qed.

(** [let id = setTimeout(...)] remembered as the impact timer. *)
Lemma armed_impact_id d cb delay now c :
  armed d c ->
  armed d (set_tomatoImpactTimeout (Some (nextTimer c)) (snd (setTimeout cb delay now c))).
Proof.
  intros [(Hf & Hc & Hi & Hg & Hd) Hp]. split.
  - split; [apply (fresh_after_setTimeout cb delay now c Hf) |].
    split; [eapply issued_later; [| exact Hc]; cbn; lia |].
    split; [intros id [= <-]; cbn; lia |].
    split; [eapply issued_later; [| exact Hg]; cbn; lia |].
    intros id Hid. cbn in Hid. split; [| apply (Hd id Hid)].
    cbn. intros [= E]. specialize (Hc id Hid). lia.
  - destruct d; [| exact I]. apply (pending_after_setTimeout _ cb delay now c Hp).
Qed.

(** [let id = setTimeout(...)] remembered as the toast timer. *)
Lemma armed_toast_id d cb delay now c :
  armed d c ->
  armed d (set_gameActionToastTimeout (Some (nextTimer c)) (snd (setTimeout cb delay now c))).
Proof.
  intros [(Hf & Hc & Hi & Hg & Hd) Hp]. split.
  - split; [apply (fresh_after_setTimeout cb delay now c Hf) |].
    split; [eapply issued_later; [| exact Hc]; cbn; lia |].
    split; [eapply issued_later; [| exact Hi]; cbn; lia |].
    split; [intros id [= <-]; cbn; lia |].
    intros id Hid. cbn in Hid. split; [apply (Hd id Hid) |].
    cbn. intros [= E]. specialize (Hc id Hid). lia.
  - destruct d; [| exact I]. apply (pending_after_setTimeout _ cb delay now c Hp).
Qed.

(** After [scheduleTomatoClear] the clear callback is pending under the id
    the script remembers, due one lifetime from now. *)
Lemma armed_scheduleTomatoClear d now c :
  armed d c -> armed (Some (now + TOMATO_LIFETIME_MS)) (scheduleTomatoClear now c).
Proof.
  intros H. unfold scheduleTomatoClear. cbv zeta.
  assert (H1 : armed None (clearTimeout_if (tomatoClearTimeout c) c)).
  { destruct (tomatoClearTimeout c); [apply sound_clearTimeout |]; apply (armed_weaken d), H. }
  set (c1 := clearTimeout_if (tomatoClearTimeout c) c) in *.
  destruct H1 as [(Hf & Hc & Hi & Hg & Hd) _].
  cbn [setTimeout]. split.
  - split; [apply (fresh_after_setTimeout ClearCb TOMATO_LIFETIME_MS now c1 Hf) |].
    split; [intros id [= <-]; cbn; lia |].
    split; [eapply issued_later; [| exact Hi]; cbn; lia |].
    split; [eapply issued_later; [| exact Hg]; cbn; lia |].
    intros id [= <-]. cbn. split; intros E.
    + specialize (Hi _ E). lia.
    + specialize (Hg _ E). lia.
  - exists (nextTimer c1). split; [reflexivity |]. cbn.
    apply (find_fresh_timer (timers c1)
             {| timer_id := nextTimer c1; due := now + TOMATO_LIFETIME_MS; callback := ClearCb |}).
    exact Hf.
Qed.

Lemma armed_scheduleTomatoImpact d targetId me delayMs now c :
  armed d c -> armed d (scheduleTomatoImpact targetId me delayMs now c).
Proof.
  intros H. unfold scheduleTomatoImpact. cbv zeta. case_match; [exact H |].
  apply (armed_impact_id d _ _ now (clearTimeout_if (tomatoImpactTimeout c) c)).
  apply armed_clear_impact, H.
Qed.

Lemma armed_animateTomatoFlight d sourceEl targetEl now c :
  armed d c -> armed d (animateTomatoFlight sourceEl targetEl now c).
Proof.
  intros H. unfold animateTomatoFlight. cbv zeta. case_match; [| exact H].
  apply armed_setTimeout. eapply armed_view; [| exact H]. reflexivity.
Qed.

Lemma armed_updateTomatoToast d text c : armed d c -> armed d (updateTomatoToast text c).
Proof. apply armed_view. reflexivity. Qed.

Lemma armed_dropTomatoEffect d c : armed d c -> armed d (dropTomatoEffect c).
Proof.
  intros H. unfold dropTomatoEffect. cbv zeta. apply armed_updateTomatoToast.
  apply (armed_clear_impact d (over_dom clearTomatoHits c)).
  eapply armed_view; [| exact H]. reflexivity.
Qed.

Lemma armed_tomatoClear_callback d c : armed d c -> armed d (tomatoClear_callback c).
Proof.
  intros H. unfold tomatoClear_callback. cbv zeta. apply armed_updateTomatoToast.
  apply (armed_clear_impact d
           (set_activeTomatoShowAt 0 (set_activeTomatoExpiresAt 0%Q
              (set_activeTomatoTargetId None (over_dom _ (over_dom clearTomatoHits c)))))).
  eapply armed_view; [| exact H]. reflexivity.
Qed.

(** An event that passes the three guards of [applyTomatoEffect] ends in
    [scheduleTomatoClear] on a client with a sound timer queue. *)
Lemma applyTomatoEffect_applied d event at_ me now c :
  Tomato.at_ event = Some at_ ->
  Qgtb (ageMs now at_) (inject_Z TOMATO_LIFETIME_MS) = false ->
  truthy (Tomato.id event) && bool_decide (Tomato.id event = lastTomatoEventId c) = false ->
  armed d c ->
  exists c1, armed d c1
    /\ applyTomatoEffect (Some event) me now c = scheduleTomatoClear now c1.
Proof.
  intros Hat Hage Hdup Hfresh. unfold applyTomatoEffect. rewrite Hat, Hage, Hdup.
  cbv zeta.
  set (c0 := (if truthy (Tomato.to_id event) then _ else _)).
  assert (H0 : armed d c0).
  { subst c0. repeat case_match; (eapply armed_view; [| exact Hfresh]); reflexivity. }
  clearbody c0.
  destruct (guardedElement (Tomato.from_id event) me (dom c)) as [s |],
           (guardedElement (Tomato.to_id event) me (dom c)) as [t |];
    eexists; (split; [| reflexivity]).
  - apply armed_updateTomatoToast, armed_scheduleTomatoImpact,
      armed_animateTomatoFlight, H0.
  - apply armed_updateTomatoToast, H0.
  - apply armed_updateTomatoToast.
    eapply armed_view; [| exact H0]. reflexivity.
  - apply armed_updateTomatoToast, H0.
Qed.

Lemma armed_applyTomatoEffect d event me now c :
  armed d c ->
  armed d (applyTomatoEffect event me now c)
  \/ armed (Some (now + TOMATO_LIFETIME_MS)) (applyTomatoEffect event me now c).
Proof.
  intros H. destruct event as [ev |]; [| left; apply armed_dropTomatoEffect, H].
  destruct (Tomato.at_ ev) as [a |] eqn:Hat;
    [| left; unfold applyTomatoEffect; rewrite Hat; apply armed_dropTomatoEffect, H].
  destruct (Qgtb (ageMs now a) (inject_Z TOMATO_LIFETIME_MS)) eqn:Hage;
    [left; unfold applyTomatoEffect; rewrite Hat, Hage; apply armed_dropTomatoEffect, H |].
  destruct (truthy (Tomato.id ev) && bool_decide (Tomato.id ev = lastTomatoEventId c))
    eqn:Hdup; [left; unfold applyTomatoEffect; rewrite Hat, Hage, Hdup; exact H |].
  destruct (applyTomatoEffect_applied d ev a me now c Hat Hage Hdup H) as (c1 & H1 & ->).
  right. apply (armed_scheduleTomatoClear d), H1.
Qed.

Lemma armed_applyActiveTomatoTarget d me now c :
  armed d c -> armed d (applyActiveTomatoTarget me now c).
Proof.
  intros H. unfold applyActiveTomatoTarget. cbv zeta.
  destruct (_ || _).
  - apply (armed_clear_impact d
             (set_activeTomatoShowAt 0 (set_activeTomatoExpiresAt 0%Q
                (set_activeTomatoTargetId None (over_dom clearTomatoHits c))))).
    eapply armed_view; [| exact H]. reflexivity.
  - destruct (_ && _); [apply armed_scheduleTomatoImpact, H |].
    eapply armed_view; [| exact H]. reflexivity.
Qed.

Lemma armed_renderGame d st now c :
  armed d c ->
  armed d (renderGame st now c)
  \/ armed (Some (now + TOMATO_LIFETIME_MS)) (renderGame st now c).
Proof.
  intros H. unfold renderGame. cbv zeta.
  destruct (State.me st) as [me |];
    [| left; eapply armed_view; [| exact H]; reflexivity].
  assert (Hup : forall d' c', armed d' c' -> armed d' (updateDisconnectedTimers now c')).
  { intros d' c'. apply armed_view. reflexivity. }
  assert (Hpend : forall d' c',
            armed d' c' ->
            armed d' match pendingTomatoEvent c' with
                      | Some ev => set_pendingTomatoEvent None
                                     (applyTomatoEffect (Some ev) (Some me) now c')
                      | None => c'
                      end
            \/ armed (Some (now + TOMATO_LIFETIME_MS))
                 match pendingTomatoEvent c' with
                 | Some ev => set_pendingTomatoEvent None
                                (applyTomatoEffect (Some ev) (Some me) now c')
                 | None => c'
                 end).
  { intros d' c' H'. destruct (pendingTomatoEvent c') as [ev |]; [| left; exact H'].
    destruct (armed_applyTomatoEffect d' (Some ev) (Some me) now c' H') as [Ha | Ha];
      [left | right]; (eapply armed_view; [| exact Ha]); reflexivity. }
  match goal with
  | |- armed _ (updateDisconnectedTimers _ (match pendingTomatoEvent ?x with _ => _ end)) \/ _ =>
      assert (H0 : armed d x \/ armed (Some (now + TOMATO_LIFETIME_MS)) x)
  end.
  { apply armed_applyTomatoEffect, armed_applyActiveTomatoTarget.
    eapply armed_view; [| exact H].
    unfold syncObserver. repeat (case_match; cbn); reflexivity. }
  destruct H0 as [H0 | H0]; destruct (Hpend _ _ H0) as [H1 | H1];
    [left | right | right | right]; apply Hup, H1.
Qed.

Lemma armed_showGameActionToast d message now c :
  armed d c -> armed d (showGameActionToast message now c).
Proof.
  intros H. unfold showGameActionToast. cbv zeta.
  destruct (gameContainer (dom c)); [| exact H].
  destruct (String.eqb message ""); [eapply armed_view; [| exact H]; reflexivity |].
  cbn [setTimeout].
  apply (armed_toast_id d ToastCb GAME_ACTION_TOAST_MS now
           (clearTimeout_if (gameActionToastTimeout c) (over_dom _ c))).
  apply (armed_clear_toast d (over_dom _ c)).
  eapply armed_view; [| exact H]. reflexivity.
Qed.

Lemma armed_run_callback d cb c : armed d c -> armed d (run_callback cb c).
Proof.
  intros H. destruct cb; cbn [run_callback].
  - eapply armed_view; [| exact H]. reflexivity.
  - unfold flight_fallback. case_match; [exact H |].
    eapply armed_view; [| exact H]. reflexivity.
  - apply armed_tomatoClear_callback, H.
  - eapply armed_view; [| exact H]. reflexivity.
Qed.

(** A timer that fires either leaves the pending clear alone or is it. *)
Lemma armed_fire d id now c :
  armed (Some d) c ->
  armed (Some d) (fire id now c)
  \/ (d <= now /\ armed None (fire id now c) /\ tomato_cleared (fire id now c)).
Proof.
  intros H. unfold fire.
  destruct (find (fun t => Nat.eqb (timer_id t) id) (timers c)) as [t |] eqn:Hfind;
    [| left; exact H].
  destruct (Z.leb_spec (due t) now) as [Hdue | Hdue]; [| left; exact H].
  destruct H as [Hs (i & Hi & Hfi)].
  destruct (Nat.eq_dec i id) as [-> | Hne].
  - right. rewrite Hfind in Hfi. injection Hfi as ->. cbn [due callback] in *.
    split; [exact Hdue |]. split.
    + apply armed_run_callback, sound_clearTimeout. split; [exact Hs | exact I].
    + apply tomatoClear_callback_cleared.
  - left. apply armed_run_callback, armed_clearTimeout; [congruence |].
    split; [exact Hs |]. exists i. split; assumption.
Qed.

Lemma sound_fire id now c : armed None c -> armed None (fire id now c).
Proof.
  intros H. unfold fire. repeat case_match; try exact H.
  apply armed_run_callback, sound_clearTimeout, H.
Qed.

(** One step of the event loop: the timer queue stays sound, and a pending
    clear stays pending, is replaced by one a lifetime from now, or runs. *)
Lemma armed_handle d i now c :
  armed d c ->
  armed d (handle i now c)
  \/ armed (Some (now + TOMATO_LIFETIME_MS)) (handle i now c)
  \/ (exists d', d = Some d' /\ d' <= now
        /\ armed None (handle i now c) /\ tomato_cleared (handle i now c)).
Proof.
  intros H.
  assert (Hr : forall st c0, armed d c0 ->
            armed d (renderGame st now c0)
            \/ armed (Some (now + TOMATO_LIFETIME_MS)) (renderGame st now c0)
            \/ (exists d', d = Some d' /\ d' <= now
                 /\ armed None (renderGame st now c0)
                 /\ tomato_cleared (renderGame st now c0))).
  { intros st c0 H0. destruct (armed_renderGame d st now c0 H0); auto. }
  destruct i; cbn [handle];
    try (left; eapply armed_view; [| exact H]; reflexivity).
  - apply Hr, H.
  - left. apply armed_showGameActionToast, H.
  - unfold on_tomato_event. destruct (lastState c) as [st |];
      [| left; eapply armed_view; [| exact H]; reflexivity].
    match goal with
    | |- armed _ (applyTomatoEffect ?e ?m _ ?x) \/ _ =>
        assert (Hx : armed d x)
          by (destruct (State.me st); [eapply armed_view; [| exact H]; reflexivity | exact H]);
        destruct (armed_applyTomatoEffect d e m now x Hx); auto
    end.
  - left. unfold chatForm_submit. cbv zeta.
    case_match; eapply armed_view; try exact H; reflexivity.
  - destruct h; cbn [run_handler];
      try (left; eapply armed_view; [| exact H]; reflexivity).
    + left. unfold restartGame. case_match; eapply armed_view; try exact H; reflexivity.
    + unfold toggleResultDetails. cbv zeta. cbn [lastState set_showResultDetails].
      destruct (lastState c);
        [apply Hr | left]; eapply armed_view; try exact H; reflexivity.
    + left. unfold removePlayer. case_match; eapply armed_view; try exact H; reflexivity.
    + left. unfold toggleTomatoMenu. cbv zeta.
      eapply armed_view; [| exact H]. repeat (case_match; cbn); reflexivity.
  - left. unfold changeName. cbv zeta.
    case_match; eapply armed_view; try exact H; reflexivity.
  - left. unfold toggleObserver.
    repeat case_match; eapply armed_view; try exact H; reflexivity.
  - left. destruct (tomatoMenu (dom c)) eqn:Em; [| exact H].
    eapply armed_view; [| exact H].
    unfold tomatoMenuBtn_click, removeMenu. repeat (case_match; cbn); reflexivity.
  - left. destruct (tomatoMenu (dom c)) eqn:Em; [| exact H].
    eapply armed_view; [| exact H].
    unfold closeOnOutsideClick, removeMenu. repeat (case_match; cbn); reflexivity.
  - destruct d as [d |].
    + destruct (armed_fire d id now c H) as [Hf | (Hd & Hs & Hc)]; [left; exact Hf |].
      right. right. exists d. auto.
    + left. apply sound_fire, H.
  - left. repeat case_match; exact H.
Qed.

Lemma Qgtb_true a b : Qgtb a b = true <-> (b < a)%Q.
Proof.
  unfold Qgtb. rewrite negb_true_iff. split.
  - intros H. apply Qnot_le_lt. intros Hle. apply Qle_bool_iff in Hle. congruence.
  - intros H. destruct (Qle_bool a b) eqn:E; [| reflexivity].
    apply Qle_bool_iff in E. exfalso. exact (Qlt_not_le _ _ H E).
Qed.

Lemma Qgtb_false a b : Qgtb a b = false <-> (a <= b)%Q.
Proof.
  unfold Qgtb. rewrite negb_false_iff. apply Qle_bool_iff.
Qed.

Lemma timers_sound_reachable c : reachable c -> timers_sound c.
Proof.
  intros Hc. assert (H : armed None c); [| exact (proj1 H)].
  induction Hc as [ls uuid page | c i now _ IH].
  - split; [| exact I]. unfold timers_sound, timers_fresh, issued. cbn.
    repeat split; try constructor; discriminate.
  - destruct (armed_handle None i now c IH) as [H | [H | (d' & Hd & _)]];
      [exact H | apply (armed_weaken _ _ H) | discriminate].
Qed.

(** C6: the tomato effect is transient.  An event older than
    TOMATO_LIFETIME_MS = 3000 ms marks nothing and clears the marks that are
    there.  An event that is applied leaves the clear callback pending under
    tomatoClearTimeout, due exactly 3000 ms later and not before; whatever
    happens next, that callback stays pending until it runs, unless a later
    event is applied and puts its own in place; and when it runs no
    tomato-hit class and no tomato-flight element is left and the
    active-tomato state is reset. *)
Theorem tomato_effect_transient (event : Tomato.t) (at_ : Q) (me : option Player.t)
    (now : Z) (c : Client) :
  Tomato.at_ event = Some at_ ->
  TOMATO_LIFETIME_MS = 3000
  /\ ((3000 < ageMs now at_)%Q ->
      applyTomatoEffect (Some event) me now c = dropTomatoEffect c
      /\ no_tomato_hit (dom (applyTomatoEffect (Some event) me now c)))
  /\ ((ageMs now at_ <= 3000)%Q ->
      truthy (Tomato.id event) && bool_decide (Tomato.id event = lastTomatoEventId c) = false ->
      timers_sound c ->
      timers_sound (applyTomatoEffect (Some event) me now c)
      /\ pending_clear (now + 3000) (applyTomatoEffect (Some event) me now c)
      /\ exists id,
           tomatoClearTimeout (applyTomatoEffect (Some event) me now c) = Some id
           /\ (forall t, t < now + 3000 ->
                 fire id t (applyTomatoEffect (Some event) me now c)
                   = applyTomatoEffect (Some event) me now c)
           /\ tomato_cleared
                (fire id (now + 3000) (applyTomatoEffect (Some event) me now c)))
  /\ (forall due i now',
        timers_sound c -> pending_clear due c ->
        timers_sound (handle i now' c)
        /\ (pending_clear due (handle i now' c)
            \/ pending_clear (now' + 3000) (handle i now' c)
            \/ (due <= now' /\ tomato_cleared (handle i now' c))))
  /\ (forall c', tomato_cleared (tomatoClear_callback c'))
  /\ (reachable c -> timers_sound c).
Proof.
  intros Hat. split; [reflexivity |]. split; [| split; [| split; [| split]]].
  - intros Hage. apply (proj2 (Qgtb_true _ _)) in Hage.
    assert (Heq : applyTomatoEffect (Some event) me now c = dropTomatoEffect c).
    { unfold applyTomatoEffect. rewrite Hat.
      change (inject_Z TOMATO_LIFETIME_MS) with 3000%Q. rewrite Hage. reflexivity. }
    split; [exact Heq |]. rewrite Heq. apply no_tomato_hit_drop.
  - intros Hage Hdup Hsound. apply (proj2 (Qgtb_false _ _)) in Hage.
    destruct (applyTomatoEffect_applied None event at_ me now c Hat Hage Hdup
                (conj Hsound I)) as (c1 & H1 & ->).
    destruct (armed_scheduleTomatoClear None now c1 H1) as [Hs Hp].
    change (now + TOMATO_LIFETIME_MS) with (now + 3000) in Hp.
    split; [exact Hs |]. split; [exact Hp |].
    destruct Hp as (id & Hid & Hfind).
    exists id. split; [exact Hid |]. split.
    + intros t Ht. unfold fire. rewrite Hfind. cbn [due].
      destruct (Z.leb_spec (now + 3000) t); [lia | reflexivity].
    + unfold fire. rewrite Hfind. cbn [due callback]. rewrite Z.leb_refl.
      apply tomatoClear_callback_cleared.
  - intros due i now' Hs Hp.
    destruct (armed_handle (Some due) i now' c (conj Hs Hp))
      as [[H1 H2] | [[H1 H2] | (d' & [= <-] & Hd & [H1 _] & H2)]].
    + split; [exact H1 | left; exact H2].
    + split; [exact H1 | right; left; exact H2].
    + split; [exact H1 | right; right; split; [exact Hd | exact H2]].
  - apply tomatoClear_callback_cleared.
  - apply timers_sound_reachable.
Qed.

Lemma tomato_effect_transient_witness :
  no_tomato_hit (dom (applyTomatoEffect (Some sample_tomato) (Some alice) 10000 splattered_table))
  /\ exists id,
       tomatoClearTimeout (applyTomatoEffect (Some sample_tomato) (Some alice) 1500 result_table)
         = Some id
       /\ tomato_cleared
            (fire id 4500 (applyTomatoEffect (Some sample_tomato) (Some alice) 1500 result_table))
  /\ (pending_clear 4500 (handle Interval_tick 2500 tomato_in_flight)
      \/ pending_clear 5500 (handle Interval_tick 2500 tomato_in_flight)
      \/ (4500 <= 2500 /\ tomato_cleared (handle Interval_tick 2500 tomato_in_flight))).
Proof.
  assert (Hsound : timers_sound result_table).
  { unfold timers_sound, timers_fresh, issued. vm_compute.
    repeat split; try constructor; discriminate. }
  split.
  - destruct (tomato_effect_transient sample_tomato (1 # 1) (Some alice) 10000
                splattered_table eq_refl) as (_ & Hstale & _).
    apply Hstale. reflexivity.
  - destruct (tomato_effect_transient sample_tomato (1 # 1) (Some alice) 1500
                result_table eq_refl) as (_ & _ & Happlied & _).
    destruct Happlied as (Hs & Hp & id & Hid & _ & Hclear).
    + vm_compute. discriminate.
    + reflexivity.
    + exact Hsound.
    + exists id. split; [exact Hid |]. split; [exact Hclear |].
      destruct (tomato_effect_transient sample_tomato (1 # 1) (Some alice) 1500
                  tomato_in_flight eq_refl) as (_ & _ & _ & Hkeep & _).
      apply (Hkeep 4500 Interval_tick 2500).
      * unfold timers_sound, timers_fresh, issued. vm_compute.
        repeat split; try (intros; congruence); try (intros ? [= <-]); repeat constructor.
      * exists 3%nat. split; reflexivity.
Defined.

(** * Further properties of the script *)

(** ** Views of the page the tomato machinery is blind to *)

Section DomView.

Context {T : Type} (W : Dom -> T).
Hypothesis W_clear : forall d, W (clearTomatoHits d) = W d.
Hypothesis W_hit : forall el d, W (addTomatoHit el d) = W d.
Hypothesis W_container : forall g d, W (set_gameContainer g d) = W d.

Let keeps (c0 c : Client) : Prop := W (dom c) = W (dom c0).

Local Lemma keeps_refl c : keeps c c.
Proof. reflexivity. Qed.

Local Lemma keeps_same_dom c0 c c' : dom c' = dom c -> keeps c0 c -> keeps c0 c'.
Proof. unfold keeps. intros ->. auto. Qed.

Local Lemma keeps_clear c0 c : keeps c0 c -> keeps c0 (over_dom clearTomatoHits c).
Proof. unfold keeps. cbn [dom over_dom set_dom]. rewrite W_clear. auto. Qed.

Local Lemma keeps_hit el c0 c : keeps c0 c -> keeps c0 (over_dom (addTomatoHit el) c).
Proof. unfold keeps. cbn [dom over_dom set_dom]. rewrite W_hit. auto. Qed.

Local Lemma keeps_container g c0 c :
  keeps c0 c -> keeps c0 (over_dom (set_gameContainer g) c).
Proof. unfold keeps. cbn [dom over_dom set_dom]. rewrite W_container. auto. Qed.

Local Lemma keeps_clearTimeout_if t c0 c : keeps c0 c -> keeps c0 (clearTimeout_if t c).
Proof. apply keeps_same_dom. destruct t; reflexivity. Qed.

Local Lemma keeps_setTimeout cb delay now c0 c :
  keeps c0 c -> keeps c0 (snd (setTimeout cb delay now c)).
Proof. apply keeps_same_dom. reflexivity. Qed.

Local Lemma keeps_updateTomatoToast text c0 c :
  keeps c0 c -> keeps c0 (updateTomatoToast text c).
Proof.
  intros H. unfold updateTomatoToast.
  destruct (gameContainer (dom c)) as [g |] eqn:E.
  - replace (over_dom _ c) with (over_dom (set_gameContainer
      (Some (set_tomato_toast
               (Some (if truthy text
                      then {| toast_show := true; toast_text := default "" text |}
                      else {| toast_show := false; toast_text := "" |})) g))) c).
    + apply keeps_container, H.
    + unfold over_dom. rewrite E. reflexivity.
  - eapply keeps_same_dom; [| exact H]. unfold over_dom. rewrite E. reflexivity.
Qed.

Lemma view_tomatoClear_callback c : W (dom (tomatoClear_callback c)) = W (dom c).
Proof.
  unfold tomatoClear_callback. cbv zeta.
  apply keeps_updateTomatoToast, keeps_clearTimeout_if.
  eapply keeps_same_dom with
    (c := over_dom (set_gameContainer
                      (option_map (set_flights []) (gameContainer (dom (over_dom clearTomatoHits c)))))
            (over_dom clearTomatoHits c)); [reflexivity |].
  apply keeps_container, keeps_clear, keeps_refl.
Qed.

Local Lemma keeps_scheduleTomatoClear now c0 c :
  keeps c0 c -> keeps c0 (scheduleTomatoClear now c).
Proof.
  intros H. eapply keeps_same_dom; [| exact H].
  unfold scheduleTomatoClear. cbv zeta. destruct (tomatoClearTimeout c); reflexivity.
Qed.

Local Lemma keeps_scheduleTomatoImpact targetId me delayMs now c0 c :
  keeps c0 c -> keeps c0 (scheduleTomatoImpact targetId me delayMs now c).
Proof.
  intros H. eapply keeps_same_dom; [| exact H].
  unfold scheduleTomatoImpact. cbv zeta.
  case_match; [reflexivity |]. destruct (tomatoImpactTimeout c); reflexivity.
Qed.

Lemma view_tomatoImpact_callback targetId me c :
  W (dom (tomatoImpact_callback targetId me c)) = W (dom c).
Proof.
  unfold tomatoImpact_callback. cbn [dom over_dom set_dom].
  destruct (targetElement targetId me (dom c)); [apply W_hit | reflexivity].
Qed.

Local Lemma keeps_remove_flight tomato c0 c :
  keeps c0 c -> keeps c0 (over_dom (remove_flight tomato) c).
Proof. unfold keeps, remove_flight. cbn [dom over_dom set_dom]. rewrite W_container. auto. Qed.

Lemma view_flight_cleanup tomato targetEl c :
  W (dom (flight_cleanup tomato targetEl c)) = W (dom c).
Proof.
  unfold flight_cleanup. rewrite over_dom_compose.
  apply keeps_hit, keeps_remove_flight, keeps_refl.
Qed.

Lemma view_flight_fallback tomato targetEl c :
  W (dom (flight_fallback tomato targetEl c)) = W (dom c).
Proof.
  unfold flight_fallback. case_match; [reflexivity | apply view_flight_cleanup].
Qed.

Local Lemma keeps_animateTomatoFlight sourceEl targetEl now c0 c :
  keeps c0 c -> keeps c0 (animateTomatoFlight sourceEl targetEl now c).
Proof.
  intros H. unfold animateTomatoFlight. cbv zeta. case_match; [| exact H].
  apply keeps_setTimeout.
  match goal with
  | |- keeps _ (over_dom (set_gameContainer ?g) (set_nextElem ?n c)) =>
      apply (keeps_same_dom c0 (over_dom (set_gameContainer g) c)); [reflexivity |]
  end.
  apply keeps_container, H.
Qed.

Local Lemma keeps_dropTomatoEffect c0 c : keeps c0 c -> keeps c0 (dropTomatoEffect c).
Proof.
  intros H. unfold dropTomatoEffect. cbv zeta.
  apply keeps_updateTomatoToast, keeps_clearTimeout_if, keeps_clear, H.
Qed.

Local Lemma keeps_applyTomatoEffect event me now c0 c :
  keeps c0 c -> keeps c0 (applyTomatoEffect event me now c).
Proof.
  intros H. unfold applyTomatoEffect.
  destruct event as [ev |]; [| apply keeps_dropTomatoEffect, H].
  destruct (Tomato.at_ ev); [| apply keeps_dropTomatoEffect, H].
  destruct (Qgtb _ _); [apply keeps_dropTomatoEffect, H |].
  destruct (_ && _); [exact H |]. cbv zeta.
  set (c1 := (if truthy (Tomato.to_id ev) then _ else _)).
  assert (H1 : keeps c0 c1).
  { subst c1. repeat case_match; (eapply keeps_same_dom; [| exact H]); reflexivity. }
  clearbody c1.
  repeat case_match;
    apply keeps_scheduleTomatoClear, keeps_updateTomatoToast;
    try apply keeps_scheduleTomatoImpact; try apply keeps_animateTomatoFlight;
    try apply keeps_hit; exact H1.
Qed.

Local Lemma keeps_applyActiveTomatoTarget me now c0 c :
  keeps c0 c -> keeps c0 (applyActiveTomatoTarget me now c).
Proof.
  intros H. unfold applyActiveTomatoTarget. cbv zeta.
  destruct (_ || _).
  - apply keeps_clearTimeout_if.
    eapply keeps_same_dom with (c := over_dom clearTomatoHits c); [reflexivity |].
    apply keeps_clear, H.
  - destruct (_ && _); [apply keeps_scheduleTomatoImpact, H |].
    unfold keeps. rewrite <- H.
    apply (view_tomatoImpact_callback (default "" (activeTomatoTargetId c)) me c).
Qed.

Lemma view_applyTomatoEffect event me now c :
  W (dom (applyTomatoEffect event me now c)) = W (dom c).
Proof. apply keeps_applyTomatoEffect, keeps_refl. Qed.

Lemma view_applyActiveTomatoTarget me now c :
  W (dom (applyActiveTomatoTarget me now c)) = W (dom c).
Proof. apply keeps_applyActiveTomatoTarget, keeps_refl. Qed.

Lemma view_run_callback cb c :
  (forall c', W (dom (gameActionToast_callback c')) = W (dom c')) ->
  W (dom (run_callback cb c)) = W (dom c).
Proof.
  intros Htoast. destruct cb; cbn [run_callback].
  - apply view_tomatoImpact_callback.
  - apply view_flight_fallback.
  - apply view_tomatoClear_callback.
  - apply Htoast.
Qed.

(** What [renderGame] leaves of such a view is what [renderPage] built,
    provided the disconnect timers do not show in the view either. *)
Lemma view_renderGame state me now c :
  (forall c', W (dom (updateDisconnectedTimers now c')) = W (dom c')) ->
  State.me state = Some me ->
  W (dom (renderGame state now c))
  = W (renderPage state me now (beforePage state c)).
Proof.
  intros Hupd Hme. unfold renderGame. rewrite Hme. cbv zeta.
  rewrite Hupd. fold (beforePage state c).
  match goal with
  | |- W (dom (match pendingTomatoEvent ?x with _ => _ end)) = _ =>
      assert (Hx : keeps (set_dom (renderPage state me now (beforePage state c))
                            (beforePage state c)) x)
  end.
  { apply keeps_applyTomatoEffect, keeps_applyActiveTomatoTarget.
    eapply keeps_same_dom; [| apply keeps_refl]. reflexivity. }
  match goal with
  | |- W (dom (match pendingTomatoEvent ?x with _ => _ end)) = _ =>
      destruct (pendingTomatoEvent x)
  end.
  - exact (keeps_applyTomatoEffect _ _ now _ _ Hx).
  - exact Hx.
Qed.

End DomView.

(** ** The rendered page *)

Lemma classList_remove_twice cl l :
  classList_remove cl (classList_remove cl l) = classList_remove cl l.
Proof.
  unfold classList_remove. induction l as [| x l IH]; cbn; [reflexivity |].
  destruct (String.eqb cl x) eqn:E; cbn; [exact IH |]. rewrite E. cbn. f_equal. exact IH.
Qed.

Lemma has_class_app cl l l' : has_class cl (l ++ l')%list = has_class cl l || has_class cl l'.
Proof. unfold has_class. apply existsb_app. Qed.

Lemma has_class_add_same cl l : has_class cl (classList_add cl l) = true.
Proof.
  unfold classList_add. destruct (has_class cl l) eqn:E; [exact E |].
  rewrite has_class_app. unfold has_class at 2. cbn. rewrite String.eqb_refl.
  apply orb_true_r.
Qed.

Lemma has_class_add_other cl cl' l :
  cl <> cl' -> has_class cl (classList_add cl' l) = has_class cl l.
Proof.
  intros Hne. unfold classList_add. destruct (has_class cl' l); [reflexivity |].
  rewrite has_class_app. unfold has_class at 2. cbn.
  destruct (String.eqb_spec cl cl'); [contradiction |]. cbn. apply orb_false_r.
Qed.

Lemma has_class_remove_other cl cl' l :
  cl <> cl' -> has_class cl (classList_remove cl' l) = has_class cl l.
Proof.
  intros Hne. unfold has_class, classList_remove.
  induction l as [| x l IH]; cbn; [reflexivity |].
  destruct (String.eqb_spec cl' x) as [<- | Hx]; cbn.
  - destruct (String.eqb_spec cl cl'); [contradiction | exact IH].
  - rewrite IH. reflexivity.
Qed.

(** A reading of the cards that sees neither the hit mark nor the status
    text is, after [renderGame], the reading of the freshly built cards. *)
Lemma cards_renderGame {T} (f : PlayerCard -> T) state me now c :
  (forall pc, f (card_remove_hit pc) = f pc) ->
  (forall pc, f (card_add_hit pc) = f pc) ->
  (forall st pc, f (card_set_status st pc) = f pc) ->
  State.me state = Some me ->
  map f (opponentsEl (dom (renderGame state now c)))
  = map f (renderOpponents (State.chip_color state) now (nextElem c)
             (List.filter
                (is_opponent (String.eqb (State.viewer_role state) "observer") me)
                (State.players state))).
Proof.
  intros Hrem Hadd Hst Hme.
  rewrite (view_renderGame (fun d => map f (opponentsEl d))) with (me := me); try assumption.
  - cbn [opponentsEl renderPage].
    assert (Hn : nextElem (beforePage state c) = nextElem c).
    { unfold beforePage, syncObserver. cbv zeta. repeat (case_match; cbn); reflexivity. }
    rewrite Hn. do 2 f_equal. apply filter_ext. intros p.
    unfold is_opponent.
    destruct (String.eqb (State.viewer_role state) "observer"); cbn; [reflexivity |].
    destruct (String.eqb (Player.player_id me) ""); reflexivity.
  - intros d. cbn. rewrite map_map. apply map_ext. exact Hrem.
  - intros el d. destruct el as [e |]; cbn; [| reflexivity].
    rewrite map_map. apply map_ext. intros pc.
    destruct (Nat.eqb (pc_elem pc) e); [apply Hadd | reflexivity].
  - intros g d. reflexivity.
  - intros c'. cbn. rewrite map_map. apply map_ext. intros pc.
    destruct (pc_status pc); try reflexivity.
    destruct (Qle_bool at_ 0); [reflexivity | apply Hst].
Qed.

Lemma renderOpponents_map {T} (f : PlayerCard -> T) (g : Player.t -> T) color now n ps :
  (forall elem p, f (renderOpponent color now elem p) = g p) ->
  map f (renderOpponents color now n ps) = map g ps.
Proof.
  intros H. revert n. induction ps as [| p ps IH]; intros n; cbn [renderOpponents map];
    [reflexivity |].
  rewrite H, IH. reflexivity.
Qed.

Lemma renderOpponents_elems color now n ps :
  map pc_elem (renderOpponents color now n ps) = seq n (length ps).
Proof.
  revert n. induction ps as [| p ps IH]; intros n; cbn [renderOpponents map length seq];
    [reflexivity |].
  rewrite IH. reflexivity.
Qed.

Lemma Forall2_of_maps {A B T} (f : B -> T) (g : A -> T) (l1 : list A) (l2 : list B) :
  map f l2 = map g l1 -> Forall2 (fun a b => f b = g a) l1 l2.
Proof.
  revert l2. induction l1 as [| a l1 IH]; intros [| b l2]; cbn; try discriminate.
  - constructor.
  - intros [= Hb Hl]. constructor; auto.
Qed.

(** X1: for a joined viewer the opponents row holds, in the order of the
    snapshot, one card per player who is not an observer and is not the
    viewer's own seat; a viewer who observes, or whose id is empty, hides
    nobody.  The cards are new elements with consecutive, distinct
    identities. *)
Theorem opponents_row_members (state : State.t) (me : Player.t) (now : Z) (c : Client) :
  State.me state = Some me ->
  map pc_data_player_id (opponentsEl (dom (renderGame state now c)))
    = map Player.player_id
        (List.filter (is_opponent (String.eqb (State.viewer_role state) "observer") me)
           (State.players state))
  /\ (forall p,
        In p (State.players state) -> Player.is_observer p = false ->
        String.eqb (State.viewer_role state) "observer" = true
          \/ Player.player_id me = ""
          \/ Player.player_id p <> Player.player_id me ->
        In (Player.player_id p)
           (map pc_data_player_id (opponentsEl (dom (renderGame state now c)))))
  /\ (forall id,
        In id (map pc_data_player_id (opponentsEl (dom (renderGame state now c)))) ->
        exists p, In p (State.players state) /\ Player.player_id p = id
          /\ Player.is_observer p = false
          /\ (String.eqb (State.viewer_role state) "observer" = false ->
              Player.player_id me <> "" -> id <> Player.player_id me))
  /\ map pc_elem (opponentsEl (dom (renderGame state now c)))
       = seq (nextElem c) (length (opponentsEl (dom (renderGame state now c))))
  /\ NoDup (map pc_elem (opponentsEl (dom (renderGame state now c)))).
Proof.
  intros Hme.
  assert (Hids : map pc_data_player_id (opponentsEl (dom (renderGame state now c)))
                 = map Player.player_id
                     (List.filter
                        (is_opponent (String.eqb (State.viewer_role state) "observer") me)
                        (State.players state))).
  { rewrite (cards_renderGame pc_data_player_id state me now c); try reflexivity; [| exact Hme].
    apply renderOpponents_map. reflexivity. }
  assert (Hel : map pc_elem (opponentsEl (dom (renderGame state now c)))
                = seq (nextElem c) (length (opponentsEl (dom (renderGame state now c))))).
  { rewrite <- (length_map pc_data_player_id (opponentsEl _)), Hids, length_map.
    rewrite (cards_renderGame pc_elem state me now c); try reflexivity; [| exact Hme].
    apply renderOpponents_elems. }
  split; [exact Hids |]. split; [| split; [| split; [exact Hel |]]].
  - intros p Hp Hobs Hother. rewrite Hids. apply in_map. apply filter_In.
    split; [exact Hp |]. unfold is_opponent. rewrite Hobs. cbn.
    destruct Hother as [-> | [-> | Hne]]; cbn; try reflexivity.
    + destruct (String.eqb (State.viewer_role state) "observer"); reflexivity.
    + destruct (String.eqb_spec (Player.player_id p) (Player.player_id me));
        [contradiction |].
      rewrite andb_false_r. reflexivity.
  - intros id Hin. rewrite Hids in Hin. apply in_map_iff in Hin.
    destruct Hin as (p & Hid & Hp). apply filter_In in Hp. destruct Hp as [Hp Hopp].
    exists p. split; [exact Hp |]. split; [exact Hid |].
    unfold is_opponent in Hopp. apply andb_true_iff in Hopp. destruct Hopp as [Ho Hs].
    split; [destruct (Player.is_observer p); [discriminate | reflexivity] |].
    intros Hv Hne Heq. subst id. rewrite Hv, Heq, String.eqb_refl in Hs.
    destruct (String.eqb_spec (Player.player_id me) ""); [contradiction |].
    discriminate.
  - rewrite Hel. apply NoDup_seq.
Qed.

Lemma opponents_row_members_witness :
  map pc_data_player_id (opponentsEl (dom busy_table)) = ["p-bob"; "p-carol"]
  /\ map pc_elem (opponentsEl (dom busy_table)) = [0; 1]%nat.
Proof.
  destruct (opponents_row_members busy_state alice 70000 (startup ∅ "u-1" blank_page) eq_refl)
    as (Hids & _ & _ & Hel & _).
  unfold busy_table. split.
  - rewrite Hids. reflexivity.
  - rewrite Hel. reflexivity.
Defined.

(** X2: a card carries the Remove button exactly when its player is reported
    with is_connected === false (a missing flag counts as connected), and
    then also the class "disconnected"; the button removes that player, and
    only after the user confirmed. *)
Theorem remove_button_on_disconnected (state : State.t) (me : Player.t) (now : Z)
    (c : Client) :
  State.me state = Some me ->
  Forall2
    (fun p pc =>
       has_class "disconnected" (pc_classes pc)
         = bool_decide (Player.is_connected p = Some false)
       /\ pc_kick pc
          = if bool_decide (Player.is_connected p = Some false)
            then Some {| btn_className := ["kick-btn"];
                         btn_innerText := "Remove";
                         btn_onclick := OnRemovePlayer (Player.player_id p) |}
            else None)
    (List.filter (is_opponent (String.eqb (State.viewer_role state) "observer") me)
       (State.players state))
    (opponentsEl (dom (renderGame state now c)))
  /\ (forall target now' c',
        run_handler (OnRemovePlayer target) false now' c' = c'
        /\ emitted (run_handler (OnRemovePlayer target) true now' c')
           = (emitted c' ++ [remove_player target])%list).
Proof.
  intros Hme. split; [| intros; split; reflexivity].
  pose (f := fun pc => (has_class "disconnected" (pc_classes pc), pc_kick pc)).
  pose (g := fun p =>
          (bool_decide (Player.is_connected p = Some false),
           if bool_decide (Player.is_connected p = Some false)
           then Some {| btn_className := ["kick-btn"];
                        btn_innerText := "Remove";
                        btn_onclick := OnRemovePlayer (Player.player_id p) |}
           else None)).
  assert (H : map f (opponentsEl (dom (renderGame state now c)))
              = map g (List.filter
                         (is_opponent (String.eqb (State.viewer_role state) "observer") me)
                         (State.players state))).
  { rewrite (cards_renderGame f state me now c); [| | | reflexivity | exact Hme].
    - apply renderOpponents_map. intros elem p. unfold f, g.
      cbn [pc_classes pc_kick renderOpponent]. f_equal.
      rewrite has_class_app.
      destruct (bool_decide (Player.is_connected p = Some false));
        destruct (Player.is_settled p); reflexivity.
    - intros pc. unfold f. cbn [pc_classes pc_kick card_remove_hit]. f_equal.
      apply has_class_remove_other. discriminate.
    - intros pc. unfold f. cbn [pc_classes pc_kick card_add_hit]. f_equal.
      apply has_class_add_other. discriminate. }
  apply Forall2_of_maps in H. eapply Forall2_impl; [exact H |].
  intros p pc. unfold f, g. intros [= H1 H2]. split; assumption.
Qed.

Lemma remove_button_on_disconnected_witness :
  map pc_kick (opponentsEl (dom busy_table))
  = [None; Some {| btn_className := ["kick-btn"]; btn_innerText := "Remove";
                   btn_onclick := OnRemovePlayer "p-carol" |}].
Proof.
  destruct (remove_button_on_disconnected busy_state alice 70000
              (startup ∅ "u-1" blank_page) eq_refl) as [H _].
  vm_compute in H. vm_compute.
  inversion H as [| ? ? ? ? [_ Hb] Ht]; subst.
  inversion Ht as [| ? ? ? ? [_ Hc] Hn]; subst.
  inversion Hn; subst. reflexivity.
Defined.

(** X3: an opponent's card offers the chip button exactly when the player's
    chip is a non-zero number (a chip of 0 reads as no chip); the button
    shows the value and takes that very chip from that very player. *)
Theorem opponent_chip_button (state : State.t) (me : Player.t) (now : Z) (c : Client) :
  State.me state = Some me ->
  Forall2
    (fun p pc =>
       pc_chip pc
       = match Player.chip p with
         | Some v =>
             if v =? 0 then None
             else Some {| btn_className := ["chip"; "chip-" +:+ toLowerCase (State.chip_color state)];
                          btn_innerText := "★ " +:+ show v;
                          btn_onclick := OnTakeChip v (Player.player_id p) |}
         | None => None
         end)
    (List.filter (is_opponent (String.eqb (State.viewer_role state) "observer") me)
       (State.players state))
    (opponentsEl (dom (renderGame state now c)))
  /\ (forall v source ok now' c',
        emitted (run_handler (OnTakeChip v source) ok now' c')
        = (emitted c' ++ [take_chip v source])%list).
Proof.
  intros Hme. split; [| reflexivity].
  apply (Forall2_of_maps pc_chip
           (fun p => match Player.chip p with
                     | Some v =>
                         if v =? 0 then None
                         else Some {| btn_className :=
                                        ["chip"; "chip-" +:+ toLowerCase (State.chip_color state)];
                                      btn_innerText := "★ " +:+ show v;
                                      btn_onclick := OnTakeChip v (Player.player_id p) |}
                     | None => None
                     end)).
  rewrite (cards_renderGame pc_chip state me now c); try reflexivity; [| exact Hme].
  apply renderOpponents_map. intros elem p. cbn [pc_chip renderOpponent].
  destruct (Player.chip p) as [v |]; cbn; [| reflexivity].
  destruct (v =? 0); reflexivity.
Qed.

Lemma opponent_chip_button_witness :
  map pc_chip (opponentsEl (dom busy_table))
  = [Some {| btn_className := ["chip"; "chip-white"]; btn_innerText := "★ 2";
             btn_onclick := OnTakeChip 2 "p-bob" |};
     None].
Proof.
  destruct (opponent_chip_button busy_state alice 70000
              (startup ∅ "u-1" blank_page) eq_refl) as [H _].
  vm_compute in H. vm_compute.
  inversion H as [| ? ? ? ? Hb Ht]; subst.
  inversion Ht as [| ? ? ? ? Hc Hn]; subst.
  inversion Hn; subst. reflexivity.
Defined.

Lemma fixed_renderGame state me now c :
  State.me state = Some me ->
  fixed (dom (renderGame state now c))
  = fixed (renderPage state me now (beforePage state c)).
Proof. intros Hme. apply (renderGame_joined state me now c Hme). Qed.

Lemma dom_beforePage state c : dom (beforePage state c) = dom c.
Proof.
  unfold beforePage, syncObserver. cbv zeta. repeat (case_match; cbn); reflexivity.
Qed.

(** X4: the viewer's own controls after a snapshot.  An observer can neither
    settle nor return nor pick, and sees no cards of their own.  A player can
    settle only while holding a chip (a chip of 0 reads as none), can return
    the chip only while not settled, and can pick from the bank only while
    not settled; the settle button reads "Cancel Settle" and is active
    exactly when the player is settled. *)
Theorem own_controls (state : State.t) (me : Player.t) (now : Z) (c : Client) :
  State.me state = Some me ->
  sb_disabled (settleBtn (dom (renderGame state now c)))
    = String.eqb (State.viewer_role state) "observer" || negb (truthyZ (Player.chip me))
  /\ returnBtn (dom (renderGame state now c))
     = String.eqb (State.viewer_role state) "observer"
       || negb (truthyZ (Player.chip me)) || Player.is_settled me
  /\ has_class "disabled" (chipBankClasses (dom (renderGame state now c)))
     = String.eqb (State.viewer_role state) "observer" || Player.is_settled me
  /\ has_class "active" (sb_classes (settleBtn (dom (renderGame state now c))))
     = negb (String.eqb (State.viewer_role state) "observer") && Player.is_settled me
  /\ sb_innerText (settleBtn (dom (renderGame state now c)))
     = (if negb (String.eqb (State.viewer_role state) "observer") && Player.is_settled me
        then "Cancel Settle" else "I'm Settled")
  /\ (String.eqb (State.viewer_role state) "observer" = true ->
      myCardsEl (dom (renderGame state now c)) = []
      /\ myHistoryEl (dom (renderGame state now c)) = []
      /\ myChipSlot (dom (renderGame state now c)) = SlotPlaceholder "Observer")
  /\ (String.eqb (State.viewer_role state) "observer" = false ->
      Player.chip me = None \/ Player.chip me = Some 0 ->
      myChipSlot (dom (renderGame state now c)) = SlotPlaceholder "Pick a chip").
Proof.
  intros Hme. pose proof (fixed_renderGame state me now c Hme) as H.
  unfold fixed in H.
  injection H as _ _ _ _ _ _ _ Hbank _ _ _ _ _ _ _ Hcards Hhist Hslot Hsettle Hret.
  rewrite Hbank, Hcards, Hhist, Hslot, Hsettle, Hret. clear.
  cbn [renderPage chipBankClasses myCardsEl myHistoryEl myChipSlot settleBtn returnBtn
       sb_disabled sb_innerText sb_classes].
  destruct (String.eqb (State.viewer_role state) "observer"),
           (Player.is_settled me) eqn:Es, (truthyZ (Player.chip me)) eqn:Ec;
    cbn [negb andb orb];
    rewrite ?has_class_add_same, ?has_class_remove;
    repeat split; try discriminate; try reflexivity;
    intros _ [E | E]; rewrite E in Ec; try discriminate; rewrite ?E; reflexivity.
Qed.

Lemma own_controls_witness :
  myChipSlot (dom (renderGame (with_score 0 0 lobby_watch) 5 (startup ∅ "u-1" blank_page)))
    = SlotPlaceholder "Observer"
  /\ myChipSlot (dom busy_table) = SlotPlaceholder "Pick a chip".
Proof.
  split.
  - apply (proj1 (proj2 (proj2 (proj2 (proj2 (proj2
             (own_controls (with_score 0 0 lobby_watch) dave 5
                (startup ∅ "u-1" blank_page) eq_refl))))))).
    reflexivity.
  - apply (proj2 (proj2 (proj2 (proj2 (proj2 (proj2
             (own_controls busy_state alice 70000
                (startup ∅ "u-1" blank_page) eq_refl))))))).
    + reflexivity.
    + left. reflexivity.
Defined.

Lemma filter_three_way {A} (f g h : A -> bool) (l : list A) :
  (forall x, (f x, g x, h x) = (true, false, false)
             \/ (f x, g x, h x) = (false, true, false)
             \/ (f x, g x, h x) = (false, false, true)) ->
  (length (List.filter f l) + length (List.filter g l) + length (List.filter h l)
   = length l)%nat.
Proof.
  intros H. induction l as [| x l IH]; cbn; [reflexivity |].
  destruct (H x) as [[= -> -> ->] | [[= -> -> ->] | [= -> -> ->]]]; cbn; lia.
Qed.

(** X5: nobody in the snapshot is lost.  Every player is shown exactly once:
    on a card of the opponents row, on a pill of the observer list, or not at
    all because it is the viewer's own seat; the list reads "No observers"
    exactly when no player observes. *)
Theorem everyone_is_seated (state : State.t) (me : Player.t) (now : Z) (c : Client) :
  State.me state = Some me ->
  (length (opponentsEl (dom (renderGame state now c)))
   + pill_count (observerListEl (dom (renderGame state now c)))
   + length (List.filter
               (is_own_seat (String.eqb (State.viewer_role state) "observer") me)
               (State.players state))
   = length (State.players state))%nat
  /\ (observerListEl (dom (renderGame state now c)) = NoObservers
      <-> forall p, In p (State.players state) -> Player.is_observer p = false).
Proof.
  intros Hme.
  assert (Hobs : observerListEl (dom (renderGame state now c))
                 = match List.filter Player.is_observer (State.players state) with
                   | [] => NoObservers
                   | _ =>
                       Pills (map (observerPill
                                     (String.eqb (State.viewer_role state) "observer") me)
                                (List.filter Player.is_observer (State.players state)))
                   end).
  { pose proof (fixed_renderGame state me now c Hme) as H. unfold fixed in H.
    injection H as _ _ _ _ _ _ _ _ _ Hobs _ _ _ _ _ _ _ _ _ _. exact Hobs. }
  split.
  - rewrite <- (length_map pc_data_player_id (opponentsEl _)).
    rewrite (cards_renderGame pc_data_player_id state me now c); try reflexivity;
      [| exact Hme].
    rewrite (renderOpponents_map pc_data_player_id Player.player_id) by reflexivity.
    rewrite length_map.
    assert (Hp : pill_count (observerListEl (dom (renderGame state now c)))
                 = length (List.filter Player.is_observer (State.players state))).
    { rewrite Hobs. destruct (List.filter _ _) eqn:E; [reflexivity |].
      cbn [pill_count]. apply length_map. }
    rewrite Hp. apply filter_three_way. intros p. unfold is_opponent, is_own_seat.
    destruct (Player.is_observer p); cbn; [auto |].
    destruct (negb _ && negb _ && _); cbn; auto.
  - rewrite Hobs. split.
    + intros H p Hp. destruct (Player.is_observer p) eqn:E; [| reflexivity].
      assert (Hin : In p (List.filter Player.is_observer (State.players state)))
        by (apply filter_In; auto).
      destruct (List.filter _ _); [destruct Hin | discriminate].
    + intros H. destruct (List.filter _ _) as [| o os] eqn:E; [reflexivity |].
      assert (Hin : In o (List.filter Player.is_observer (State.players state)))
        by (rewrite E; left; reflexivity).
      apply filter_In in Hin. destruct Hin as [Hin Ho].
      rewrite (H o Hin) in Ho. discriminate.
Qed.

Lemma everyone_is_seated_witness :
  (length (opponentsEl (dom busy_table)) + pill_count (observerListEl (dom busy_table)) + 1
   = 4)%nat.
Proof.
  exact (proj1 (everyone_is_seated busy_state alice 70000
                  (startup ∅ "u-1" blank_page) eq_refl)).
Defined.

Lemma append_empty_r (s : string) : s +:+ "" = s.
Proof.
  induction s as [| a s IH]; [reflexivity |].
  change (String a (s +:+ "") = String a s). rewrite IH. reflexivity.
Qed.

(** X6: the chat log mirrors the snapshot: one line per message, in order,
    with the sender's name, tagged " (Observer)" for observers, and the text
    as sent; a snapshot without chat_messages empties the log, and a page
    without the log element is left without one. *)
Theorem chat_log_mirrors_snapshot (state : State.t) (me : Player.t) (now : Z)
    (c : Client) :
  State.me state = Some me ->
  (chatMessagesEl (dom c) = None -> chatMessagesEl (dom (renderGame state now c)) = None)
  /\ (chatMessagesEl (dom c) <> None ->
      exists lines,
        chatMessagesEl (dom (renderGame state now c)) = Some lines
        /\ Forall2
             (fun msg line =>
                cl_text line = ChatMsg.text msg
                /\ cl_name line
                   = if ChatMsg.is_observer msg
                     then ChatMsg.name msg +:+ " (Observer)"
                     else ChatMsg.name msg)
             (default [] (State.chat_messages state)) lines).
Proof.
  intros Hme. pose proof (fixed_renderGame state me now c Hme) as H. unfold fixed in H.
  injection H as _ _ _ _ _ _ _ _ _ _ _ _ Hchat _ _ _ _ _ _ _.
  rewrite Hchat, dom_beforePage. cbn [renderPage chatMessagesEl]. split.
  - intros ->. reflexivity.
  - intros Hsome. destruct (chatMessagesEl (dom c)); [| contradiction].
    eexists. split; [reflexivity |].
    apply Forall2_map_r. intros msg. cbn. split; [reflexivity |].
    destruct (ChatMsg.is_observer msg); [reflexivity |].
    apply append_empty_r.
Qed.

Lemma chat_log_mirrors_snapshot_witness :
  chatMessagesEl (dom busy_table)
  = Some [{| cl_name := "Bob"; cl_text := "hi" |};
          {| cl_name := "Dave (Observer)"; cl_text := "gl" |}].
Proof.
  destruct (proj2 (chat_log_mirrors_snapshot busy_state alice 70000
                     (startup ∅ "u-1" blank_page) eq_refl)) as (lines & Hl & Hf).
  - discriminate.
  - unfold busy_table. rewrite Hl. f_equal. vm_compute in Hf.
    inversion Hf as [| ? l1 ? ? [Ht1 Hn1] Hf1]; subst.
    inversion Hf1 as [| ? l2 ? ? [Ht2 Hn2] Hf2]; subst.
    inversion Hf2; subst.
    destruct l1, l2. cbn in *. congruence.
Defined.

(** ** The disconnect timers *)

Lemma updateDisconnectedTimers_cards now c :
  opponentsEl (dom (updateDisconnectedTimers now c))
  = map (fun pc =>
           match pc_status pc with
           | Disconnected at_ _ =>
               if Qle_bool at_ 0 then pc
               else card_set_status (Disconnected at_ (disc_text now at_)) pc
           | _ => pc
           end) (opponentsEl (dom c)).
Proof. reflexivity. Qed.

Lemma tick_after_tick now now' (l : list PlayerCard) :
  map (fun pc =>
         match pc_status pc with
         | Disconnected at_ _ =>
             if Qle_bool at_ 0 then pc
             else card_set_status (Disconnected at_ (disc_text now' at_)) pc
         | _ => pc
         end)
    (map (fun pc =>
            match pc_status pc with
            | Disconnected at_ _ =>
                if Qle_bool at_ 0 then pc
                else card_set_status (Disconnected at_ (disc_text now at_)) pc
            | _ => pc
            end) l)
  = map (fun pc =>
           match pc_status pc with
           | Disconnected at_ _ =>
               if Qle_bool at_ 0 then pc
               else card_set_status (Disconnected at_ (disc_text now' at_)) pc
           | _ => pc
           end) l.
Proof.
  rewrite map_map. apply map_ext. intros pc.
  destruct (pc_status pc) as [a t | |] eqn:E; rewrite ?E; try reflexivity.
  destruct (Qle_bool a 0) eqn:Ea; rewrite ?E, ?Ea; [reflexivity |].
  cbn [pc_status card_set_status]. rewrite Ea. reflexivity.
Qed.

Lemma updateDisconnectedTimers_last now now' c :
  updateDisconnectedTimers now' (updateDisconnectedTimers now c)
  = updateDisconnectedTimers now' c.
Proof.
  unfold updateDisconnectedTimers, over_dom.
  cbn [dom set_dom opponentsEl set_opponentsEl].
  rewrite tick_after_tick. destruct c as [? ? ? ? ? d]. destruct d. reflexivity.
Qed.

(** X7: the disconnect timers.  A tick rewrites the elapsed time of the cards
    of disconnected players whose disconnect time is positive and touches
    nothing else on a card; the latest tick wins over earlier ones; and a
    tick at the moment of a rendering changes nothing, since the rendering
    ends with one. *)
Theorem disconnect_timers_tick (now : Z) (c : Client) :
  Forall2
    (fun pc pc' =>
       match pc_status pc with
       | Disconnected at_ text =>
           pc' = card_set_status
                   (Disconnected at_ (if Qle_bool at_ 0 then text else disc_text now at_)) pc
       | _ => pc' = pc
       end)
    (opponentsEl (dom c))
    (opponentsEl (dom (handle Interval_tick now c)))
  /\ (forall now',
        handle Interval_tick now' (handle Interval_tick now c)
        = handle Interval_tick now' c)
  /\ (forall state me,
        State.me state = Some me ->
        handle Interval_tick now (renderGame state now c) = renderGame state now c).
Proof.
  split; [| split].
  - cbn [handle]. rewrite updateDisconnectedTimers_cards.
    apply Forall2_map_r. intros pc.
    destruct (pc_status pc) as [a t | |] eqn:E; try reflexivity.
    destruct (Qle_bool a 0); [| reflexivity].
    destruct pc; cbn in *. subst. reflexivity.
  - intros now'. apply updateDisconnectedTimers_last.
  - intros state me Hme. cbn [handle]. unfold renderGame. rewrite Hme. cbv zeta.
    apply updateDisconnectedTimers_last.
Qed.

Lemma disconnect_timers_tick_witness :
  map pc_status (opponentsEl (dom (handle Interval_tick 75000 busy_table)))
    = [Thinking; Disconnected (10 # 1) " (1m 5s)"]
  /\ handle Interval_tick 70000 busy_table = busy_table.
Proof.
  split; [reflexivity |].
  exact (proj2 (proj2 (disconnect_timers_tick 70000 (startup ∅ "u-1" blank_page)))
           busy_state alice eq_refl).
Defined.

(** ** Actions *)

Lemma emitted_frame c c' : frame c c' -> emitted c' = emitted c.
Proof. intros H. apply core_of_frame in H. tauto. Qed.

Lemma core_beforePage state c :
  emitted (beforePage state c) = emitted c
  /\ myName (beforePage state c) = myName c
  /\ playerId (beforePage state c) = playerId c
  /\ (forall k, k <> "observer_mode" ->
        localStorage (beforePage state c) !! k = localStorage c !! k).
Proof.
  unfold beforePage, syncObserver, localStorage_setItem. cbv zeta.
  repeat (case_match; cbn); repeat split; try reflexivity;
    intros k Hk; rewrite lookup_insert_ne; auto.
Qed.

Lemma emitted_renderGame state now c : emitted (renderGame state now c) = emitted c.
Proof.
  destruct (State.me state) as [me |] eqn:Hme.
  - rewrite (emitted_frame _ _ (renderGame_joined state me now c Hme)).
    cbn. apply core_beforePage.
  - rewrite (renderGame_not_joined state now c Hme). reflexivity.
Qed.

Lemma emitted_toggleResultDetails now c : emitted (toggleResultDetails now c) = emitted c.
Proof.
  unfold toggleResultDetails. cbv zeta. cbn [lastState set_showResultDetails].
  destruct (lastState c); [rewrite emitted_renderGame |]; reflexivity.
Qed.

Lemma emitted_handle i now c : emitted (handle i now c) = (emitted c ++ outgoing i c)%list.
Proof.
  assert (Hf : forall c', frame c c' -> emitted c' = (emitted c ++ [])%list).
  { intros c' Hc'. rewrite app_nil_r. apply emitted_frame, Hc'. }
  destruct i; cbn [handle outgoing]; try reflexivity;
    try (apply Hf; auto with frame; fail);
    try (rewrite app_nil_r; reflexivity).
  - rewrite app_nil_r. apply emitted_renderGame.
  - apply Hf. unfold on_tomato_event.
    destruct (lastState c) as [st |]; [| auto with frame].
    destruct (State.me st); [| auto with frame].
    apply frame_applyTomatoEffect.
    apply (frame_set_playerAreaEl (option_map _ (playerAreaEl (dom c)))), frame_refl.
  - unfold chatForm_submit. cbv zeta. case_match; [rewrite app_nil_r |]; reflexivity.
  - destruct h; cbn [run_handler]; try reflexivity.
    + unfold restartGame. destruct ok; [| rewrite app_nil_r]; reflexivity.
    + rewrite app_nil_r. apply emitted_toggleResultDetails.
    + unfold removePlayer. destruct ok; [| rewrite app_nil_r]; reflexivity.
    + rewrite app_nil_r. unfold toggleTomatoMenu. cbv zeta.
      repeat (case_match; cbn); reflexivity.
  - unfold changeName. cbv zeta.
    destruct (String.eqb (trim (nameInput (dom c))) ""); cbn; rewrite ?app_nil_r; reflexivity.
  - unfold toggleObserver. destruct (isObserver c), ok; cbn; rewrite ?app_nil_r; reflexivity.
  - destruct (tomatoMenu (dom c)) as [m |] eqn:Em; [| rewrite app_nil_r; reflexivity].
    unfold tomatoMenuBtn_click, removeMenu. cbn. rewrite Em, Nat.eqb_refl. reflexivity.
  - rewrite app_nil_r. destruct (tomatoMenu (dom c)) as [m |] eqn:Em; [| reflexivity].
    unfold closeOnOutsideClick, removeMenu. rewrite Em, Nat.eqb_refl. reflexivity.
  - unfold fire. repeat case_match; rewrite ?app_nil_r; try reflexivity.
    transitivity (emitted (clearTimeout id c)); [| reflexivity].
    apply emitted_frame. destruct (callback _); cbn [run_callback]; auto with frame.
  - rewrite app_nil_r. repeat case_match; reflexivity.
Qed.

(** X8: the socket log only grows, by at most one event per input, and only
    when the user asks for something or the server requests a join: what an
    input sends is given by [outgoing], and snapshots, errors, tomato events,
    typing, timers, animation ends, clock ticks, stray clicks and the two
    view toggles send nothing. *)
Theorem only_requests_are_sent (i : Input) (now : Z) (c : Client) :
  emitted (handle i now c) = (emitted c ++ outgoing i c)%list
  /\ (length (outgoing i c) <= 1)%nat
  /\ (silent i = true -> emitted (handle i now c) = emitted c).
Proof.
  split; [apply emitted_handle |]. split.
  - destruct i; cbn; try lia; repeat case_match; cbn; lia.
  - intros Hs. rewrite emitted_handle.
    destruct i; try discriminate; cbn [outgoing]; try apply app_nil_r.
    destruct h; try discriminate; apply app_nil_r.
Qed.

Lemma only_requests_are_sent_witness :
  emitted (handle (Tomato_event sample_tomato) 1500 result_table) = emitted result_table
  /\ emitted (run rename_trace (startup ∅ "u-1" blank_page))
     = [change_name "Zoe"; join_game "u-1" "Zoe" true; chat_message "hello"].
Proof.
  split.
  - apply (proj2 (proj2 (only_requests_are_sent (Tomato_event sample_tomato) 1500
                           result_table))). reflexivity.
  - reflexivity.
Defined.

(** *** Trimming *)

Lemma trimStart_no_leading s : no_leading_space (trimStart s).
Proof.
  induction s as [| a s IH]; cbn; [exact I |].
  destruct (isWhiteSpace a) eqn:E; [exact IH | exact E].
Qed.

Lemma trimStart_fixed s : no_leading_space s -> trimStart s = s.
Proof. destruct s as [| a s]; cbn; [reflexivity |]. intros ->. reflexivity. Qed.

Lemma trimEnd_keeps_head s : no_leading_space s -> no_leading_space (trimEnd s).
Proof.
  destruct s as [| a s]; cbn; [auto |]. intros E.
  destruct (trimEnd s); [rewrite E |]; exact E.
Qed.

Lemma trimEnd_twice s : trimEnd (trimEnd s) = trimEnd s.
Proof.
  induction s as [| a s IH]; [reflexivity |].
  cbn [trimEnd]. destruct (trimEnd s) as [| b t] eqn:E.
  - destruct (isWhiteSpace a) eqn:Ea; [reflexivity |].
    cbn [trimEnd]. rewrite Ea. reflexivity.
  - cbn [trimEnd] in *. rewrite IH. reflexivity.
Qed.

Lemma trimEnd_no_trailing s : no_trailing_space (trimEnd s).
Proof.
  induction s as [| a s IH]; [exact I |].
  cbn [trimEnd]. destruct (trimEnd s) as [| b t] eqn:E.
  - destruct (isWhiteSpace a) eqn:Ea; [exact I | exact Ea].
  - exact IH.
Qed.

Lemma trim_twice s : trim (trim s) = trim s.
Proof.
  unfold trim.
  rewrite (trimStart_fixed (trimEnd (trimStart s)))
    by apply trimEnd_keeps_head, trimStart_no_leading.
  apply trimEnd_twice.
Qed.

Lemma handle_sent_ok i now c :
  Forall sent_ok (emitted c) -> Forall sent_ok (emitted (handle i now c)).
Proof.
  intros H. rewrite emitted_handle. apply Forall_app. split; [exact H |].
  destruct i; cbn [outgoing]; repeat constructor.
  - destruct (String.eqb_spec (trim (chatInput (dom c))) ""); repeat constructor.
    + assumption.
    + apply trim_twice.
  - destruct h; repeat case_match; repeat constructor.
  - destruct (String.eqb_spec (trim (nameInput (dom c))) ""); repeat constructor.
    + assumption.
    + apply trim_twice.
  - repeat case_match; repeat constructor.
  - repeat case_match; repeat constructor.
Qed.

(** X9: whatever the user types, a chat text or a name leaves the client
    trimmed and not empty: it starts and ends with something other than
    white space, and trimming it again changes nothing. *)
Theorem sent_texts_are_trimmed (ls : gmap string string) (uuid : string) (page : Dom)
    (trace : list (Z * Input)) :
  Forall
    (fun e =>
       forall text, e = chat_message text \/ e = change_name text ->
         text <> "" /\ trim text = text
         /\ no_leading_space text /\ no_trailing_space text)
    (emitted (run trace (startup ls uuid page))).
Proof.
  assert (H : Forall sent_ok (emitted (run trace (startup ls uuid page)))).
  { assert (H0 : Forall sent_ok (emitted (startup ls uuid page))) by constructor.
    revert H0. generalize (startup ls uuid page).
    induction trace as [| [now i] trace IH]; intros c Hc; cbn [run]; [exact Hc |].
    apply IH, handle_sent_ok, Hc. }
  eapply Forall_impl; [exact H |]. intros e He text [-> | ->];
    destruct He as [Hne Htrim]; (split; [exact Hne |]); (split; [exact Htrim |]);
    rewrite <- Htrim; unfold trim; split;
    try apply trimEnd_keeps_head, trimStart_no_leading; apply trimEnd_no_trailing.
Qed.

(** X10: changeName ignores a blank input.  Otherwise it keeps the trimmed
    name in memory and under "player_name", sends it once, empties the input
    field, leaves the identity alone, and the next join announces the new
    name. *)
Theorem changeName_trims_and_stores (c : Client) :
  (trim (nameInput (dom c)) = "" -> changeName c = c)
  /\ (trim (nameInput (dom c)) <> "" ->
      myName (changeName c) = trim (nameInput (dom c))
      /\ localStorage (changeName c) !! "player_name" = Some (trim (nameInput (dom c)))
      /\ emitted (changeName c)
         = (emitted c ++ [change_name (trim (nameInput (dom c)))])%list
      /\ nameInput (dom (changeName c)) = ""
      /\ playerId (changeName c) = playerId c
      /\ localStorage (changeName c) !! "player_id" = localStorage c !! "player_id"
      /\ emitted (on_request_join (changeName c))
         = (emitted c ++ [change_name (trim (nameInput (dom c)));
                          join_game (playerId c) (trim (nameInput (dom c))) (isObserver c)])%list).
Proof.
  unfold changeName. cbv zeta.
  destruct (String.eqb_spec (trim (nameInput (dom c))) "") as [E | E]; cbn [negb].
  - split; [reflexivity | intros H; contradiction].
  - split; [intros H; contradiction | intros _].
    unfold on_request_join, localStorage_setItem. cbn.
    rewrite lookup_insert_eq, lookup_insert_ne by discriminate.
    rewrite <- app_assoc. repeat split; reflexivity.
Qed.

Lemma changeName_trims_and_stores_witness :
  changeName (over_dom (set_nameInput "   ") result_table)
    = over_dom (set_nameInput "   ") result_table
  /\ myName (changeName (over_dom (set_nameInput " Zoe ") result_table)) = "Zoe".
Proof.
  split.
  - apply (proj1 (changeName_trims_and_stores _)). reflexivity.
  - apply (proj2 (changeName_trims_and_stores
                    (over_dom (set_nameInput " Zoe ") result_table))).
    vm_compute. discriminate.
Defined.

Lemma sent_texts_are_trimmed_witness :
  trim "hello" = "hello" /\ no_trailing_space "hello".
Proof.
  pose proof (sent_texts_are_trimmed ∅ "u-1" blank_page rename_trace) as H.
  change (emitted (run rename_trace (startup ∅ "u-1" blank_page)))
    with [change_name "Zoe"; join_game "u-1" "Zoe" true; chat_message "hello"] in H.
  inversion H as [| ? ? _ H1]; subst. inversion H1 as [| ? ? _ H2]; subst.
  inversion H2 as [| ? ? H3 _]; subst.
  destruct (H3 "hello" (or_introl eq_refl)) as (_ & Ht & _ & Hn).
  split; [exact Ht | exact Hn].
Defined.

(** *** Reloading the page *)

Lemma handle_name_synced i now c : name_synced c -> name_synced (handle i now c).
Proof.
  unfold name_synced. intros H.
  assert (Hf : forall c', frame c c' ->
             myName c' = default "" (localStorage c' !! "player_name")).
  { intros c' Hc'. apply core_of_frame in Hc'.
    destruct Hc' as (-> & _ & _ & -> & _). exact H. }
  assert (Hr : forall st c0,
             myName c0 = default "" (localStorage c0 !! "player_name") ->
             myName (renderGame st now c0)
             = default "" (localStorage (renderGame st now c0) !! "player_name")).
  { intros st c0 H0. destruct (State.me st) as [me |] eqn:Hme.
    - destruct (core_of_frame _ _ (renderGame_joined st me now c0 Hme))
        as (-> & _ & _ & -> & _).
      cbn [localStorage myName set_dom].
      destruct (core_beforePage st c0) as (_ & -> & _ & Hls).
      rewrite Hls by discriminate. exact H0.
    - rewrite (renderGame_not_joined st now c0 Hme). exact H0. }
  destruct i; cbn [handle]; try exact H; try (apply Hf; auto with frame; fail).
  - apply Hr, H.
  - apply Hf. unfold on_tomato_event.
    destruct (lastState c) as [st |]; [| auto with frame].
    destruct (State.me st); [| auto with frame].
    apply frame_applyTomatoEffect.
    apply (frame_set_playerAreaEl (option_map _ (playerAreaEl (dom c)))), frame_refl.
  - unfold chatForm_submit. cbv zeta. case_match; exact H.
  - destruct h; cbn [run_handler]; try exact H.
    + unfold restartGame. case_match; exact H.
    + unfold toggleResultDetails. cbv zeta. cbn [lastState set_showResultDetails].
      destruct (lastState c); [apply Hr |]; exact H.
    + unfold removePlayer. case_match; exact H.
    + unfold toggleTomatoMenu. cbv zeta. repeat (case_match; cbn); exact H.
  - unfold changeName, localStorage_setItem. cbv zeta. case_match; [| exact H].
    cbn. rewrite lookup_insert_eq. reflexivity.
  - unfold toggleObserver, setObserverMode, localStorage_setItem.
    repeat case_match; try exact H; cbn; rewrite lookup_insert_ne by discriminate; exact H.
  - destruct (tomatoMenu (dom c)) as [m |] eqn:Em; [| exact H].
    unfold tomatoMenuBtn_click, removeMenu. repeat (case_match; cbn); exact H.
  - destruct (tomatoMenu (dom c)) as [m |] eqn:Em; [| exact H].
    unfold closeOnOutsideClick, removeMenu. repeat (case_match; cbn); exact H.
  - unfold fire. repeat case_match; try exact H.
    match goal with |- myName (run_callback ?cb ?x) = _ =>
      assert (Hx : frame c (run_callback cb x))
        by (destruct cb; cbn [run_callback]; auto with frame);
      apply (Hf _ Hx)
    end.
  - repeat case_match; exact H.
Qed.

Lemma run_name_synced trace c : name_synced c -> name_synced (run trace c).
Proof.
  revert c. induction trace as [| [now i] trace IH]; intros c Hc; cbn [run]; [exact Hc |].
  apply IH, handle_name_synced, Hc.
Qed.

(** X11: a reload restores the session.  After any run of the client, starting
    the script again on the storage it left behind gives back the same
    player id (when it is not empty), the same name and the same observer
    mode, draws no new id and writes nothing. *)
Theorem reload_restores_session (ls : gmap string string) (uuid uuid' : string)
    (page page' : Dom) (trace : list (Z * Input)) :
  playerId (startup ls uuid page) <> "" ->
  playerId (startup (localStorage (run trace (startup ls uuid page))) uuid' page')
    = playerId (run trace (startup ls uuid page))
  /\ myName (startup (localStorage (run trace (startup ls uuid page))) uuid' page')
     = myName (run trace (startup ls uuid page))
  /\ isObserver (startup (localStorage (run trace (startup ls uuid page))) uuid' page')
     = isObserver (run trace (startup ls uuid page))
  /\ localStorage (startup (localStorage (run trace (startup ls uuid page))) uuid' page')
     = localStorage (run trace (startup ls uuid page)).
Proof.
  intros Hne.
  set (c := run trace (startup ls uuid page)).
  assert (Hreach : reachable c) by apply run_reachable, reach_startup.
  destruct (reachable_Inv c Hreach) as ([Hid _] & Hobs & _).
  assert (Hname : name_synced c).
  { apply run_name_synced. unfold name_synced, startup. reflexivity. }
  assert (Hpid : playerId c <> "").
  { unfold c. rewrite run_playerId. exact Hne. }
  unfold startup. cbn. rewrite Hid. cbn.
  destruct (String.eqb_spec (playerId c) ""); [contradiction |]. cbn.
  repeat split.
  - symmetry. exact Hname.
  - exact Hobs.
Qed.

Lemma reload_restores_session_witness :
  myName (startup (localStorage (run rename_trace (startup ∅ "u-1" blank_page)))
            "u-2" blank_page) = "Zoe"
  /\ playerId (startup (localStorage (run rename_trace (startup ∅ "u-1" blank_page)))
                 "u-2" blank_page) = "u-1".
Proof.
  destruct (reload_restores_session ∅ "u-1" "u-2" blank_page blank_page rename_trace)
    as (Hp & Hn & _).
  - vm_compute. discriminate.
  - split; [rewrite Hn | rewrite Hp]; reflexivity.
Defined.

(** X12: the observer button does what its label says.  After a snapshot for
    a joined viewer the button reads "Join Game" exactly when the client is in
    observer mode; pressing it then rejoins as a player without asking, while
    pressing "Observe" moves to an observer seat only after the user
    confirmed, and does nothing when the user declined. *)
Theorem observer_button_matches_mode (state : State.t) (me : Player.t) (now : Z)
    (c : Client) :
  State.me state = Some me ->
  (observerBtn (dom (renderGame state now c)) = "Join Game"
   <-> isObserver (renderGame state now c) = true)
  /\ (observerBtn (dom (renderGame state now c)) = "Observe"
      <-> isObserver (renderGame state now c) = false)
  /\ (isObserver (renderGame state now c) = true ->
      forall ok,
        isObserver (toggleObserver ok (renderGame state now c)) = false
        /\ emitted (toggleObserver ok (renderGame state now c))
           = (emitted c ++ [join_game (playerId c) (myName c) false])%list)
  /\ (isObserver (renderGame state now c) = false ->
      toggleObserver false (renderGame state now c) = renderGame state now c
      /\ isObserver (toggleObserver true (renderGame state now c)) = true
      /\ storedObserver (toggleObserver true (renderGame state now c)) = true
      /\ emitted (toggleObserver true (renderGame state now c))
         = (emitted c ++ [join_game (playerId c) (myName c) true])%list).
Proof.
  intros Hme.
  pose proof (fixed_renderGame state me now c Hme) as H. unfold fixed in H.
  injection H as _ _ _ _ _ _ _ _ _ _ _ Hbtn _ _ _ _ _ _ _ _.
  destruct (core_of_frame _ _ (renderGame_joined state me now c Hme))
    as (_ & _ & Hpid & Hname & Hobs & _).
  cbn [playerId myName isObserver set_dom] in Hpid, Hname, Hobs.
  destruct (core_beforePage state c) as (_ & Hn & Hp & _).
  rewrite Hn in Hname. rewrite Hp in Hpid.
  assert (Hv : isObserver (renderGame state now c)
               = String.eqb (State.viewer_role state) "observer").
  { rewrite Hobs. unfold beforePage. cbv zeta. apply isObserver_syncObserver. }
  rewrite Hbtn. cbn [renderPage observerBtn]. rewrite Hv.
  pose proof (emitted_renderGame state now c) as Hem.
  unfold toggleObserver, setObserverMode, storedObserver. rewrite Hv.
  destruct (String.eqb (State.viewer_role state) "observer"); cbn [negb];
    repeat split; try discriminate; try reflexivity; try (intros ?; discriminate);
    cbn; rewrite ?Hpid, ?Hname, ?Hem, ?lookup_insert_eq; reflexivity.
Qed.

Lemma observer_button_matches_mode_witness :
  observerBtn (dom busy_table) = "Observe"
  /\ isObserver (toggleObserver true busy_table) = true.
Proof.
  destruct (observer_button_matches_mode busy_state alice 70000
              (startup ∅ "u-1" blank_page) eq_refl) as (_ & Hlabel & _ & Hplay).
  split.
  - apply (proj2 Hlabel). reflexivity.
  - apply Hplay. reflexivity.
Defined.

(** *** The result header *)

(** X13: the header after a snapshot.  In the LOBBY it reads "Waiting for
    Players...", in any other phase but RESULT the phase and the chip colour.
    In the RESULT phase it shows the message (empty when missing), in green
    exactly when the message contains SUCCESS or WIN, and three buttons:
    the first starts the next heist, the second restarts the game only after
    the user confirmed, the third flips the details flag and sends nothing. *)
Theorem result_header_controls (state : State.t) (me : Player.t) (now : Z) (c : Client) :
  State.me state = Some me ->
  (State.phase state = "LOBBY" ->
     phaseEl (dom (renderGame state now c)) = PhaseText "Waiting for Players...")
  /\ (State.phase state <> "LOBBY" -> State.phase state <> "RESULT" ->
      phaseEl (dom (renderGame state now c))
      = PhaseText (State.phase state +:+ " - " +:+ State.chip_color state +:+ " Chips"))
  /\ (State.phase state = "RESULT" ->
      exists color details,
        phaseEl (dom (renderGame state now c))
        = PhaseResult color (default "" (State.result_message state))
            [{| btn_className := []; btn_innerText := "Next Heist";
                btn_onclick := OnStartGame |};
             {| btn_className := []; btn_innerText := "Restart Game (Reset 0/0)";
                btn_onclick := OnRestartGame |};
             {| btn_className := [];
                btn_innerText := if showResultDetails c then "Hide Detailed Rankings"
                                 else "Show Detailed Rankings";
                btn_onclick := OnToggleResultDetails |}]
            details
        /\ (color = "#2ecc71" \/ color = "#e74c3c")
        /\ (color = "#2ecc71"
            <-> includes "SUCCESS" (default "" (State.result_message state)) = true
                \/ includes "WIN" (default "" (State.result_message state)) = true))
  /\ (forall ok now' c',
        emitted (run_handler OnStartGame ok now' c') = (emitted c' ++ [start_game])%list
        /\ run_handler OnRestartGame false now' c' = c'
        /\ emitted (run_handler OnRestartGame true now' c')
           = (emitted c' ++ [restart_game])%list
        /\ emitted (run_handler OnToggleResultDetails ok now' c') = emitted c'
        /\ showResultDetails (run_handler OnToggleResultDetails ok now' c')
           = negb (showResultDetails c')).
Proof.
  intros Hme. rewrite (phaseEl_renderGame state me now c Hme). unfold renderPhase.
  split; [| split; [| split]].
  - intros ->. reflexivity.
  - intros Hl Hr.
    destruct (String.eqb_spec (State.phase state) "RESULT"); [contradiction |].
    destruct (String.eqb_spec (State.phase state) "LOBBY"); [contradiction |].
    reflexivity.
  - intros ->. cbn [String.eqb]. eexists. eexists. split; [reflexivity |].
    destruct (includes "SUCCESS" _), (includes "WIN" _); cbn; split; auto;
      split; auto; try discriminate; intros [H | H]; discriminate.
  - intros ok now' c'. cbn [run_handler].
    repeat split; try reflexivity.
    + apply emitted_toggleResultDetails.
    + apply showResultDetails_toggle.
Qed.

Lemma result_header_controls_witness :
  phaseEl (dom (renderGame lobby_watch 5 (startup ∅ "u-1" blank_page)))
    = PhaseText "Waiting for Players..."
  /\ phaseEl (dom busy_table) = PhaseText "FLOP - White Chips"
  /\ exists details rest,
       phaseEl (dom result_table) = PhaseResult "#2ecc71" "HEIST SUCCESS" rest details.
Proof.
  split; [| split].
  - apply (proj1 (result_header_controls lobby_watch dave 5
                    (startup ∅ "u-1" blank_page) eq_refl)). reflexivity.
  - apply (proj1 (proj2 (result_header_controls busy_state alice 70000
                           (startup ∅ "u-1" blank_page) eq_refl))); discriminate.
  - destruct (proj1 (proj2 (proj2 (result_header_controls sample_state alice 1000
                                     (startup ∅ "u-1" blank_page) eq_refl))) eq_refl)
      as (color & details & Hp & _ & Hc).
    exists details. eexists. unfold result_table. rewrite Hp.
    rewrite (proj2 Hc (or_introl eq_refl)). reflexivity.
Defined.

(** *** The detailed rankings *)

Lemma resultDetails_by_phase (d d' : gmap string (list Row.t)) :
  default [] (d !! "FLOP") = default [] (d' !! "FLOP") ->
  default [] (d !! "TURN") = default [] (d' !! "TURN") ->
  default [] (d !! "RIVER") = default [] (d' !! "RIVER") ->
  buildResultDetails (Some d) = buildResultDetails (Some d').
Proof.
  intros H1 H2 H3. unfold buildResultDetails. cbn [map]. rewrite H1, H2, H3. reflexivity.
Qed.

(** X14: the detailed rankings always come as the three blocks FLOP, TURN,
    RIVER in this order, each with one row per ranking of that phase, in
    order, marked OK or OFF by is_correct.  A phase with no entry renders
    like a phase with an empty list, and entries under any other key are
    ignored.  Without a details object nothing is rendered. *)
Theorem result_details_blocks (details : gmap string (list Row.t)) :
  buildResultDetails None = None
  /\ (exists flop turn river,
        buildResultDetails (Some details)
        = Some [{| rp_title := "FLOP"; rp_rows := flop |};
                {| rp_title := "TURN"; rp_rows := turn |};
                {| rp_title := "RIVER"; rp_rows := river |}]
        /\ Forall2 (fun row html =>
                      rr_name html = Row.name row
                      /\ rr_statusLabel html = (if Row.is_correct row then "OK" else "OFF")
                      /\ rr_statusClass html = (if Row.is_correct row then "ok" else "off"))
             (default [] (details !! "FLOP") ++ default [] (details !! "TURN")
                ++ default [] (details !! "RIVER"))%list
             (flop ++ turn ++ river)%list
        /\ length flop = length (default [] (details !! "FLOP"))
        /\ length turn = length (default [] (details !! "TURN"))
        /\ length river = length (default [] (details !! "RIVER")))
  /\ (forall key rows,
        key <> "FLOP" -> key <> "TURN" -> key <> "RIVER" ->
        buildResultDetails (Some (<[key := rows]> details))
        = buildResultDetails (Some details))
  /\ (forall key,
        buildResultDetails (Some (<[key := []]> details))
        = buildResultDetails (Some (delete key details))).
Proof.
  split; [reflexivity |]. split; [| split].
  - do 3 eexists. split; [reflexivity |].
    rewrite !length_map. repeat split; try reflexivity.
    rewrite <- !map_app. apply Forall2_map_r. intros row. repeat split; reflexivity.
  - intros key rows H1 H2 H3. apply resultDetails_by_phase;
      rewrite lookup_insert_ne; auto.
  - intros key. apply resultDetails_by_phase.
    + destruct (String.eqb_spec key "FLOP") as [-> | Hk].
      * rewrite lookup_insert_eq, lookup_delete_eq. reflexivity.
      * rewrite lookup_insert_ne, lookup_delete_ne by exact Hk. reflexivity.
    + destruct (String.eqb_spec key "TURN") as [-> | Hk].
      * rewrite lookup_insert_eq, lookup_delete_eq. reflexivity.
      * rewrite lookup_insert_ne, lookup_delete_ne by exact Hk. reflexivity.
    + destruct (String.eqb_spec key "RIVER") as [-> | Hk].
      * rewrite lookup_insert_eq, lookup_delete_eq. reflexivity.
      * rewrite lookup_insert_ne, lookup_delete_ne by exact Hk. reflexivity.
Qed.

Lemma result_details_blocks_witness :
  buildResultDetails
    (Some (<["SHOWDOWN" := [Row.mk "Bob" 1 1 "Pair" true]]>
             (default ∅ (State.result_details detailed_state))))
  = buildResultDetails (State.result_details detailed_state).
Proof.
  apply (proj1 (proj2 (proj2 (result_details_blocks
           (default ∅ (State.result_details detailed_state)))))); discriminate.
Defined.

(** ** More on the tomato *)

Ltac by_cases :=
  unfold applyActiveTomatoTarget, applyTomatoEffect, dropTomatoEffect,
    scheduleTomatoClear, scheduleTomatoImpact, animateTomatoFlight,
    updateTomatoToast, tomatoImpact_callback, clearTimeout_if, setTimeout, over_dom;
  cbv zeta; repeat (case_match; cbn [fst snd]); try reflexivity.

Lemma pending_applyTomatoEffect event me now c :
  pendingTomatoEvent (applyTomatoEffect event me now c) = pendingTomatoEvent c.
Proof. by_cases. Qed.

Lemma pending_applyActiveTomatoTarget me now c :
  pendingTomatoEvent (applyActiveTomatoTarget me now c) = pendingTomatoEvent c.
Proof. by_cases. Qed.

Lemma menu_applyTomatoEffect event me now c :
  openTomatoMenu (applyTomatoEffect event me now c) = openTomatoMenu c.
Proof. by_cases. Qed.

Lemma menu_applyActiveTomatoTarget me now c :
  openTomatoMenu (applyActiveTomatoTarget me now c) = openTomatoMenu c.
Proof. by_cases. Qed.

Lemma lastId_applied event at_ me now c :
  Tomato.at_ event = Some at_ ->
  Qgtb (ageMs now at_) (inject_Z TOMATO_LIFETIME_MS) = false ->
  truthy (Tomato.id event) = true ->
  lastTomatoEventId (applyTomatoEffect (Some event) me now c) = Tomato.id event.
Proof.
  intros Hat Hage Hid. unfold applyTomatoEffect. rewrite Hat, Hage, Hid.
  destruct (bool_decide (Tomato.id event = lastTomatoEventId c)) eqn:Ed.
  - cbn [andb]. apply bool_decide_eq_true in Ed. congruence.
  - cbn [andb]. by_cases.
Qed.

(** X15: an event with an id is applied once.  Applying a fresh event
    records its id, and applying the same event again while it is still
    fresh changes nothing: no second flight, no second timer, whoever the
    viewer is by then. *)
Theorem tomato_event_applied_once (event : Tomato.t) (at_ : Q) (me : option Player.t)
    (now : Z) (c : Client) :
  Tomato.at_ event = Some at_ ->
  truthy (Tomato.id event) = true ->
  (ageMs now at_ <= 3000)%Q ->
  lastTomatoEventId (applyTomatoEffect (Some event) me now c) = Tomato.id event
  /\ (forall me' now',
        (ageMs now' at_ <= 3000)%Q ->
        applyTomatoEffect (Some event) me' now' (applyTomatoEffect (Some event) me now c)
        = applyTomatoEffect (Some event) me now c).
Proof.
  intros Hat Hid Hage. apply (proj2 (Qgtb_false _ _)) in Hage.
  pose proof (lastId_applied event at_ me now c Hat Hage Hid) as Hlast.
  split; [exact Hlast |].
  intros me' now' Hage'. apply (proj2 (Qgtb_false _ _)) in Hage'.
  unfold applyTomatoEffect at 1. rewrite Hat.
  change (inject_Z TOMATO_LIFETIME_MS) with 3000%Q in *.
  rewrite Hage', Hid, Hlast. cbn [andb].
  rewrite bool_decide_eq_true_2 by reflexivity. reflexivity.
Qed.

Lemma tomato_event_applied_once_witness :
  applyTomatoEffect (Some sample_tomato) (Some alice) 2500 tomato_in_flight
  = tomato_in_flight.
Proof.
  apply (proj2 (tomato_event_applied_once sample_tomato (1 # 1) (Some alice) 1500
                  result_table eq_refl eq_refl ltac:(vm_compute; discriminate))).
  vm_compute. discriminate.
Defined.

Lemma pending_beforePage state c :
  pendingTomatoEvent (beforePage state c) = pendingTomatoEvent c.
Proof.
  unfold beforePage, syncObserver. cbv zeta. repeat (case_match; cbn); reflexivity.
Qed.

(** X16: a tomato event that arrives before the first snapshot is not lost.
    It is only remembered (the latest one wins), it stays remembered across
    snapshots of a viewer who has not joined, and the first rendering for a
    joined viewer applies it and forgets it. *)
Theorem early_tomato_event_is_kept (ev : Tomato.t) (now : Z) (c : Client) :
  (lastState c = None ->
     on_tomato_event ev now c = set_pendingTomatoEvent (Some ev) c
     /\ forall ev' now',
          on_tomato_event ev' now' (on_tomato_event ev now c)
          = set_pendingTomatoEvent (Some ev') c)
  /\ (forall state,
        State.me state = None ->
        pendingTomatoEvent (renderGame state now c) = pendingTomatoEvent c)
  /\ (forall state me,
        State.me state = Some me ->
        pendingTomatoEvent (renderGame state now c) = None)
  /\ (forall state me at_,
        State.me state = Some me ->
        pendingTomatoEvent c = Some ev ->
        Tomato.at_ ev = Some at_ -> truthy (Tomato.id ev) = true ->
        (ageMs now at_ <= 3000)%Q ->
        lastTomatoEventId (renderGame state now c) = Tomato.id ev).
Proof.
  split; [| split; [| split]].
  - intros Hl. unfold on_tomato_event. rewrite Hl. split; [reflexivity |].
    intros ev' now'. cbn [lastState set_pendingTomatoEvent]. rewrite Hl.
    destruct c; reflexivity.
  - intros state Hme. rewrite (renderGame_not_joined state now c Hme). reflexivity.
  - intros state me Hme. unfold renderGame. rewrite Hme. cbv zeta.
    match goal with
    | |- pendingTomatoEvent (updateDisconnectedTimers _
           (match pendingTomatoEvent ?x with _ => _ end)) = _ =>
        destruct (pendingTomatoEvent x) eqn:E
    end; [reflexivity | exact E].
  - intros state me at_ Hme Hp Hat Hid Hage.
    apply (proj2 (Qgtb_false _ _)) in Hage.
    unfold renderGame. rewrite Hme. cbv zeta. fold (beforePage state c).
    match goal with
    | |- lastTomatoEventId (updateDisconnectedTimers _
           (match pendingTomatoEvent ?x with _ => _ end)) = _ =>
        assert (E : pendingTomatoEvent x = Some ev)
          by (rewrite pending_applyTomatoEffect, pending_applyActiveTomatoTarget;
              cbn [pendingTomatoEvent set_nextElem set_dom];
              rewrite pending_beforePage; exact Hp);
        rewrite E
    end.
    cbn [lastTomatoEventId updateDisconnectedTimers over_dom set_dom set_pendingTomatoEvent].
    apply (lastId_applied ev at_ _ now _ Hat Hage Hid).
Qed.

Lemma early_tomato_event_is_kept_witness :
  pendingTomatoEvent (on_tomato_event sample_tomato 1200 (startup ∅ "u-1" blank_page))
    = Some sample_tomato
  /\ lastTomatoEventId
       (renderGame sample_state 1500
          (on_tomato_event sample_tomato 1200 (startup ∅ "u-1" blank_page)))
     = Some "e1".
Proof.
  split.
  - rewrite (proj1 (proj1 (early_tomato_event_is_kept sample_tomato 1200
                             (startup ∅ "u-1" blank_page)) eq_refl)).
    reflexivity.
  - apply (proj2 (proj2 (proj2 (early_tomato_event_is_kept sample_tomato 1500
                                  (on_tomato_event sample_tomato 1200
                                     (startup ∅ "u-1" blank_page)))))
             sample_state alice (1 # 1)); try reflexivity.
    vm_compute. discriminate.
Defined.

Lemma gameContainer_addTomatoHit el d :
  gameContainer (addTomatoHit el d) = gameContainer d.
Proof. destruct el; reflexivity. Qed.

Lemma flight_gone tomato (fs : list Flight) :
  existsb (fun f => Nat.eqb (fl_elem f) tomato)
    (List.filter (fun f => negb (Nat.eqb (fl_elem f) tomato)) fs) = false.
Proof.
  induction fs as [| f fs IH]; cbn; [reflexivity |].
  destruct (Nat.eqb (fl_elem f) tomato) eqn:E; cbn; [exact IH |].
  rewrite E. exact IH.
Qed.

Lemma find_none_of_existsb {A} (p : A -> bool) (l : list A) :
  existsb p l = false -> find p l = None.
Proof.
  induction l as [| x l IH]; cbn; [reflexivity |].
  destruct (p x); [discriminate | exact IH].
Qed.

Lemma flight_attached_cleanup tomato targetEl c :
  flight_attached tomato (dom (flight_cleanup tomato targetEl c)) = false.
Proof.
  unfold flight_attached, flight_cleanup. cbn [dom over_dom set_dom].
  rewrite gameContainer_addTomatoHit. unfold remove_flight.
  cbn [gameContainer set_gameContainer].
  destruct (gameContainer (dom c)) as [g |]; cbn; [apply flight_gone | reflexivity].
Qed.

(** X17: a flying tomato lands once.  Its transition end and its fallback
    timer do the same thing, take the tomato off the page and mark the
    target, and whichever comes second finds the tomato gone and does
    nothing; the fallback is due 850 ms after the throw, and without a game
    container nothing flies at all. *)
Theorem flying_tomato_lands_once (tomato : nat) (targetEl : ElemRef) (now : Z)
    (c : Client) :
  flight_attached tomato (dom (flight_cleanup tomato targetEl c)) = false
  /\ flight_fallback tomato targetEl (flight_cleanup tomato targetEl c)
     = flight_cleanup tomato targetEl c
  /\ handle (Transition_end tomato) now (flight_fallback tomato targetEl c)
     = flight_fallback tomato targetEl c
  /\ (forall sourceEl,
        gameContainer (dom c) = None ->
        animateTomatoFlight sourceEl targetEl now c = c)
  /\ (forall sourceEl g,
        gameContainer (dom c) = Some g ->
        gameContainer (dom (animateTomatoFlight sourceEl targetEl now c))
          = Some (set_flights
                    (gc_flights g ++ [{| fl_elem := nextElem c; fl_target := targetEl |}])%list g)
        /\ timers (animateTomatoFlight sourceEl targetEl now c)
           = (timers c ++ [{| timer_id := nextTimer c; due := now + 850;
                              callback := FlightCb (nextElem c) targetEl |}])%list).
Proof.
  pose proof (flight_attached_cleanup tomato targetEl c) as Hgone.
  assert (Hquiet : forall c', flight_attached tomato (dom c') = false ->
                     handle (Transition_end tomato) now c' = c').
  { intros c' H. cbn [handle]. unfold flight_attached in H.
    destruct (gameContainer (dom c')) as [g |]; [| reflexivity].
    rewrite (find_none_of_existsb _ _ H). reflexivity. }
  split; [exact Hgone |]. split; [| split; [| split]].
  - unfold flight_fallback at 1. rewrite Hgone. reflexivity.
  - unfold flight_fallback. destruct (flight_attached tomato (dom c)) eqn:E; cbn [negb].
    + apply Hquiet, Hgone.
    + apply Hquiet, E.
  - intros sourceEl Hg. unfold animateTomatoFlight. rewrite Hg. reflexivity.
  - intros sourceEl g Hg. unfold animateTomatoFlight. rewrite Hg. split; reflexivity.
Qed.

Lemma flying_tomato_lands_once_witness :
  map fl_elem (default [] (gc_flights <$> gameContainer (dom tomato_in_flight))) = [1%nat]
  /\ (default [] (gc_flights <$> gameContainer
        (dom (handle (Transition_end 1) 2000 tomato_in_flight)))) = [].
Proof.
  split; [reflexivity |].
  destruct (flying_tomato_lands_once 1 (RefCard 0) 2000 tomato_in_flight) as (H & _).
  reflexivity.
Defined.

(** *** The tomato menu *)

Lemma tomatoMenu_renderGame state me now c :
  State.me state = Some me -> tomatoMenu (dom (renderGame state now c)) = None.
Proof.
  intros Hme. destruct (page_of_frame _ _ (renderGame_joined state me now c Hme))
    as (_ & _ & _ & _ & ->). reflexivity.
Qed.

Lemma openTomatoMenu_renderGame state me now c :
  State.me state = Some me ->
  openTomatoMenu (renderGame state now c)
  = if menu_detached c then None else openTomatoMenu c.
Proof.
  intros Hme. unfold renderGame. rewrite Hme. cbv zeta.
  cbn [openTomatoMenu updateDisconnectedTimers over_dom set_dom].
  match goal with
  | |- openTomatoMenu (match pendingTomatoEvent ?x with _ => _ end) = _ =>
      destruct (pendingTomatoEvent x)
  end; cbn [openTomatoMenu set_pendingTomatoEvent];
    rewrite ?menu_applyTomatoEffect, menu_applyActiveTomatoTarget;
    unfold syncObserver, menu_detached; cbn;
    repeat (case_match; cbn); try reflexivity; congruence.
Qed.

(** X18: the tomato menu.  It opens only for a non-empty player id, there is
    never more than the newest one (opening a menu drops the one that was
    open), opening and closing send nothing, a click elsewhere closes it, a
    rendering takes it off the page with the cards it hung on, and the
    rendering after that forgets it. *)
Theorem tomato_menu_lifecycle (name : string) (anchor : nat) (now : Z) (c : Client) :
  toggleTomatoMenu "" name anchor c = c
  /\ (forall target,
        target <> "" -> card_attached anchor (dom c) = true ->
        tomatoMenu (dom (toggleTomatoMenu target name anchor c))
          = Some {| tm_elem := nextElem c; tm_anchor := anchor; tm_target := target |}
        /\ openTomatoMenu (toggleTomatoMenu target name anchor c) = Some (nextElem c)
        /\ emitted (toggleTomatoMenu target name anchor c) = emitted c
        /\ tomatoMenu (dom (handle Click_elsewhere now (toggleTomatoMenu target name anchor c)))
           = None
        /\ openTomatoMenu (handle Click_elsewhere now (toggleTomatoMenu target name anchor c))
           = None
        /\ emitted (handle Click_elsewhere now (toggleTomatoMenu target name anchor c))
           = emitted c)
  /\ (forall state me,
        State.me state = Some me ->
        tomatoMenu (dom (renderGame state now c)) = None
        /\ forall state' me' now',
             State.me state' = Some me' ->
             openTomatoMenu (renderGame state' now' (renderGame state now c)) = None).
Proof.
  split; [reflexivity |]. split.
  - intros target Ht Ha. unfold toggleTomatoMenu. cbv zeta.
    destruct (String.eqb_spec target "") as [E | _]; [contradiction |].
    unfold card_attached in *.
    destruct (tomatoMenu (dom c)) eqn:Em; cbn; rewrite Ha; cbn;
      unfold closeOnOutsideClick, removeMenu; cbn; rewrite Nat.eqb_refl; cbn;
      rewrite ?Nat.eqb_refl; repeat split; reflexivity.
  - intros state me Hme. split; [apply (tomatoMenu_renderGame state me now c Hme) |].
    intros state' me' now' Hme'.
    rewrite (openTomatoMenu_renderGame state' me' now' _ Hme').
    unfold menu_detached. rewrite (tomatoMenu_renderGame state me now c Hme).
    destruct (openTomatoMenu (renderGame state now c)); reflexivity.
Qed.

Lemma tomato_menu_lifecycle_witness :
  tomatoMenu (dom table_with_menu)
    = Some {| tm_elem := 1; tm_anchor := 0; tm_target := "p-bob" |}
  /\ tomatoMenu (dom (renderGame sample_state 2000 table_with_menu)) = None
  /\ openTomatoMenu (renderGame sample_state 3000 (renderGame sample_state 2000 table_with_menu))
     = None.
Proof.
  split; [| split].
  - destruct (tomato_menu_lifecycle "Bob" 0 2000
                (over_dom (set_chatInput " gg ")
                   (renderGame sample_state 1000 (startup ∅ "u-1" blank_page))))
      as (_ & Hopen & _).
    apply (Hopen "p-bob"); [discriminate | reflexivity].
  - destruct (tomato_menu_lifecycle "Bob" 0 2000 table_with_menu) as (_ & _ & Hr).
    apply (Hr sample_state alice eq_refl).
  - destruct (tomato_menu_lifecycle "Bob" 0 2000 table_with_menu) as (_ & _ & Hr).
    apply (proj2 (Hr sample_state alice eq_refl) sample_state alice 3000 eq_refl).
Defined.

(** *** Keeping the mark across renderings *)

Lemma has_hit_after_add (e : nat) (cards : list PlayerCard) :
  Forall (fun pc => pc_elem pc = e -> has_class "tomato-hit" (pc_classes pc) = true)
    (map (fun pc => if Nat.eqb (pc_elem pc) e then card_add_hit pc else pc) cards).
Proof.
  apply Forall_map. apply Forall_forall. intros pc _. cbn beta.
  destruct (Nat.eqb_spec (pc_elem pc) e) as [E | E].
  - intros _. exact (has_class_add_same "tomato-hit" (pc_classes pc)).
  - intros E'. contradiction.
Qed.

(** X19: every rendering looks after the active tomato.  Without an active
    target, or past its expiry, the marks are cleared and the active state is
    reset.  While the tomato is still flying the page is left alone and the
    impact is scheduled for the moment it lands.  After that the mark is put
    back on the target's new card. *)
Theorem active_tomato_is_reapplied (me : option Player.t) (now : Z) (c : Client) :
  (truthy (activeTomatoTargetId c) = false
   \/ (activeTomatoExpiresAt c < inject_Z now)%Q ->
   no_tomato_hit (dom (applyActiveTomatoTarget me now c))
   /\ activeTomatoTargetId (applyActiveTomatoTarget me now c) = None
   /\ activeTomatoExpiresAt (applyActiveTomatoTarget me now c) = 0%Q
   /\ activeTomatoShowAt (applyActiveTomatoTarget me now c) = 0)
  /\ (forall target,
        activeTomatoTargetId c = Some target -> target <> "" ->
        (inject_Z now <= activeTomatoExpiresAt c)%Q ->
        (activeTomatoShowAt c <> 0 -> now < activeTomatoShowAt c ->
           dom (applyActiveTomatoTarget me now c) = dom c
           /\ exists id,
                tomatoImpactTimeout (applyActiveTomatoTarget me now c) = Some id
                /\ In {| timer_id := id; due := activeTomatoShowAt c;
                         callback := ImpactCb target me |}
                     (timers (applyActiveTomatoTarget me now c)))
        /\ (activeTomatoShowAt c = 0 \/ activeTomatoShowAt c <= now ->
            timers (applyActiveTomatoTarget me now c) = timers c
            /\ forall e,
                 queryPlayerCard target (dom c) = Some (RefCard e) ->
                 Forall (fun pc => pc_elem pc = e ->
                                   has_class "tomato-hit" (pc_classes pc) = true)
                   (opponentsEl (dom (applyActiveTomatoTarget me now c))))).
Proof.
  split.
  - intros Hcond.
    assert (Hb : negb (truthy (activeTomatoTargetId c))
                 || Qgtb (inject_Z now) (activeTomatoExpiresAt c) = true).
    { destruct Hcond as [-> | Hlt]; [reflexivity |].
      apply (proj2 (Qgtb_true _ _)) in Hlt. rewrite Hlt. apply orb_true_r. }
    unfold applyActiveTomatoTarget. cbv zeta. rewrite Hb.
    split; [| cbn; destruct (tomatoImpactTimeout c); repeat split; reflexivity].
    eapply no_tomato_hit_view; [apply hit_view_clearTimeout_if |].
    apply (no_tomato_hit_clear (dom c)).
  - intros target Ht Hne Hlive.
    assert (Hb : negb (truthy (activeTomatoTargetId c))
                 || Qgtb (inject_Z now) (activeTomatoExpiresAt c) = false).
    { rewrite Ht. cbn [truthy]. destruct (String.eqb_spec target ""); [contradiction |].
      cbn. apply Qgtb_false, Hlive. }
    unfold applyActiveTomatoTarget. cbv zeta. rewrite Hb. split.
    + intros Hs Hlt.
      destruct (Z.eqb_spec (activeTomatoShowAt c) 0); [contradiction |].
      destruct (Z.ltb_spec now (activeTomatoShowAt c)); [| lia]. cbn [negb andb].
      unfold scheduleTomatoImpact. rewrite Ht. cbn [truthy].
      destruct (String.eqb_spec target ""); [contradiction |]. cbn [negb]. cbv zeta.
      cbn [setTimeout]. split; [destruct (tomatoImpactTimeout c); reflexivity |].
      eexists. split; [reflexivity |].
      cbn [timers set_tomatoImpactTimeout set_nextTimer set_timers].
      apply in_or_app. right. left. change (default "" (Some target)) with target.
      f_equal. lia.
    + intros Hs.
      assert (Hb2 : negb (activeTomatoShowAt c =? 0) && (now <? activeTomatoShowAt c) = false).
      { destruct Hs as [-> | Hle]; [reflexivity |].
        destruct (Z.ltb_spec now (activeTomatoShowAt c)); [lia | apply andb_false_r]. }
      rewrite Hb2, Ht. change (default "" (Some target)) with target.
      split; [reflexivity |].
      intros e He. cbn [dom over_dom set_dom]. unfold targetElement. rewrite He.
      cbn [addTomatoHit opponentsEl set_opponentsEl]. apply has_hit_after_add.
Qed.

Lemma active_tomato_is_reapplied_witness :
  map (fun pc => has_class "tomato-hit" (pc_classes pc))
    (opponentsEl (dom (applyActiveTomatoTarget (Some alice) 2200 tomato_in_flight)))
  = [true].
Proof.
  destruct (active_tomato_is_reapplied (Some alice) 2200 tomato_in_flight) as [_ H].
  destruct (H "p-bob" eq_refl ltac:(discriminate) ltac:(vm_compute; discriminate))
    as [_ Hmark].
  destruct (Hmark ltac:(right; vm_compute; discriminate)) as [_ Hhit].
  specialize (Hhit 0%nat eq_refl).
  vm_compute. reflexivity.
Defined.

(** *** Toasts *)

Lemma find_after_cancel (ts : list Timer) (id : nat) (t : Timer) :
  timer_id t <> id ->
  find (fun x => Nat.eqb (timer_id x) id)
    (List.filter (fun x => negb (Nat.eqb (timer_id x) id)) ts ++ [t])%list = None.
Proof.
  intros Hne. induction ts as [| x ts IH]; cbn.
  - destruct (Nat.eqb_spec (timer_id t) id); [contradiction | reflexivity].
  - destruct (Nat.eqb (timer_id x) id) eqn:E; cbn; [exact IH |]. rewrite E. exact IH.
Qed.

(** X20: the action toast.  Without a game container nothing happens.  An
    empty message hides and empties the toast and starts no timer.  Any
    other message is shown; the hide callback is pending under the
    remembered id, due 3000 ms later, the timer of the message before is
    cancelled, and when the callback runs the toast is hidden with its text
    left in place. *)
Theorem action_toast_shows_then_hides (text : string) (now : Z) (c : Client) :
  (gameContainer (dom c) = None -> showGameActionToast text now c = c)
  /\ (forall g,
        gameContainer (dom c) = Some g ->
        gameContainer (dom (showGameActionToast "" now c))
          = Some (set_action_toast (Some {| toast_show := false; toast_text := "" |}) g)
        /\ timers (showGameActionToast "" now c) = timers c
        /\ (text <> "" -> timers_sound c ->
            gameContainer (dom (showGameActionToast text now c))
              = Some (set_action_toast (Some {| toast_show := true; toast_text := text |}) g)
            /\ exists id,
                 gameActionToastTimeout (showGameActionToast text now c) = Some id
                 /\ find (fun t => Nat.eqb (timer_id t) id)
                      (timers (showGameActionToast text now c))
                    = Some {| timer_id := id; due := now + 3000; callback := ToastCb |}
                 /\ (forall id0,
                       gameActionToastTimeout c = Some id0 ->
                       find (fun t => Nat.eqb (timer_id t) id0)
                         (timers (showGameActionToast text now c)) = None)
                 /\ gameContainer
                      (dom (fire id (now + 3000) (showGameActionToast text now c)))
                    = Some (set_action_toast
                              (Some {| toast_show := false; toast_text := text |}) g))).
Proof.
  split.
  - intros Hg. unfold showGameActionToast. rewrite Hg. reflexivity.
  - intros g Hg. unfold showGameActionToast. rewrite Hg. cbv zeta.
    split; [reflexivity |]. split; [reflexivity |].
    intros Hne (Hfresh & _ & _ & Hissued & _).
    destruct (String.eqb_spec text ""); [contradiction |].
    cbn [setTimeout gameActionToastTimeout over_dom set_dom].
    split; [destruct (gameActionToastTimeout c); reflexivity |].
    set (c1 := clearTimeout_if _ _).
    assert (Hf1 : Forall (fun t => (timer_id t < nextTimer c1)%nat) (timers c1)).
    { subst c1. destruct (gameActionToastTimeout c); cbn; [apply Forall_filter_keep |];
        exact Hfresh. }
    assert (Hfind : find (fun t => Nat.eqb (timer_id t) (nextTimer c1))
                      (timers c1 ++ [{| timer_id := nextTimer c1;
                                        due := now + GAME_ACTION_TOAST_MS;
                                        callback := ToastCb |}])%list
                    = Some {| timer_id := nextTimer c1; due := now + 3000;
                              callback := ToastCb |}).
    { apply (find_fresh_timer (timers c1)
               {| timer_id := nextTimer c1; due := now + 3000; callback := ToastCb |}).
      exact Hf1. }
    exists (nextTimer c1). split; [reflexivity |]. split; [exact Hfind |]. split.
    + intros id0 Hid0. specialize (Hissued id0 Hid0).
      cbn [timers set_gameActionToastTimeout set_nextTimer set_timers].
      subst c1. rewrite Hid0. cbn [clearTimeout_if timers clearTimeout set_timers over_dom set_dom].
      apply find_after_cancel. cbn. lia.
    + unfold fire.
      cbn [timers set_gameActionToastTimeout set_nextTimer set_timers] in *.
      rewrite Hfind. cbn [due callback]. rewrite Z.leb_refl.
      cbn [run_callback]. unfold gameActionToast_callback.
      subst c1. destruct (gameActionToastTimeout c); reflexivity.
Qed.

Lemma action_toast_shows_then_hides_witness :
  (gc_action_toast <$> gameContainer (dom (showGameActionToast "Not your turn" 100 result_table)))
    = Some (Some {| toast_show := true; toast_text := "Not your turn" |})
  /\ (gc_action_toast <$> gameContainer
        (dom (fire 1 3100 (showGameActionToast "Not your turn" 100 result_table))))
     = Some (Some {| toast_show := false; toast_text := "Not your turn" |}).
Proof.
  destruct (action_toast_shows_then_hides "Not your turn" 100 result_table) as [_ H].
  destruct (H _ eq_refl) as (_ & _ & Hshow).
  destruct Hshow as (Hg & id & Hid & _ & _ & Hfire).
  - discriminate.
  - unfold timers_sound, timers_fresh, issued. vm_compute.
    repeat split; try (intros; congruence); repeat constructor.
  - split; [rewrite Hg; reflexivity |].
    vm_compute in Hid. injection Hid as <-. change (100 + 3000) with 3100 in Hfire.
    rewrite Hfire. reflexivity.
Defined.

Lemma dom_clearTimeout_if t c : dom (clearTimeout_if t c) = dom c.
Proof. destruct t; reflexivity. Qed.

Lemma dom_scheduleTomatoClear now c : dom (scheduleTomatoClear now c) = dom c.
Proof. unfold scheduleTomatoClear. cbv zeta. destruct (tomatoClearTimeout c); reflexivity. Qed.

Lemma dom_scheduleTomatoImpact targetId me delayMs now c :
  dom (scheduleTomatoImpact targetId me delayMs now c) = dom c.
Proof.
  unfold scheduleTomatoImpact. cbv zeta. case_match; [reflexivity |].
  destruct (tomatoImpactTimeout c); reflexivity.
Qed.

Lemma container_animateTomatoFlight sourceEl targetEl now c :
  is_Some (gameContainer (dom c)) ->
  is_Some (gameContainer (dom (animateTomatoFlight sourceEl targetEl now c))).
Proof.
  intros [g Hg]. unfold animateTomatoFlight. rewrite Hg. cbn. eexists. reflexivity.
Qed.

Lemma toast_after_update text c :
  is_Some (gameContainer (dom c)) ->
  (gc_tomato_toast <$> gameContainer (dom (updateTomatoToast text c)))
  = Some (Some (if truthy text
                then {| toast_show := true; toast_text := default "" text |}
                else {| toast_show := false; toast_text := "" |})).
Proof.
  intros [g Hg]. unfold updateTomatoToast. cbn [dom over_dom set_dom]. rewrite Hg.
  reflexivity.
Qed.

Lemma is_Some_None_or {A} (o : option A) : (exists x, o = Some x) \/ o = None.
Proof. destruct o; eauto. Qed.

(** X21: the tomato toast.  A missing or stale event hides and empties it;
    an event that is applied announces who hit whom, whether or not the two
    players are on the page. *)
Theorem tomato_toast_announces (event : Tomato.t) (at_ : Q) (me : option Player.t)
    (now : Z) (c : Client) (g : GameContainer) :
  gameContainer (dom c) = Some g ->
  Tomato.at_ event = Some at_ ->
  (gc_tomato_toast <$> gameContainer (dom (applyTomatoEffect None me now c)))
    = Some (Some {| toast_show := false; toast_text := "" |})
  /\ ((3000 < ageMs now at_)%Q ->
      (gc_tomato_toast <$> gameContainer (dom (applyTomatoEffect (Some event) me now c)))
      = Some (Some {| toast_show := false; toast_text := "" |}))
  /\ ((ageMs now at_ <= 3000)%Q ->
      truthy (Tomato.id event) && bool_decide (Tomato.id event = lastTomatoEventId c) = false ->
      (gc_tomato_toast <$> gameContainer (dom (applyTomatoEffect (Some event) me now c)))
      = Some (Some {| toast_show := true;
                      toast_text := "🍅 " +:+ Tomato.from_name event +:+ " splats "
                                    +:+ Tomato.to_name event +:+ "!" |})).
Proof.
  intros Hg Hat.
  assert (Hdrop : (gc_tomato_toast <$> gameContainer (dom (dropTomatoEffect c)))
                  = Some (Some {| toast_show := false; toast_text := "" |})).
  { unfold dropTomatoEffect. cbv zeta.
    apply (toast_after_update None). rewrite dom_clearTimeout_if.
    exists g. exact Hg. }
  split; [exact Hdrop |]. split.
  - intros Hage. apply (proj2 (Qgtb_true _ _)) in Hage.
    unfold applyTomatoEffect. rewrite Hat.
    change (inject_Z TOMATO_LIFETIME_MS) with 3000%Q. rewrite Hage. exact Hdrop.
  - intros Hage Hdup. apply (proj2 (Qgtb_false _ _)) in Hage.
    unfold applyTomatoEffect. rewrite Hat.
    change (inject_Z TOMATO_LIFETIME_MS) with 3000%Q. rewrite Hage, Hdup. cbv zeta.
    set (c0 := (if truthy (Tomato.to_id event) then _ else _)).
    assert (H0 : is_Some (gameContainer (dom c0))).
    { exists g. rewrite <- Hg. subst c0. repeat case_match; reflexivity. }
    clearbody c0.
    repeat case_match; rewrite dom_scheduleTomatoClear;
      apply (toast_after_update (Some (splat_text event)));
      first [ exact H0
            | rewrite dom_scheduleTomatoImpact; apply container_animateTomatoFlight, H0
            | cbn [dom over_dom set_dom]; rewrite gameContainer_addTomatoHit; exact H0 ].
Qed.

Lemma tomato_toast_announces_witness :
  (gc_tomato_toast <$> gameContainer (dom tomato_in_flight))
    = Some (Some {| toast_show := true; toast_text := "🍅 Alice splats Bob!" |})
  /\ (gc_tomato_toast <$> gameContainer
        (dom (applyTomatoEffect (Some sample_tomato) (Some alice) 9000 tomato_in_flight)))
     = Some (Some {| toast_show := false; toast_text := "" |}).
Proof.
  split.
  - apply (proj2 (proj2 (tomato_toast_announces sample_tomato (1 # 1) (Some alice) 1500
                           result_table
                           {| gc_flights := [];
                              gc_tomato_toast :=
                                Some {| toast_show := false; toast_text := "" |};
                              gc_action_toast := None |}
                           eq_refl eq_refl))).
    + vm_compute. discriminate.
    + reflexivity.
  - destruct (is_Some_None_or (gameContainer (dom tomato_in_flight))) as [[g Hg] | Hn];
      [| vm_compute in Hn; discriminate].
    apply (proj1 (proj2 (tomato_toast_announces sample_tomato (1 # 1) (Some alice) 9000
                           tomato_in_flight g Hg eq_refl))).
    reflexivity.
Defined.

(** ** The oldest version *)

(** X22: the oldest renderGame has no guard for a viewer who has not joined.
    Without state.me it throws after writing the status line and the two
    counters, so even a RESULT snapshot shows the plain status line and the
    rest of the page stays as it was.  With state.me but without its hand it
    throws after rebuilding the table and the opponents, with the viewer's
    own cards cleared and the own controls left stale. *)
Theorem oldest_render_throws_unjoined (state : Oldest.Snapshot.t) (page : Oldest.Page) :
  (Oldest.Snapshot.me state = None ->
   exists page',
     Oldest.renderGame state page = Oldest.Threw page'
     /\ Oldest.phaseEl page' = PhaseText (Oldest.statusText state)
     /\ Oldest.vaultEl page' = show (Oldest.Snapshot.vaults state)
     /\ Oldest.alarmEl page' = show (Oldest.Snapshot.alarms state)
     /\ Oldest.myNameEl page' = Oldest.myNameEl page
     /\ Oldest.commCardsEl page' = Oldest.commCardsEl page
     /\ Oldest.chipBankEl page' = Oldest.chipBankEl page
     /\ Oldest.opponentsEl page' = Oldest.opponentsEl page
     /\ Oldest.myCardsEl page' = Oldest.myCardsEl page
     /\ Oldest.myChipSlot page' = Oldest.myChipSlot page
     /\ Oldest.settleBtn page' = Oldest.settleBtn page
     /\ Oldest.returnBtn page' = Oldest.returnBtn page)
  /\ (forall me,
        Oldest.Snapshot.me state = Some me -> Oldest.Seat.hand me = None ->
        exists page',
          Oldest.renderGame state page = Oldest.Threw page'
          /\ Oldest.myNameEl page' = Oldest.Seat.name me
          /\ Oldest.chipBankEl page'
             = map (chipButton (Oldest.Snapshot.chip_color state))
                 (Oldest.Snapshot.chips_available state)
          /\ Oldest.myCardsEl page' = []
          /\ Oldest.myHistoryEl page' = Oldest.myHistoryEl page
          /\ Oldest.myChipSlot page' = Oldest.myChipSlot page
          /\ Oldest.settleBtn page' = Oldest.settleBtn page
          /\ Oldest.returnBtn page' = Oldest.returnBtn page
          /\ Oldest.chipBankClasses page' = Oldest.chipBankClasses page)
  /\ (forall me hand,
        Oldest.Snapshot.me state = Some me -> Oldest.Seat.hand me = Some hand ->
        exists page',
          Oldest.renderGame state page = Oldest.Rendered page'
          /\ Oldest.myCardsEl page' = map createCardDiv hand).
Proof.
  split; [| split].
  - intros Hme. unfold Oldest.renderGame. rewrite Hme. cbv zeta.
    eexists. split; [reflexivity |]. repeat split; reflexivity.
  - intros me Hme Hhand. unfold Oldest.renderGame. rewrite Hme, Hhand. cbv zeta.
    eexists. split; [reflexivity |]. repeat split; reflexivity.
  - intros me hand Hme Hhand. unfold Oldest.renderGame. rewrite Hme, Hhand. cbv zeta.
    eexists. split; reflexivity.
Qed.

Lemma oldest_render_throws_unjoined_witness :
  Oldest.phaseEl (Oldest.page_of (Oldest.renderGame (Oldest.table None) Oldest.blank))
    = PhaseText "RESULT - Red Chips"
  /\ (exists page, Oldest.renderGame (Oldest.table (Some Oldest.ben)) Oldest.blank
                   = Oldest.Threw page)
  /\ (exists page, Oldest.renderGame (Oldest.table (Some Oldest.ann)) Oldest.blank
                   = Oldest.Rendered page).
Proof.
  destruct (oldest_render_throws_unjoined (Oldest.table None) Oldest.blank)
    as (Hnone & _).
  destruct (Hnone eq_refl) as (p0 & Hp0 & Hph & _).
  destruct (oldest_render_throws_unjoined (Oldest.table (Some Oldest.ben)) Oldest.blank)
    as (_ & Hhand & _).
  destruct (Hhand Oldest.ben eq_refl eq_refl) as (p1 & Hp1 & _).
  destruct (oldest_render_throws_unjoined (Oldest.table (Some Oldest.ann)) Oldest.blank)
    as (_ & _ & Hok).
  destruct (Hok Oldest.ann _ eq_refl eq_refl) as (p2 & Hp2 & _).
  split; [| split].
  - rewrite Hp0. cbn [Oldest.page_of]. rewrite Hph. reflexivity.
  - exists p1. exact Hp1.
  - exists p2. exact Hp2.
Defined.

(** X23: in the oldest version the opponents row shows every player whose
    socket id differs from the viewer's, in the order of the snapshot, also
    when the rendering goes on to throw for a missing hand; a card's chip
    button is there exactly for a non-zero chip and takes that chip from that
    socket id. *)
Theorem oldest_opponents_by_socket_id (state : Oldest.Snapshot.t) (me : Oldest.Seat.t)
    (page : Oldest.Page) :
  Oldest.Snapshot.me state = Some me ->
  Forall2
    (fun p card =>
       Oldest.oc_name card = Oldest.Seat.name p
       /\ Oldest.oc_status card = (if Oldest.Seat.is_settled p then "✔ SETTLED" else "...")
       /\ Oldest.oc_chip card
          = match Oldest.Seat.chip p with
            | Some v =>
                if v =? 0 then None
                else Some {| btn_className :=
                               ["chip"; "chip-" +:+ toLowerCase (Oldest.Snapshot.chip_color state)];
                             btn_innerText := "★ " +:+ show v;
                             btn_onclick := OnTakeChip v (Oldest.Seat.sid p) |}
            | None => None
            end)
    (List.filter (fun p => negb (String.eqb (Oldest.Seat.sid p) (Oldest.Seat.sid me)))
       (Oldest.Snapshot.players state))
    (Oldest.opponentsEl (Oldest.page_of (Oldest.renderGame state page)))
  /\ (forall p,
        In p (Oldest.Snapshot.players state) ->
        Oldest.Seat.sid p <> Oldest.Seat.sid me ->
        In (Oldest.Seat.name p)
          (map Oldest.oc_name
             (Oldest.opponentsEl (Oldest.page_of (Oldest.renderGame state page))))).
Proof.
  intros Hme.
  assert (Hrow : Oldest.opponentsEl (Oldest.page_of (Oldest.renderGame state page))
                 = map (Oldest.renderOpponent (Oldest.Snapshot.chip_color state))
                     (List.filter
                        (fun p => negb (String.eqb (Oldest.Seat.sid p) (Oldest.Seat.sid me)))
                        (Oldest.Snapshot.players state))).
  { unfold Oldest.renderGame. rewrite Hme. cbv zeta.
    destruct (Oldest.Seat.hand me); reflexivity. }
  rewrite Hrow. split.
  - apply Forall2_map_r. intros p. cbn [Oldest.oc_name Oldest.oc_status Oldest.oc_chip
                                         Oldest.renderOpponent].
    repeat split. destruct (Oldest.Seat.chip p) as [v |]; cbn; [| reflexivity].
    destruct (v =? 0); reflexivity.
  - intros p Hp Hne. rewrite map_map. cbn [Oldest.oc_name Oldest.renderOpponent].
    apply (in_map Oldest.Seat.name). apply filter_In. split; [exact Hp |].
    destruct (String.eqb_spec (Oldest.Seat.sid p) (Oldest.Seat.sid me));
      [contradiction | reflexivity].
Qed.

Lemma oldest_opponents_by_socket_id_witness :
  map Oldest.oc_name
    (Oldest.opponentsEl
       (Oldest.page_of (Oldest.renderGame (Oldest.table (Some Oldest.ann)) Oldest.blank)))
  = ["Ben"].
Proof.
  destruct (oldest_opponents_by_socket_id (Oldest.table (Some Oldest.ann)) Oldest.ann
              Oldest.blank eq_refl) as [_ Hin].
  specialize (Hin Oldest.ben ltac:(right; left; reflexivity) ltac:(discriminate)).
  reflexivity.
Defined.

(** X24: changeName across versions.  The oldest version sends the input as
    typed, whenever it is not empty; the current one sends it trimmed, and
    only when something is left.  The two send the same name exactly for an
    input with nothing to trim, and a blank input of spaces is sent by the
    oldest version and dropped by the current one. *)
Theorem changeName_raw_then_trimmed (log : list Emit) (page : Oldest.Page) (c : Client) :
  Oldest.nameInput page = nameInput (dom c) ->
  (nameInput (dom c) = "" ->
     Oldest.changeName log page = (log, page) /\ changeName c = c)
  /\ (nameInput (dom c) <> "" ->
      fst (Oldest.changeName log page) = (log ++ [change_name (nameInput (dom c))])%list
      /\ Oldest.nameInput (snd (Oldest.changeName log page)) = "")
  /\ (nameInput (dom c) <> "" -> trim (nameInput (dom c)) = nameInput (dom c) ->
      outgoing Click_changeName c = [change_name (nameInput (dom c))])
  /\ (nameInput (dom c) <> "" -> trim (nameInput (dom c)) = "" ->
      changeName c = c
      /\ fst (Oldest.changeName log page) = (log ++ [change_name (nameInput (dom c))])%list).
Proof.
  intros Hin. unfold Oldest.changeName. cbv zeta. rewrite Hin.
  split; [| split; [| split]].
  - intros E. rewrite E. split; [reflexivity |].
    unfold changeName. cbv zeta. rewrite E. reflexivity.
  - intros Hne. destruct (String.eqb_spec (nameInput (dom c)) ""); [contradiction |].
    split; reflexivity.
  - intros Hne Ht. cbn [outgoing]. rewrite Ht.
    destruct (String.eqb_spec (nameInput (dom c)) ""); [contradiction | reflexivity].
  - intros Hne Ht. destruct (String.eqb_spec (nameInput (dom c)) ""); [contradiction |].
    split; [| reflexivity]. unfold changeName. cbv zeta. rewrite Ht. reflexivity.
Qed.

Lemma changeName_raw_then_trimmed_witness :
  fst (Oldest.changeName [] (Oldest.type_name "   " Oldest.blank)) = [change_name "   "]
  /\ changeName (over_dom (set_nameInput "   ") result_table)
     = over_dom (set_nameInput "   ") result_table.
Proof.
  destruct (changeName_raw_then_trimmed [] (Oldest.type_name "   " Oldest.blank)
              (over_dom (set_nameInput "   ") result_table) eq_refl)
    as (_ & _ & _ & Hblank).
  destruct (Hblank ltac:(vm_compute; discriminate) ltac:(reflexivity)) as [Hcur Hold].
  split; [exact Hold | exact Hcur].
Defined.
